(** * Reliability evaluator: incident classification, retry cascade, metrics

    A shallow embedding of [src/evals/reliability_eval.py]
    (class [ReliabilityEvaluator]) and the properties of its incident
    lifecycle.

    Modelling conventions.
    - Python [float] is IEEE binary64, here Rocq's primitive [float]; the
      literals [0.3], [0.8], ... denote the same binary64 values in both.
    - Python [int] is [Z].
    - A naive [datetime] is the number of microseconds since [datetime.min]
      (0001-01-01T00:00:00) and a [timedelta] a number of microseconds, both
      in [Z].  Adding a [timedelta] to a [datetime], or subtracting it, raises
      [OverflowError] when the result is not a date of the years 1 to 9999.
    - [FailureIncident] objects are mutable and shared by reference (the
      evaluator's list, the attempt's back-reference and the cascade all name
      the same object), so they live in a store indexed by locations.
    - The module-level generator [random] and the wall clock are oracles
      carried in the state: the n-th call of [random.random()] returns the
      n-th element of a stream, and the n-th evaluation of the incident-id
      f-string (which reads the clock and [random.randint]) returns the n-th
      element of a stream of strings.
    - A Python call returns, raises or (for a loop run with too little fuel)
      runs out of fuel: type [Outcome].  A call that raises leaves the
      evaluator in the state it had reached. *)

From Stdlib Require Import ZArith List String Ascii Bool Lia Arith.
From Stdlib Require Import PrimFloat Uint63 Decimal DecimalString.
From Stdlib Require Import Sorted DecimalZ Permutation.
From Stdlib Require Import SpecFloat FloatOps.
Import ListNotations.

Set Warnings "-inexact-float".

Local Open Scope string_scope.
Local Open Scope list_scope.
Local Open Scope Z_scope.

(** ** Enumerations *)

Inductive FailureType : Type :=
| AUTHENTICATION_FAILED
| NETWORK_TIMEOUT
| PAYMENT_DECLINED
| PROGRAM_FULL
| SITE_MAINTENANCE
| CAPTCHA_CHALLENGE
| RATE_LIMITED
| FORM_VALIDATION_ERROR.

Inductive InterventionType : Type :=
| MANUAL_LOGIN
| CREDENTIAL_UPDATE
| PAYMENT_METHOD_UPDATE
| CUSTOMER_SUPPORT
| SYSTEM_RESTART.

(** [FailureType.X.value] *)
Definition FailureType_value (ft : FailureType) : string :=
  match ft with
  | AUTHENTICATION_FAILED => "authentication_failed"
  | NETWORK_TIMEOUT => "network_timeout"
  | PAYMENT_DECLINED => "payment_declined"
  | PROGRAM_FULL => "program_full"
  | SITE_MAINTENANCE => "site_maintenance"
  | CAPTCHA_CHALLENGE => "captcha_challenge"
  | RATE_LIMITED => "rate_limited"
  | FORM_VALIDATION_ERROR => "form_validation_error"
  end.

(** [InterventionType.X.value] *)
Definition InterventionType_value (it : InterventionType) : string :=
  match it with
  | MANUAL_LOGIN => "manual_login"
  | CREDENTIAL_UPDATE => "credential_update"
  | PAYMENT_METHOD_UPDATE => "payment_method_update"
  | CUSTOMER_SUPPORT => "customer_support"
  | SYSTEM_RESTART => "system_restart"
  end.

(** The members of [FailureType] in the order the class body declares them
    (the order [list(FailureType)] iterates in). *)
Definition FailureType_members : list FailureType :=
  [AUTHENTICATION_FAILED; NETWORK_TIMEOUT; PAYMENT_DECLINED; PROGRAM_FULL;
   SITE_MAINTENANCE; CAPTCHA_CHALLENGE; RATE_LIMITED; FORM_VALIDATION_ERROR].

(** Enum members compare by identity. *)
Definition FailureType_eqb (a b : FailureType) : bool :=
  match a, b with
  | AUTHENTICATION_FAILED, AUTHENTICATION_FAILED
  | NETWORK_TIMEOUT, NETWORK_TIMEOUT
  | PAYMENT_DECLINED, PAYMENT_DECLINED
  | PROGRAM_FULL, PROGRAM_FULL
  | SITE_MAINTENANCE, SITE_MAINTENANCE
  | CAPTCHA_CHALLENGE, CAPTCHA_CHALLENGE
  | RATE_LIMITED, RATE_LIMITED
  | FORM_VALIDATION_ERROR, FORM_VALIDATION_ERROR => true
  | _, _ => false
  end.

(** Position of a member in the declaration order. *)
Fixpoint index_of (ft : FailureType) (l : list FailureType) : nat :=
  match l with
  | [] => 0
  | x :: r => if FailureType_eqb x ft then 0 else S (index_of ft r)
  end.

Definition declaration_index (ft : FailureType) : nat :=
  index_of ft FailureType_members.

(** [x in [a, b, ...]] on enum members *)
Definition py_in (x : FailureType) (l : list FailureType) : bool :=
  existsb (FailureType_eqb x) l.

(** ** Time *)

Definition datetime : Type := Z.
Definition timedelta : Type := Z.

(** [datetime.min] and [datetime.max] (9999-12-31T23:59:59.999999) *)
Definition datetime_min : datetime := 0.
Definition datetime_max : datetime := 315537897599999999.

(** The instants that are [datetime] values. *)
Definition in_datetime_range (t : Z) : bool :=
  (datetime_min <=? t) && (t <=? datetime_max).

(** [timedelta(minutes=m)] *)
Definition timedelta_minutes (m : Z) : timedelta := m * 60000000.

(** ** Numbers of the metrics dictionary: an [int] or a [float] *)

Inductive pynum : Type :=
| PyInt (z : Z)
| PyFloat (f : float).

(** [float(z)]; exact for [|z| < 2^53], which covers every count. *)
Definition float_of_Z (z : Z) : float :=
  match z with
  | Z0 => PrimFloat.zero
  | Zpos _ => PrimFloat.of_uint63 (Uint63.of_Z z)
  | Zneg p => PrimFloat.opp (PrimFloat.of_uint63 (Uint63.of_Z (Zpos p)))
  end.

(** Python's [==] between numbers *)
Definition py_num_eq (a b : pynum) : bool :=
  match a, b with
  | PyInt x, PyInt y => Z.eqb x y
  | PyInt x, PyFloat g => PrimFloat.eqb (float_of_Z x) g
  | PyFloat f, PyInt y => PrimFloat.eqb f (float_of_Z y)
  | PyFloat f, PyFloat g => PrimFloat.eqb f g
  end.

(** [str(n)] for an [int] *)
Definition py_str (n : Z) : string := NilZero.string_of_int (Z.to_int n).

(** ** Data classes *)

Module FailureIncident.
Record t : Type := mk {
  incident_id : string;
  signup_id : string;
  provider : string;
  failure_type : FailureType;
  timestamp : datetime;
  resolved : bool;
  resolution_time : option datetime;
  retry_count : Z;
  manual_intervention : bool;
  intervention_type : option InterventionType;
  error_message : string
}.

(** Attribute assignments [incident.f = v] *)
Definition set_resolved (v : bool) (i : t) : t :=
  mk (incident_id i) (signup_id i) (provider i) (failure_type i)
     (timestamp i) v (resolution_time i) (retry_count i)
     (manual_intervention i) (intervention_type i) (error_message i).
Definition set_resolution_time (v : option datetime) (i : t) : t :=
  mk (incident_id i) (signup_id i) (provider i) (failure_type i)
     (timestamp i) (resolved i) v (retry_count i)
     (manual_intervention i) (intervention_type i) (error_message i).
Definition set_retry_count (v : Z) (i : t) : t :=
  mk (incident_id i) (signup_id i) (provider i) (failure_type i)
     (timestamp i) (resolved i) (resolution_time i) v
     (manual_intervention i) (intervention_type i) (error_message i).
Definition set_manual_intervention (v : bool) (i : t) : t :=
  mk (incident_id i) (signup_id i) (provider i) (failure_type i)
     (timestamp i) (resolved i) (resolution_time i) (retry_count i)
     v (intervention_type i) (error_message i).
Definition set_intervention_type (v : option InterventionType) (i : t) : t :=
  mk (incident_id i) (signup_id i) (provider i) (failure_type i)
     (timestamp i) (resolved i) (resolution_time i) (retry_count i)
     (manual_intervention i) v (error_message i).
End FailureIncident.

(** A reference to a [FailureIncident] object. *)
Definition loc : Type := nat.

Module SignupAttempt.
Record t : Type := mk {
  signup_id : string;
  user_id : string;
  provider : string;
  program_id : string;
  timestamp : datetime;
  success : bool;
  failure_incident : option loc;
  retry_of : option string
}.
End SignupAttempt.

(** ** State and the monad of Python calls *)

Record World : Type := mkWorld {
  signup_attempts : list SignupAttempt.t;     (* self.signup_attempts *)
  failure_incidents : list loc;               (* self.failure_incidents *)
  heap : loc -> FailureIncident.t;            (* the incident objects *)
  next_loc : loc;                             (* next fresh reference *)
  random_stream : nat -> float;               (* results of random.random() *)
  random_calls : nat;                         (* calls made so far *)
  incident_id_stream : nat -> string;         (* results of the id f-string *)
  incident_id_calls : nat
}.

(** How a call ends.  The evaluator has no [raise] statement; what it calls
    raises on these data in one place only, the arithmetic on [datetime]
    values ([datetime_add], [datetime_sub] below). *)
Inductive Outcome (A : Type) : Type :=
| Returned (a : A) (w : World)
| Raised (exc : string) (w : World)
| OutOfFuel.
Arguments Returned {A} a w.
Arguments Raised {A} exc w.
Arguments OutOfFuel {A}.

Definition M (A : Type) : Type := World -> Outcome A.

Definition ret {A} (a : A) : M A := fun w => Returned a w.

Definition bind {A B} (m : M A) (k : A -> M B) : M B :=
  fun w =>
    match m w with
    | Returned a w' => k a w'
    | Raised exc w' => Raised exc w'
    | OutOfFuel => OutOfFuel
    end.

Notation "x <- m ;; k" := (bind m (fun x => k))
  (at level 61, m at next level, right associativity).
Notation "m ;;; k" := (bind m (fun _ => k))
  (at level 61, right associativity).

Definition out_of_fuel {A} : M A := fun _ => OutOfFuel.

(** An exception leaves the state as it is. *)
Definition raise {A} (exc : string) : M A := fun w => Raised exc w.

(** [dt + td] and [dt - td] for a [datetime] and a [timedelta]:
    [OverflowError] ("date value out of range") when the result is not a
    [datetime].  (A [timedelta] too large to be constructed, which is an
    [OverflowError] as well, takes every [datetime] out of the range.) *)
Definition datetime_add (dt : datetime) (td : timedelta) : M datetime :=
  if in_datetime_range (dt + td) then ret (dt + td)
  else raise "OverflowError".

Definition datetime_sub (dt : datetime) (td : timedelta) : M datetime :=
  if in_datetime_range (dt - td) then ret (dt - td)
  else raise "OverflowError".

(** Store update at one location *)
Definition heap_set (h : loc -> FailureIncident.t) (l : loc)
    (v : FailureIncident.t) : loc -> FailureIncident.t :=
  fun l' => if Nat.eqb l' l then v else h l'.

(** Reading the object behind a reference *)
Definition deref (l : loc) : M FailureIncident.t :=
  fun w => Returned (heap w l) w.

(** [incident.f = v] through a reference *)
Definition assign (l : loc) (upd : FailureIncident.t -> FailureIncident.t)
    : M unit :=
  fun w =>
    Returned tt
      (mkWorld (signup_attempts w) (failure_incidents w)
         (heap_set (heap w) l (upd (heap w l))) (next_loc w)
         (random_stream w) (random_calls w)
         (incident_id_stream w) (incident_id_calls w)).

(** Constructing a [FailureIncident] allocates a fresh object. *)
Definition new_FailureIncident (v : FailureIncident.t) : M loc :=
  fun w =>
    Returned (next_loc w)
      (mkWorld (signup_attempts w) (failure_incidents w)
         (heap_set (heap w) (next_loc w) v) (S (next_loc w))
         (random_stream w) (random_calls w)
         (incident_id_stream w) (incident_id_calls w)).

(** [self.signup_attempts.append(a)] *)
Definition append_signup_attempt (a : SignupAttempt.t) : M unit :=
  fun w =>
    Returned tt
      (mkWorld (signup_attempts w ++ [a]) (failure_incidents w)
         (heap w) (next_loc w)
         (random_stream w) (random_calls w)
         (incident_id_stream w) (incident_id_calls w)).

(** [random.random()] *)
Definition random_random : M float :=
  fun w =>
    Returned (random_stream w (random_calls w))
      (mkWorld (signup_attempts w) (failure_incidents w)
         (heap w) (next_loc w)
         (random_stream w) (S (random_calls w))
         (incident_id_stream w) (incident_id_calls w)).

(** [f"incident_{datetime.now().strftime('%Y%m%d_%H%M%S')}_{random.randint(1000, 9999)}"] *)
Definition fresh_incident_id : M string :=
  fun w =>
    Returned (incident_id_stream w (incident_id_calls w))
      (mkWorld (signup_attempts w) (failure_incidents w)
         (heap w) (next_loc w)
         (random_stream w) (random_calls w)
         (incident_id_stream w) (S (incident_id_calls w))).

(** ** Incident classifier: [_generate_failure_incident] *)

(** The [if / elif / else] that picks the provider's weight table. *)
Definition failure_types_of (provider : string) : list (FailureType * float) :=
  if (provider =? "skiclubpro")%string then
    [ (AUTHENTICATION_FAILED, 0.3%float);
      (RATE_LIMITED, 0.2%float);
      (NETWORK_TIMEOUT, 0.2%float);
      (PAYMENT_DECLINED, 0.15%float);
      (SITE_MAINTENANCE, 0.1%float);
      (CAPTCHA_CHALLENGE, 0.05%float) ]
  else if (provider =? "daysmart")%string then
    [ (FORM_VALIDATION_ERROR, 0.25%float);
      (PROGRAM_FULL, 0.25%float);
      (NETWORK_TIMEOUT, 0.2%float);
      (AUTHENTICATION_FAILED, 0.15%float);
      (PAYMENT_DECLINED, 0.15%float) ]
  else (* campminder *)
    [ (PROGRAM_FULL, 0.4%float);
      (PAYMENT_DECLINED, 0.2%float);
      (NETWORK_TIMEOUT, 0.2%float);
      (AUTHENTICATION_FAILED, 0.2%float) ].

(** The [for ft, weight in failure_types] loop: [cumulative] and
    [failure_type] are the loop-carried variables; a hit assigns and breaks. *)
Fixpoint select_failure_type (failure_types : list (FailureType * float))
    (rand cumulative : float) (failure_type : FailureType) : FailureType :=
  match failure_types with
  | [] => failure_type
  | (ft, weight) :: rest =>
      let cumulative := PrimFloat.add cumulative weight in
      if PrimFloat.leb rand cumulative then ft
      else select_failure_type rest rand cumulative failure_type
  end.

(** A [dict] with enum keys, as the association list of its literal;
    [d.get(k, default)] *)
Fixpoint enum_dict_get {V} (d : list (FailureType * V)) (k : FailureType)
    (default : V) : V :=
  match d with
  | [] => default
  | (k', v) :: r => if FailureType_eqb k' k then v else enum_dict_get r k default
  end.

Definition _get_error_message (failure_type : FailureType) : string :=
  let messages :=
    [ (AUTHENTICATION_FAILED, "Invalid username or password");
      (NETWORK_TIMEOUT, "Request timed out after 30 seconds");
      (PAYMENT_DECLINED, "Payment was declined by your bank");
      (PROGRAM_FULL, "This program is currently full");
      (SITE_MAINTENANCE, "Site is under maintenance");
      (CAPTCHA_CHALLENGE, "CAPTCHA verification required");
      (RATE_LIMITED, "Too many requests, please try again later");
      (FORM_VALIDATION_ERROR, "Please check all required fields") ] in
  enum_dict_get messages failure_type "Unknown error occurred".

Definition _generate_failure_incident (signup_id provider : string)
    (timestamp : datetime) : M loc :=
  let failure_types := failure_types_of provider in
  rand <- random_random ;;
  let failure_type :=
    select_failure_type failure_types rand PrimFloat.zero NETWORK_TIMEOUT in
  incident_id <- fresh_incident_id ;;
  let manual_intervention_required :=
    py_in failure_type
      [CAPTCHA_CHALLENGE; SITE_MAINTENANCE; AUTHENTICATION_FAILED] in
  let intervention_type :=
    if manual_intervention_required then
      if FailureType_eqb failure_type CAPTCHA_CHALLENGE then
        Some MANUAL_LOGIN
      else if FailureType_eqb failure_type AUTHENTICATION_FAILED then
        Some CREDENTIAL_UPDATE
      else if FailureType_eqb failure_type SITE_MAINTENANCE then
        Some CUSTOMER_SUPPORT
      else None
    else None in
  new_FailureIncident
    (FailureIncident.mk incident_id signup_id provider failure_type timestamp
       false None 0 manual_intervention_required intervention_type
       (_get_error_message failure_type)).

(** ** Retry controller: [_simulate_retries] *)

(** An [Optional[InterventionType]] in a condition: [None] is falsy, an enum
    member is truthy. *)
Definition truthy (o : option InterventionType) : bool :=
  match o with Some _ => true | None => false end.

(** [x is not None] *)
Definition is_not_None {A} (o : option A) : bool :=
  match o with Some _ => true | None => false end.

(** The [while retry_count < max_retries and not incident.resolved] loop.
    [retry_count] is the local counter.  Every iteration increments it, so
    [max_retries - retry_count] iterations of fuel are enough
    (see [retry_loop_outcome]).  Scheduling a round past [datetime.max]
    raises, before the draw of that round. *)
Fixpoint retry_loop (fuel : nat) (max_retries : Z)
    (original_signup : SignupAttempt.t) (incident : loc) (retry_count : Z)
    : M unit :=
  i <- deref incident ;;
  if (retry_count <? max_retries) && negb (FailureIncident.resolved i) then
    match fuel with
    | O => out_of_fuel
    | S fuel' =>
        let retry_count := retry_count + 1 in
        let retry_id :=
          (SignupAttempt.signup_id original_signup ++ "_retry_"
             ++ py_str retry_count)%string in
        i <- deref incident ;;
        retry_timestamp <-
          datetime_add (FailureIncident.timestamp i)
            (timedelta_minutes (retry_count * 5)) ;;
        r <- random_random ;;
        let retry_success := PrimFloat.ltb r 0.8%float in
        if retry_success then
          assign incident (FailureIncident.set_resolved true) ;;;
          assign incident
            (FailureIncident.set_resolution_time (Some retry_timestamp)) ;;;
          assign incident (FailureIncident.set_retry_count retry_count) ;;;
          append_signup_attempt
            (SignupAttempt.mk retry_id
               (SignupAttempt.user_id original_signup)
               (SignupAttempt.provider original_signup)
               (SignupAttempt.program_id original_signup)
               retry_timestamp true None
               (Some (SignupAttempt.signup_id original_signup)))
          (* break *)
        else
          append_signup_attempt
            (SignupAttempt.mk retry_id
               (SignupAttempt.user_id original_signup)
               (SignupAttempt.provider original_signup)
               (SignupAttempt.program_id original_signup)
               retry_timestamp false None
               (Some (SignupAttempt.signup_id original_signup))) ;;;
          retry_loop fuel' max_retries original_signup incident retry_count
    end
  else ret tt.

Definition _simulate_retries (original_signup : SignupAttempt.t)
    (incident : loc) : M unit :=
  let retry_count := 0 in
  let max_retries := 3 in
  i <- deref incident ;;
  if py_in (FailureIncident.failure_type i) [PROGRAM_FULL; PAYMENT_DECLINED]
  then ret tt
  else
    retry_loop (Z.to_nat (max_retries - retry_count)) max_retries
      original_signup incident retry_count ;;;
    i <- deref incident ;;
    if negb (FailureIncident.resolved i) then
      assign incident (FailureIncident.set_manual_intervention true) ;;;
      i <- deref incident ;;
      if negb (truthy (FailureIncident.intervention_type i)) then
        assign incident
          (FailureIncident.set_intervention_type (Some CUSTOMER_SUPPORT))
      else ret tt
    else ret tt.

(** ** Metrics engine: [calculate_reliability_metrics] *)

(** [len(l)] *)
Definition len {A} (l : list A) : Z := Z.of_nat (List.length l).

(** [list.sort()] on timestamps *)
Fixpoint insert_sorted (x : Z) (l : list Z) : list Z :=
  match l with
  | [] => [x]
  | y :: r => if x <=? y then x :: l else y :: insert_sorted x r
  end.

Fixpoint list_sort (l : list Z) : list Z :=
  match l with
  | [] => []
  | x :: r => insert_sorted x (list_sort r)
  end.

(** [sum(deltas, timedelta())] *)
Definition sum_timedeltas (deltas : list timedelta) : timedelta :=
  fold_left Z.add deltas 0.

(** [timedelta / int]: the quotient rounded to the nearest microsecond, ties
    to even (only used with a positive divisor). *)
Definition timedelta_div (a : timedelta) (n : Z) : timedelta :=
  let q := a / n in
  let r := a mod n in
  match Z.compare (2 * r) n with
  | Lt => q
  | Gt => q + 1
  | Eq => if Z.even q then q else q + 1
  end.

(** An [int] as an unrounded binary number *)
Definition int_as_spec_float (z : Z) : spec_float :=
  match z with
  | Z0 => S754_zero false
  | Zpos p => S754_finite false p 0
  | Zneg p => S754_finite true p 0
  end.

(** [a / b] on two [int]s of any size: the quotient of the integers, rounded
    once to the nearest [float] (ties to even). *)
Definition int_truediv (a b : Z) : float :=
  SF2Prim (SFdiv prec emax (int_as_spec_float a) (int_as_spec_float b)).

(** [timedelta.total_seconds()]: the microseconds divided by [10**6] as
    integers.  Above [2^53] microseconds (285 years) the result differs from
    that of converting first and dividing then. *)
Definition total_seconds (d : timedelta) : float :=
  int_truediv d (10 ^ 6).

(** An insertion-ordered [dict] with [str] keys *)
Definition str_dict (V : Type) : Type := list (string * V).

(** [d.get(k, default)] *)
Fixpoint dict_get {V} (d : str_dict V) (k : string) (default : V) : V :=
  match d with
  | [] => default
  | (k', v) :: r => if (k' =? k)%string then v else dict_get r k default
  end.

(** [d[k] = v]: an existing key keeps its position, a new key goes last. *)
Fixpoint dict_set {V} (d : str_dict V) (k : string) (v : V) : str_dict V :=
  match d with
  | [] => [(k, v)]
  | (k', v') :: r =>
      if (k' =? k)%string then (k', v) :: r else (k', v') :: dict_set r k v
  end.

(** [max(iterable, key=...)] on a non-empty iterable: the first item whose
    key is maximal (a later item replaces the best only when strictly
    greater). *)
Fixpoint py_max_from {A} (key : A -> Z) (best : A) (l : list A) : A :=
  match l with
  | [] => best
  | x :: r =>
      if key best <? key x then py_max_from key x r
      else py_max_from key best r
  end.

(** The counting loop
    [for incident in ...: counts[k] = counts.get(k, 0) + 1],
    over the keys in iteration order. *)
Definition count_keys (keys : list string) : str_dict Z :=
  fold_left (fun counts k => dict_set counts k (dict_get counts k 0 + 1))
    keys [].

(** [max(counts.items(), key=lambda x: x[1])[0] if counts else None] *)
Definition most_common (counts : str_dict Z) : option string :=
  match counts with
  | [] => None
  | item :: items => Some (fst (py_max_from snd item items))
  end.

(** The MTBF block, before the result dictionary is built. *)
Definition compute_mtbf_hours (failed_attempts : list SignupAttempt.t)
    : float :=
  if len failed_attempts >? 1 then
    let failure_times :=
      list_sort (map SignupAttempt.timestamp failed_attempts) in
    let time_deltas :=
      map (fun i => nth (S i) failure_times 0 - nth i failure_times 0)
        (seq 0 (List.length failure_times - 1)) in
    let avg_time_between_failures :=
      timedelta_div (sum_timedeltas time_deltas) (len time_deltas) in
    PrimFloat.div (total_seconds avg_time_between_failures)
      (float_of_Z 3600)
  else PrimFloat.infinity.

(** The returned dictionary.  The entries that are modelled are the counts,
    the MTBF and the breakdowns by failure and intervention type; the ratio
    entries, the recovery times, the per-provider entry and the report
    timestamp are left out. *)
Module Snapshot.
Record overall : Type := mk_overall {
  total_attempts : Z;
  successful_attempts : Z;
  failed_attempts : Z;
  mtbf_hours : pynum
}.
Record retry : Type := mk_retry {
  total_retries : Z;
  successful_retries : Z
}.
Record recovery : Type := mk_recovery {
  resolved_incidents : Z;
  total_incidents : Z
}.
Record intervention : Type := mk_intervention {
  manual_interventions : Z;
  intervention_types : str_dict Z
}.
Record analysis : Type := mk_analysis {
  failure_types : str_dict Z;
  most_common_failure : option string
}.
Record t : Type := mk {
  overall_metrics : overall;
  retry_metrics : retry;
  recovery_metrics : recovery;
  intervention_metrics : intervention;
  failure_analysis : analysis
}.
End Snapshot.

Definition calculate_reliability_metrics : M Snapshot.t :=
  fun w =>
    let incidents := map (heap w) (failure_incidents w) in
    let total_attempts := len (signup_attempts w) in
    let failed_attempts :=
      filter (fun a => negb (SignupAttempt.success a)) (signup_attempts w) in
    let successful_attempts :=
      filter (fun a => SignupAttempt.success a) (signup_attempts w) in
    let retry_attempts :=
      filter (fun a => is_not_None (SignupAttempt.retry_of a))
        (signup_attempts w) in
    let successful_retries :=
      filter (fun a => SignupAttempt.success a) retry_attempts in
    let mtbf_hours := compute_mtbf_hours failed_attempts in
    let resolved_incidents :=
      filter (fun i => FailureIncident.resolved i) incidents in
    let failure_type_counts :=
      count_keys
        (map (fun incident =>
                FailureType_value (FailureIncident.failure_type incident))
           incidents) in
    let manual_interventions :=
      filter (fun i => FailureIncident.manual_intervention i) incidents in
    let intervention_type_counts :=
      count_keys
        (flat_map (fun incident =>
                     match FailureIncident.intervention_type incident with
                     | Some it => [InterventionType_value it]
                     | None => []
                     end)
           manual_interventions) in
    Returned
      (Snapshot.mk
         (Snapshot.mk_overall total_attempts (len successful_attempts)
            (len failed_attempts)
            (if negb (PrimFloat.eqb mtbf_hours PrimFloat.infinity)
             then PyFloat mtbf_hours else PyInt 0))
         (Snapshot.mk_retry (len retry_attempts) (len successful_retries))
         (Snapshot.mk_recovery (len resolved_incidents) (len incidents))
         (Snapshot.mk_intervention (len manual_interventions)
            intervention_type_counts)
         (Snapshot.mk_analysis failure_type_counts
            (most_common failure_type_counts)))
      w.

(** ** Small worlds used in the examples *)

Definition blank_incident : FailureIncident.t :=
  FailureIncident.mk "" "" "" NETWORK_TIMEOUT 0 false None 0 false None "".

(** An evaluator just constructed; every [random.random()] returns [r]. *)
Definition fresh_world (r : float) : World :=
  mkWorld [] [] (fun _ => blank_incident) 0%nat
    (fun _ => r) 0%nat (fun _ => "incident_20240101_000000_1000") 0%nat.

Definition original_attempt : SignupAttempt.t :=
  SignupAttempt.mk "signup_0001" "user_2" "acme" "program_2" 1000 false
    (Some 0%nat) None.

(** ** Vocabulary of the statements *)

(** The providers the evaluator is configured with
    ([providers] in [simulate_signup_attempts]). *)
Definition providers : list string := ["skiclubpro"; "daysmart"; "campminder"].

Definition is_configured (provider : string) : bool :=
  existsb (String.eqb provider) providers.

(** A call fails fast when it raises. *)
Definition fails_fast {A} (o : Outcome A) : Prop :=
  exists exc w', o = Raised exc w'.

(** The draw the next [random.random()] returns. *)
Definition next_draw (w : World) : float := random_stream w (random_calls w).

(** The value of [cumulative] once the walk has added the weights of the
    entries [0 .. i] of the table. *)
Definition cumulative_weight (table : list (FailureType * float)) (i : nat)
    : float :=
  fold_left PrimFloat.add (map snd (firstn (S i) table)) PrimFloat.zero.

(** The cumulative weight at entry [i] meets or exceeds the draw. *)
Definition meets (table : list (FailureType * float)) (rand : float)
    (i : nat) : bool :=
  PrimFloat.leb rand (cumulative_weight table i).

(** Categories the cascade retries (the negation of the early-return test). *)
Definition eligible (ft : FailureType) : bool :=
  negb (py_in ft [PROGRAM_FULL; PAYMENT_DECLINED]).

(** The success draw of the [j]-th next round ([j] counted from 0) of a
    cascade started in [w]. *)
Definition retry_succeeds (w : World) (j : nat) : bool :=
  PrimFloat.ltb (random_stream w (j + random_calls w)%nat) 0.8%float.

(** The time round [k] is scheduled at. *)
Definition scheduled (ts : datetime) (k : Z) : datetime :=
  ts + timedelta_minutes (k * 5).

(** An incident dated [ts] leaves room for [k] rounds: [ts] is a
    [datetime] and so is the time round [k] is scheduled at. *)
Definition schedulable (ts : datetime) (k : Z) : Prop :=
  datetime_min <= ts /\ scheduled ts k <= datetime_max.

(** The rounds [rc + 1 .. rc + n] are scheduled at [datetime] values. *)
Definition rounds_fit (ts : datetime) (rc : Z) (n : nat) : Prop :=
  forall j, (j < n)%nat ->
    in_datetime_range (scheduled ts (rc + 1 + Z.of_nat j)) = true.

(** The attempt round [k] appends. *)
Definition retry_attempt (o : SignupAttempt.t) (ts : datetime) (k : Z)
    (success : bool) : SignupAttempt.t :=
  SignupAttempt.mk
    (SignupAttempt.signup_id o ++ "_retry_" ++ py_str k)%string
    (SignupAttempt.user_id o) (SignupAttempt.provider o)
    (SignupAttempt.program_id o) (scheduled ts k) success None
    (Some (SignupAttempt.signup_id o)).

(** The three assignments of a successful round [k]. *)
Definition resolved_in_round (i : FailureIncident.t) (k : Z)
    : FailureIncident.t :=
  FailureIncident.set_retry_count k
    (FailureIncident.set_resolution_time
       (Some (scheduled (FailureIncident.timestamp i) k))
       (FailureIncident.set_resolved true i)).

(** The state after one [random.random()] and one appended attempt. *)
Definition after_failed_round (w : World) (a : SignupAttempt.t) : World :=
  mkWorld (signup_attempts w ++ [a]) (failure_incidents w) (heap w)
    (next_loc w) (random_stream w) (S (random_calls w))
    (incident_id_stream w) (incident_id_calls w).

(** What a cascade may change in the state besides the incident [l] and the
    attempts: the number of draws consumed. *)
Definition same_outside (l : loc) (draws : nat) (w w' : World) : Prop :=
  failure_incidents w' = failure_incidents w /\
  next_loc w' = next_loc w /\
  random_stream w' = random_stream w /\
  random_calls w' = (draws + random_calls w)%nat /\
  incident_id_stream w' = incident_id_stream w /\
  incident_id_calls w' = incident_id_calls w /\
  (forall l', l' <> l -> heap w' l' = heap w l').

(** The fields of an incident that no assignment of the cascade names. *)
Definition same_identity (i i' : FailureIncident.t) : Prop :=
  FailureIncident.incident_id i' = FailureIncident.incident_id i /\
  FailureIncident.signup_id i' = FailureIncident.signup_id i /\
  FailureIncident.provider i' = FailureIncident.provider i /\
  FailureIncident.failure_type i' = FailureIncident.failure_type i /\
  FailureIncident.timestamp i' = FailureIncident.timestamp i /\
  FailureIncident.error_message i' = FailureIncident.error_message i.

(** The postcondition of the retry loop started with counter [rc] in [w]
    and ended in [w'] after appending [created]. *)
Definition loop_post (mr : Z) (o : SignupAttempt.t) (l : loc) (rc : Z)
    (w w' : World) (created : list SignupAttempt.t) : Prop :=
  let i0 := heap w l in
  let n := List.length created in
  signup_attempts w' = signup_attempts w ++ created /\
  (forall j a, nth_error created j = Some a ->
     a = retry_attempt o (FailureIncident.timestamp i0)
           (rc + 1 + Z.of_nat j) (retry_succeeds w j)) /\
  same_outside l n w w' /\
  (n <= Z.to_nat (mr - rc))%nat /\
  (forall j, (S j < n)%nat -> retry_succeeds w j = false) /\
  (((1 <= n)%nat /\ retry_succeeds w (n - 1) = true /\
    FailureIncident.resolved i0 = false /\
    heap w' l = resolved_in_round i0 (rc + Z.of_nat n))
   \/
   (heap w' l = i0 /\
    (forall j, (j < n)%nat -> retry_succeeds w j = false) /\
    (FailureIncident.resolved i0 = true -> n = 0%nat) /\
    (FailureIncident.resolved i0 = false -> n = Z.to_nat (mr - rc)))).

(** The state in which the loop, started with counter [rc] in [w], raises
    after appending [created]: the rounds so far have failed, the next one
    cannot be scheduled, and the incident is as it was. *)
Definition loop_raised (mr : Z) (o : SignupAttempt.t) (l : loc) (rc : Z)
    (w w' : World) (created : list SignupAttempt.t) : Prop :=
  let i0 := heap w l in
  let n := List.length created in
  signup_attempts w' = signup_attempts w ++ created /\
  (forall j a, nth_error created j = Some a ->
     a = retry_attempt o (FailureIncident.timestamp i0)
           (rc + 1 + Z.of_nat j) false) /\
  same_outside l n w w' /\
  (n < Z.to_nat (mr - rc))%nat /\
  (forall j, (j < n)%nat -> retry_succeeds w j = false) /\
  heap w' l = i0 /\
  FailureIncident.resolved i0 = false /\
  rounds_fit (FailureIncident.timestamp i0) rc n /\
  in_datetime_range
    (scheduled (FailureIncident.timestamp i0) (rc + 1 + Z.of_nat n)) = false.

(** The block after the loop, on an incident that is still unresolved. *)
Definition escalated (i : FailureIncident.t) : FailureIncident.t :=
  let i1 := FailureIncident.set_manual_intervention true i in
  if negb (truthy (FailureIncident.intervention_type i1))
  then FailureIncident.set_intervention_type (Some CUSTOMER_SUPPORT) i1
  else i1.

(** The postcondition of a cascade on a retry-eligible incident: it ends by
    a successful round, or it found the incident already resolved, or it
    used up the three rounds. *)
Definition cascade_post (o : SignupAttempt.t) (l : loc) (w w' : World)
    (created : list SignupAttempt.t) : Prop :=
  let i0 := heap w l in
  let n := List.length created in
  signup_attempts w' = signup_attempts w ++ created /\
  (forall j a, nth_error created j = Some a ->
     a = retry_attempt o (FailureIncident.timestamp i0)
           (Z.of_nat (S j)) (retry_succeeds w j)) /\
  same_outside l n w w' /\
  (n <= 3)%nat /\
  (forall j, (S j < n)%nat -> retry_succeeds w j = false) /\
  (((1 <= n)%nat /\ retry_succeeds w (n - 1) = true /\
    FailureIncident.resolved i0 = false /\
    heap w' l = resolved_in_round i0 (Z.of_nat n))
   \/
   (FailureIncident.resolved i0 = true /\ n = 0%nat /\ heap w' l = i0)
   \/
   (FailureIncident.resolved i0 = false /\ n = 3%nat /\
    (forall j, (j < 3)%nat -> retry_succeeds w j = false) /\
    heap w' l = escalated i0)).

(** The state in which a cascade on a retry-eligible incident raises: the
    exception leaves the loop and the function, so the block after the loop
    is not run. *)
Definition cascade_raised (o : SignupAttempt.t) (l : loc) (w w' : World)
    (created : list SignupAttempt.t) : Prop :=
  let i0 := heap w l in
  let n := List.length created in
  signup_attempts w' = signup_attempts w ++ created /\
  (forall j a, nth_error created j = Some a ->
     a = retry_attempt o (FailureIncident.timestamp i0)
           (Z.of_nat (S j)) false) /\
  same_outside l n w w' /\
  (n < 3)%nat /\
  (forall j, (j < n)%nat -> retry_succeeds w j = false) /\
  heap w' l = i0 /\
  FailureIncident.resolved i0 = false /\
  rounds_fit (FailureIncident.timestamp i0) 0 n /\
  in_datetime_range
    (scheduled (FailureIncident.timestamp i0) (Z.of_nat (S n))) = false.

(** The states the examples run the cascade in: the classifier has just
    produced incident [0] for provider ["skiclubpro"] with the draw [0.35]
    (category [RATE_LIMITED]), respectively for the unconfigured provider
    ["acme"] with the draw [0.1] (category [PROGRAM_FULL]). *)
Definition after_classification (provider : string) (w : World) : World :=
  match _generate_failure_incident "signup_0001" provider 1000 w with
  | Returned _ w1 => w1
  | _ => w
  end.

Definition rate_limited_world (r1 r2 r3 : float) : World :=
  after_classification "skiclubpro" (mkWorld [] [] (fun _ => blank_incident) 0%nat
       (fun n => match n with
                 | 0%nat => 0.35%float
                 | 1%nat => r1
                 | 2%nat => r2
                 | _ => r3
                 end)
       0%nat (fun _ => "incident_20240101_000000_1000") 0%nat).

Definition program_full_world : World :=
  after_classification "acme" (fresh_world 0.1%float).

(** Occurrences of a key among the keys the counting loop iterates over. *)
Definition count_string (k : string) (ks : list string) : Z :=
  Z.of_nat (count_occ string_dec ks k).

(** The categories of the incidents in [self.failure_incidents], in list
    order. *)
Definition incident_categories (w : World) : list FailureType :=
  map (fun l => FailureIncident.failure_type (heap w l)) (failure_incidents w).

(** Number of incidents of category [c]. *)
Definition count_category (c : FailureType) (cats : list FailureType) : Z :=
  len (filter (FailureType_eqb c) cats).

(** [failed_attempts] of the metrics reduction. *)
Definition failed_attempts_of (w : World) : list SignupAttempt.t :=
  filter (fun a => negb (SignupAttempt.success a)) (signup_attempts w).

(** A ledger with four incidents: two [NETWORK_TIMEOUT] first, then two
    [AUTHENTICATION_FAILED]. *)
Definition tie_world : World :=
  mkWorld [] [0%nat; 1%nat; 2%nat; 3%nat]
    (fun l =>
       if (l <? 2)%nat then
         FailureIncident.mk "i" "s" "daysmart" NETWORK_TIMEOUT 0 false None 0
           false None "Request timed out after 30 seconds"
       else
         FailureIncident.mk "i" "s" "daysmart" AUTHENTICATION_FAILED 0 false
           None 0 true (Some CREDENTIAL_UPDATE) "Invalid username or password")
    4%nat (fun _ => 0.5%float) 0%nat (fun _ => "") 0%nat.

(** A ledger with the given attempts and no incident. *)
Definition world_of_attempts (attempts : list SignupAttempt.t) : World :=
  mkWorld attempts [] (fun _ => blank_incident) 0%nat
    (fun _ => 0.5%float) 0%nat (fun _ => "") 0%nat.

Definition failed_at (ts : datetime) : SignupAttempt.t :=
  SignupAttempt.mk "signup_0001" "user_2" "daysmart" "program_2" ts false
    None None.

Definition succeeded_at (ts : datetime) : SignupAttempt.t :=
  SignupAttempt.mk "signup_0002" "user_3" "daysmart" "program_3" ts true
    None None.

(** The same incident dated 9999-12-31T23:50:00, ten minutes before
    [datetime.max] ends. *)
Definition last_evening : datetime := datetime_max - 599999999.

Definition late_incident_world (r1 r2 r3 : float) : World :=
  match
    _generate_failure_incident "signup_0001" "skiclubpro" last_evening
      (mkWorld [] [] (fun _ => blank_incident) 0%nat
         (fun n => match n with
                   | 0%nat => 0.35%float
                   | 1%nat => r1
                   | 2%nat => r2
                   | _ => r3
                   end)
         0%nat (fun _ => "incident_20240101_000000_1000") 0%nat)
  with
  | Returned _ w1 => w1
  | _ => fresh_world r1
  end.

(** The state after the cascade has run on the [RATE_LIMITED] incident of
    [rate_limited_world] with the given draws. *)
Definition after_cascade (r1 r2 r3 : float) : World :=
  match _simulate_retries original_attempt 0%nat (rate_limited_world r1 r2 r3)
  with
  | Returned _ w' => w'
  | _ => rate_limited_world r1 r2 r3
  end.

(** [sum(d.values())] *)
Definition dict_total (d : str_dict Z) : Z :=
  fold_right (fun item acc => snd item + acc) 0 d.

(** The value the reduction stores under ['mtbf_hours'] when the MTBF block
    yields [x]. *)
Definition reported_mtbf (x : float) : pynum :=
  if negb (PrimFloat.eqb x PrimFloat.infinity) then PyFloat x else PyInt 0.

(** ** The metrics reduction: the ratio, recovery and provider entries *)

(** [x is None] *)
Definition is_None {A} (o : option A) : bool :=
  match o with Some _ => false | None => true end.

(** [a / b] on two [int]s (true division).  Python raises
    [ZeroDivisionError] for [b = 0]: every use below is guarded by a test on
    the divisor. *)
Definition py_truediv (a b : Z) : float := int_truediv a b.

(** [a - b] on numbers *)
Definition py_sub (a b : pynum) : pynum :=
  match a, b with
  | PyInt x, PyInt y => PyInt (x - y)
  | PyInt x, PyFloat g => PyFloat (PrimFloat.sub (float_of_Z x) g)
  | PyFloat f, PyInt y => PyFloat (PrimFloat.sub f (float_of_Z y))
  | PyFloat f, PyFloat g => PyFloat (PrimFloat.sub f g)
  end.

(** [original_failures] *)
Definition original_failures_of (w : World) : list SignupAttempt.t :=
  filter (fun a => negb (SignupAttempt.success a)
                   && is_None (SignupAttempt.retry_of a))
    (signup_attempts w).

(** [retry_attempts] *)
Definition retry_attempts_of (w : World) : list SignupAttempt.t :=
  filter (fun a => is_not_None (SignupAttempt.retry_of a)) (signup_attempts w).

(** [failure_rate] *)
Definition failure_rate (w : World) : pynum :=
  let total_attempts := len (signup_attempts w) in
  if total_attempts >? 0
  then PyFloat (py_truediv (len (failed_attempts_of w)) total_attempts)
  else PyInt 0.

(** The entry ['success_rate': 1 - failure_rate] *)
Definition success_rate (w : World) : pynum :=
  py_sub (PyInt 1) (failure_rate w).

(** [retry_success_rate] *)
Definition retry_success_rate (w : World) : pynum :=
  let successful_retries :=
    filter (fun a => SignupAttempt.success a) (retry_attempts_of w) in
  match original_failures_of w with
  | [] => PyInt 0
  | _ :: _ =>
      PyFloat (py_truediv (len successful_retries)
                 (len (original_failures_of w)))
  end.

(** The entry ['avg_retries_per_failure'] *)
Definition avg_retries_per_failure (w : World) : pynum :=
  match original_failures_of w with
  | [] => PyInt 0
  | _ :: _ =>
      PyFloat (py_truediv (len (retry_attempts_of w))
                 (len (original_failures_of w)))
  end.

(** [intervention_rate] *)
Definition intervention_rate (w : World) : pynum :=
  let total_attempts := len (signup_attempts w) in
  let manual_interventions :=
    filter (fun i => FailureIncident.manual_intervention i)
      (map (heap w) (failure_incidents w)) in
  if total_attempts >? 0
  then PyFloat (py_truediv (len manual_interventions) total_attempts)
  else PyInt 0.

(** [recovery_times]: minutes from creation to resolution, for the resolved
    incidents that carry a resolution time (a [datetime] is always truthy). *)
Definition recovery_times (w : World) : list float :=
  flat_map
    (fun incident =>
       match FailureIncident.resolution_time incident with
       | Some resolution_time =>
           [PrimFloat.div
              (total_seconds
                 (resolution_time - FailureIncident.timestamp incident))
              (float_of_Z 60)]
       | None => []
       end)
    (filter (fun i => FailureIncident.resolved i)
       (map (heap w) (failure_incidents w))).

(** [max(l)] on a non-empty list of floats: the first maximal item. *)
Fixpoint float_max_from (best : float) (l : list float) : float :=
  match l with
  | [] => best
  | x :: r =>
      if PrimFloat.ltb best x then float_max_from x r
      else float_max_from best r
  end.

(** [max_recovery_time].  (The average is left out: [sum] on floats is
    compensated summation in recent versions of Python and plain
    left-to-right addition in older ones.) *)
Definition max_recovery_time (w : World) : pynum :=
  match filter (fun i => FailureIncident.resolved i)
          (map (heap w) (failure_incidents w)) with
  | [] => PyInt 0
  | _ :: _ =>
      match recovery_times w with
      | [] => PyInt 0
      | x :: r => PyFloat (float_max_from x r)
      end
  end.

Module ProviderMetrics.
Record t : Type := mk {
  total_attempts : Z;
  failures : Z;
  failure_rate : pynum;
  success_rate : pynum
}.
End ProviderMetrics.




(** ** Synthetic ledger: [simulate_signup_attempts] *)

(** The wall clock and [random.randint] as the loop sees them:
    [now i] is what [datetime.now()] returns in iteration [i] and
    [randint_0_30 i] what [random.randint(0, 30)] returns there. *)
Record Oracle : Type := mkOracle {
  now : Z -> datetime;
  randint_0_30 : Z -> Z
}.

(** [timedelta(days=d)] *)
Definition timedelta_days (d : Z) : timedelta := d * 86400000000.

(** A run of [num_attempts] iterations on a clock inside the [datetime]
    range: [random.randint(0, 30)] is between 0 and 30, and every reading of
    the clock leaves room for the 30 days below it and for the 15 minutes of
    a cascade above it. *)
Definition clock_in_range (env : Oracle) (num_attempts : Z) : Prop :=
  forall i, 0 <= i < num_attempts ->
    0 <= randint_0_30 env i <= 30 /\
    datetime_min + timedelta_days 30 <= now env i /\
    now env i + timedelta_minutes 15 <= datetime_max.

(** [n] characters ['0'] *)
Fixpoint zeros (n : nat) : string :=
  match n with
  | O => ""
  | S n' => String "0" (zeros n')
  end.

(** [f"{i:04d}"]: the decimal digits, zero-padded to width 4, the sign
    first and counted in the width. *)
Definition py_format_04d (i : Z) : string :=
  let sign := if i <? 0 then "-" else "" in
  let digits := py_str (Z.abs i) in
  (sign ++ zeros (4 - String.length sign - String.length digits)
     ++ digits)%string.

(** [self.failure_incidents.append(l)] *)
Definition append_failure_incident (l : loc) : M unit :=
  fun w =>
    Returned tt
      (mkWorld (signup_attempts w) (failure_incidents w ++ [l])
         (heap w) (next_loc w)
         (random_stream w) (random_calls w)
         (incident_id_stream w) (incident_id_calls w)).

(** The body of the [for i in range(num_attempts)] loop. *)
Definition simulate_iteration (env : Oracle) (i : Z) : M unit :=
  let signup_id := ("signup_" ++ py_format_04d i)%string in
  let user_id := ("user_" ++ py_str (i mod 20 + 1))%string in
  let provider := nth (Z.to_nat (i mod len providers)) providers "" in
  let program_id := ("program_" ++ py_str (i mod 10 + 1))%string in
  timestamp <-
    datetime_sub (now env i) (timedelta_days (randint_0_30 env i)) ;;
  r <- random_random ;;
  let will_fail := PrimFloat.ltb r 0.15%float in
  if will_fail then
    failure_incident <-
      _generate_failure_incident signup_id provider timestamp ;;
    append_failure_incident failure_incident ;;;
    let signup :=
      SignupAttempt.mk signup_id user_id provider program_id timestamp
        false (Some failure_incident) None in
    _simulate_retries signup failure_incident ;;;
    append_signup_attempt signup
  else
    let signup :=
      SignupAttempt.mk signup_id user_id provider program_id timestamp
        true None None in
    append_signup_attempt signup.

(** A [for] loop over a list of indices. *)
Fixpoint for_each (indices : list Z) (body : Z -> M unit) : M unit :=
  match indices with
  | [] => ret tt
  | i :: rest => body i ;;; for_each rest body
  end.

(** [range(n)] *)
Definition py_range (n : Z) : list Z := map Z.of_nat (seq 0 (Z.to_nat n)).

Definition simulate_signup_attempts (env : Oracle) (num_attempts : Z)
    : M unit :=
  for_each (py_range num_attempts) (simulate_iteration env).

(** [run_reliability_evaluation] (the log line is not modelled). *)
Definition run_reliability_evaluation (env : Oracle) : M Snapshot.t :=
  simulate_signup_attempts env 100 ;;;
  calculate_reliability_metrics.

(** [ReliabilityEvaluator.__init__] leaves both lists empty. *)
Definition freshly_constructed (w : World) : Prop :=
  signup_attempts w = [] /\ failure_incidents w = [].


(** ** Vocabulary of the statements about the simulation *)

(** The attempt an iteration appends for the signup itself. *)
Definition planned_signup (env : Oracle) (i : Z) (success : bool)
    (failure_incident : option loc) : SignupAttempt.t :=
  SignupAttempt.mk
    ("signup_" ++ py_format_04d i)%string
    ("user_" ++ py_str (i mod 20 + 1))%string
    (nth (Z.to_nat (i mod len providers)) providers "")
    ("program_" ++ py_str (i mod 10 + 1))%string
    (now env i - timedelta_days (randint_0_30 env i))
    success failure_incident None.

(** What one iteration adds to the ledger: the retries, then the signup,
    and for a failed signup its incident with the state it ends in. *)
Record Block : Type := mkBlock {
  block_retries : list SignupAttempt.t;
  block_signup : SignupAttempt.t;
  block_incident : option (loc * FailureIncident.t)
}.

Definition block_attempts (b : Block) : list SignupAttempt.t :=
  block_retries b ++ [block_signup b].

Definition block_locs (b : Block) : list loc :=
  match block_incident b with
  | Some (l, _) => [l]
  | None => []
  end.

(** The categories for which the classifier requires manual intervention. *)
Definition requires_intervention (ft : FailureType) : bool :=
  py_in ft [CAPTCHA_CHALLENGE; SITE_MAINTENANCE; AUTHENTICATION_FAILED].

(** The three ways an incident of the simulation ends, with [n] the number
    of retries: not retried, resolved by retry [n], or escalated after three
    failed retries. *)
Definition lifecycle (v : FailureIncident.t) (n : nat) : Prop :=
  let ft := FailureIncident.failure_type v in
  (eligible ft = false /\ n = 0%nat /\
   FailureIncident.resolved v = false /\
   FailureIncident.retry_count v = 0 /\
   FailureIncident.resolution_time v = None /\
   FailureIncident.manual_intervention v = false /\
   FailureIncident.intervention_type v = None)
  \/
  (eligible ft = true /\ (1 <= n <= 3)%nat /\
   FailureIncident.resolved v = true /\
   FailureIncident.retry_count v = Z.of_nat n /\
   FailureIncident.resolution_time v
     = Some (scheduled (FailureIncident.timestamp v) (Z.of_nat n)) /\
   FailureIncident.manual_intervention v = requires_intervention ft /\
   (FailureIncident.intervention_type v <> None <->
    requires_intervention ft = true))
  \/
  (eligible ft = true /\ n = 3%nat /\
   FailureIncident.resolved v = false /\
   FailureIncident.retry_count v = 0 /\
   FailureIncident.resolution_time v = None /\
   FailureIncident.manual_intervention v = true /\
   FailureIncident.intervention_type v <> None).

(** The block of iteration [i]. *)
Definition block_ok (env : Oracle) (i : Z) (b : Block) : Prop :=
  match block_incident b with
  | None =>
      block_retries b = [] /\
      block_signup b = planned_signup env i true None
  | Some (l, v) =>
      let o := block_signup b in
      o = planned_signup env i false (Some l) /\
      FailureIncident.signup_id v = SignupAttempt.signup_id o /\
      FailureIncident.provider v = SignupAttempt.provider o /\
      FailureIncident.timestamp v = SignupAttempt.timestamp o /\
      In (FailureIncident.failure_type v)
         (map fst (failure_types_of (SignupAttempt.provider o))) /\
      FailureIncident.error_message v
        = _get_error_message (FailureIncident.failure_type v) /\
      (forall j a, nth_error (block_retries b) j = Some a ->
         a = retry_attempt o (FailureIncident.timestamp v) (Z.of_nat (S j))
               (FailureIncident.resolved v
                && (S j =? List.length (block_retries b))%nat)) /\
      lifecycle v (List.length (block_retries b))
  end.

(** What a user of the ledger can rely on for an incident the simulation
    has produced. *)
Definition incident_well_formed (v : FailureIncident.t) : Prop :=
  let ft := FailureIncident.failure_type v in
  is_configured (FailureIncident.provider v) = true /\
  In ft (map fst (failure_types_of (FailureIncident.provider v))) /\
  FailureIncident.error_message v = _get_error_message ft /\
  0 <= FailureIncident.retry_count v <= 3 /\
  (FailureIncident.resolved v = true ->
   eligible ft = true /\
   1 <= FailureIncident.retry_count v /\
   FailureIncident.resolution_time v
     = Some (FailureIncident.timestamp v
             + timedelta_minutes (FailureIncident.retry_count v * 5))) /\
  (FailureIncident.resolved v = false ->
   FailureIncident.retry_count v = 0 /\
   FailureIncident.resolution_time v = None) /\
  (FailureIncident.manual_intervention v = true <->
   requires_intervention ft = true \/
   (eligible ft = true /\ FailureIncident.resolved v = false)) /\
  (FailureIncident.manual_intervention v = true <->
   FailureIncident.intervention_type v <> None).

(** An oracle and a generator for the examples: the clock advances one
    second per iteration, every third signup fails, and the success draws of
    the cascade alternate. *)
Definition example_oracle : Oracle :=
  mkOracle (fun i => 1700000000000000 + i * 1000000) (fun i => i mod 31).

Definition example_world : World :=
  mkWorld [] [] (fun _ => blank_incident) 0%nat
    (fun n => match (n mod 5)%nat with
              | 0%nat => 0.1%float
              | 1%nat => 0.35%float
              | 2%nat => 0.9%float
              | 3%nat => 0.5%float
              | _ => 0.7%float
              end)
    0%nat (fun _ => "incident_20240101_000000_1000") 0%nat.

(** The object the classifier constructs for the draw [rand] and the id
    [incident_id]. *)
Definition classified_incident (incident_id signup_id provider : string)
    (timestamp : datetime) (rand : float) : FailureIncident.t :=
  let ft := select_failure_type (failure_types_of provider) rand
              PrimFloat.zero NETWORK_TIMEOUT in
  let required :=
    py_in ft [CAPTCHA_CHALLENGE; SITE_MAINTENANCE; AUTHENTICATION_FAILED] in
  FailureIncident.mk incident_id signup_id provider ft timestamp false None 0
    required
    (if required then
       if FailureType_eqb ft CAPTCHA_CHALLENGE then Some MANUAL_LOGIN
       else if FailureType_eqb ft AUTHENTICATION_FAILED
            then Some CREDENTIAL_UPDATE
       else if FailureType_eqb ft SITE_MAINTENANCE
            then Some CUSTOMER_SUPPORT
       else None
     else None)
    (_get_error_message ft).

(** The incident states a block records. *)
Definition block_values (b : Block) : list FailureIncident.t :=
  match block_incident b with
  | Some (_, v) => [v]
  | None => []
  end.

(** An attempt of the ledger is a signup of its own or a retry. *)
Definition is_original (a : SignupAttempt.t) : bool :=
  is_None (SignupAttempt.retry_of a).

Definition is_retry (a : SignupAttempt.t) : bool :=
  is_not_None (SignupAttempt.retry_of a).

(** The retries of the signup named [signup_id] among [attempts]. *)
Definition retries_of (signup_id : string) (attempts : list SignupAttempt.t)
    : list SignupAttempt.t :=
  filter (fun a => match SignupAttempt.retry_of a with
                   | Some s => (s =? signup_id)%string
                   | None => false
                   end)
    attempts.

(** The incidents among [locs] that record the signup named [signup_id]. *)
Definition incidents_of (h : loc -> FailureIncident.t) (signup_id : string)
    (locs : list loc) : list loc :=
  filter (fun l => (FailureIncident.signup_id (h l) =? signup_id)%string) locs.

(** Reading a string of decimal digits (leading zeros allowed) back as a
    number, the inverse of the formatting of indices. *)
Definition parse_decimal (s : string) : option Z :=
  option_map Z.of_uint (NilEmpty.uint_of_string s).

(** ** Report: the two breakdown sections of [generate_reliability_report]

    The head of the report formats floats ([:.1%], [:.1f]) and is not
    modelled; the two sections below are built from strings and integers
    only. *)

(** The newline character *)
Definition nl : string := String (ascii_of_nat 10) EmptyString.

(** [s.replace('_', ' ')] *)
Fixpoint replace_underscores (s : string) : string :=
  match s with
  | EmptyString => EmptyString
  | String c r =>
      String (if Ascii.eqb c "_" then " "%char else c) (replace_underscores r)
  end.

Definition is_lower (c : ascii) : bool :=
  (97 <=? nat_of_ascii c)%nat && (nat_of_ascii c <=? 122)%nat.

Definition is_upper (c : ascii) : bool :=
  (65 <=? nat_of_ascii c)%nat && (nat_of_ascii c <=? 90)%nat.

Definition to_upper (c : ascii) : ascii :=
  if is_lower c then ascii_of_nat (nat_of_ascii c - 32) else c.

Definition to_lower (c : ascii) : ascii :=
  if is_upper c then ascii_of_nat (nat_of_ascii c + 32) else c.

(** [s.title()] on ASCII text: a letter that follows a letter is lowered,
    any other letter is raised. *)
Fixpoint title_from (previous_is_cased : bool) (s : string) : string :=
  match s with
  | EmptyString => EmptyString
  | String c r =>
      String (if previous_is_cased then to_lower c else to_upper c)
        (title_from (is_lower c || is_upper c) r)
  end.

Definition py_title (s : string) : string := title_from false s.

(** [sorted(items, key=lambda x: x[1], reverse=True)]: a stable sort by
    decreasing count; items of equal count keep their order. *)
Fixpoint insert_desc (x : string * Z) (l : list (string * Z))
    : list (string * Z) :=
  match l with
  | [] => [x]
  | y :: r => if snd y <? snd x then x :: l else y :: insert_desc x r
  end.

Definition sorted_by_count_desc (items : list (string * Z))
    : list (string * Z) :=
  fold_left (fun acc x => insert_desc x acc) items [].

(** The items the loop of the "Failure Analysis" section runs over:
    [sorted(...)[:5]]. *)
Definition failure_report_rows (failure_types : str_dict Z)
    : list (string * Z) :=
  firstn 5 (sorted_by_count_desc failure_types).

(** [report += ...] of the "Intervention Types" section *)
Definition append_intervention_section (report : string)
    (intervention_types : str_dict Z) : string :=
  match intervention_types with
  | [] => report
  | _ :: _ =>
      fold_left
        (fun report item =>
           (report ++ "- " ++ py_title (replace_underscores (fst item))
              ++ ": " ++ py_str (snd item) ++ nl)%string)
        (sorted_by_count_desc intervention_types)
        (report ++ nl ++ "### Intervention Types:" ++ nl)%string
  end.

(** [report += ...] of the "Failure Analysis" section *)
Definition append_failure_section (report : string)
    (failure_types : str_dict Z) : string :=
  match failure_types with
  | [] => report
  | _ :: _ =>
      fold_left
        (fun report item =>
           (report ++ "- " ++ py_title (replace_underscores (fst item))
              ++ ": " ++ py_str (snd item) ++ " occurrences" ++ nl)%string)
        (failure_report_rows failure_types)
        (report ++ nl ++ "## Failure Analysis" ++ nl)%string
  end.

(** * Properties *)

(** ** Basic facts on enumerations and the store *)

Lemma FailureType_eqb_eq (a b : FailureType) :
  FailureType_eqb a b = true <-> a = b.
Proof.
  split.
  - destruct a, b; simpl; intro H; try reflexivity; discriminate H.
  - intros ->. destruct b; reflexivity.
Qed.

Lemma FailureType_eqb_refl (a : FailureType) : FailureType_eqb a a = true.
Proof. destruct a; reflexivity. Qed.

Lemma FailureType_value_inj (a b : FailureType) :
  FailureType_value a = FailureType_value b -> a = b.
Proof.
  destruct a, b; simpl; intro H; try reflexivity; discriminate H.
Qed.

Lemma heap_set_same h l v : heap_set h l v l = v.
Proof. unfold heap_set. now rewrite Nat.eqb_refl. Qed.

Lemma heap_set_other h l v l' : l' <> l -> heap_set h l v l' = h l'.
Proof.
  intro H. unfold heap_set.
  destruct (Nat.eqb_spec l' l) as [E | _]; [contradiction | reflexivity].
Qed.

(** ** The classifier *)

(** What a call of the classifier leaves behind, whatever the provider. *)
Lemma _generate_failure_incident_returns signup_id provider timestamp w :
  exists w',
    _generate_failure_incident signup_id provider timestamp w
      = Returned (next_loc w) w' /\
    heap w' (next_loc w) =
      (let ft := select_failure_type (failure_types_of provider)
                   (next_draw w) PrimFloat.zero NETWORK_TIMEOUT in
       let required :=
         py_in ft [CAPTCHA_CHALLENGE; SITE_MAINTENANCE; AUTHENTICATION_FAILED]
       in
       FailureIncident.mk (incident_id_stream w (incident_id_calls w))
         signup_id provider ft timestamp false None 0 required
         (if required then
            if FailureType_eqb ft CAPTCHA_CHALLENGE then Some MANUAL_LOGIN
            else if FailureType_eqb ft AUTHENTICATION_FAILED
                 then Some CREDENTIAL_UPDATE
            else if FailureType_eqb ft SITE_MAINTENANCE
                 then Some CUSTOMER_SUPPORT
            else None
          else None)
         (_get_error_message ft)) /\
    signup_attempts w' = signup_attempts w /\
    failure_incidents w' = failure_incidents w /\
    (forall l, l <> next_loc w -> heap w' l = heap w l).
Proof.
  unfold _generate_failure_incident, bind, random_random, fresh_incident_id,
    new_FailureIncident.
  eexists. split; [reflexivity |].
  cbn [heap signup_attempts failure_incidents next_loc
       incident_id_stream incident_id_calls].
  split; [apply heap_set_same |].
  split; [reflexivity |]. split; [reflexivity |].
  intros l Hl. now apply heap_set_other.
Qed.

(** Any provider string other than the first two gets the third table. *)
Lemma failure_types_of_else provider :
  (provider =? "skiclubpro")%string = false ->
  (provider =? "daysmart")%string = false ->
  failure_types_of provider = failure_types_of "campminder".
Proof.
  intros H1 H2. unfold failure_types_of. rewrite H1, H2. reflexivity.
Qed.

(** C1, as the specification states it, fails: the unconfigured provider
    ["acme"] is classified, from the table of ["campminder"], and nothing is
    raised. *)
Lemma unknown_provider_is_classified :
  is_configured "acme" = false /\
  failure_types_of "acme" = failure_types_of "campminder" /\
  ~ fails_fast
      (_generate_failure_incident "signup_0001" "acme" 1000
         (fresh_world 0.1%float)) /\
  exists w',
    _generate_failure_incident "signup_0001" "acme" 1000
      (fresh_world 0.1%float) = Returned 0%nat w' /\
    FailureIncident.failure_type (heap w' 0%nat) = PROGRAM_FULL.
Proof.
  split; [reflexivity |]. split; [reflexivity |]. split.
  - intros (exc & w' & H).
    destruct (_generate_failure_incident_returns "signup_0001" "acme" 1000
                (fresh_world 0.1%float)) as (w1 & E & _).
    rewrite E in H. discriminate H.
  - destruct (_generate_failure_incident_returns "signup_0001" "acme" 1000
                (fresh_world 0.1%float)) as (w1 & E & Hh & _).
    exists w1. split; [exact E |].
    change (next_loc (fresh_world 0.1%float)) with 0%nat in Hh.
    rewrite Hh. vm_compute. reflexivity.
Qed.

(** C1 (amended): a provider that is not configured is never rejected: the
    classifier takes the final [else] branch, so the category is selected
    from the table of ["campminder"], and the call returns an incident
    carrying the provider string as given. *)
Theorem unknown_provider_uses_else_table signup_id provider timestamp w :
  is_configured provider = false ->
  failure_types_of provider = failure_types_of "campminder" /\
  ~ fails_fast (_generate_failure_incident signup_id provider timestamp w) /\
  exists l w',
    _generate_failure_incident signup_id provider timestamp w
      = Returned l w' /\
    FailureIncident.provider (heap w' l) = provider /\
    FailureIncident.failure_type (heap w' l) =
      select_failure_type (failure_types_of "campminder") (next_draw w)
        PrimFloat.zero NETWORK_TIMEOUT.
Proof.
  intro Hc. unfold is_configured, providers in Hc. simpl in Hc.
  apply orb_false_iff in Hc as [H1 Hc].
  apply orb_false_iff in Hc as [H2 _].
  assert (Ht : failure_types_of provider = failure_types_of "campminder")
    by (now apply failure_types_of_else).
  destruct (_generate_failure_incident_returns signup_id provider timestamp w)
    as (w' & E & Hh & _).
  split; [exact Ht |]. split.
  - intros (exc & w2 & H). rewrite E in H. discriminate H.
  - exists (next_loc w), w'. split; [exact E |].
    rewrite Hh. cbn [FailureIncident.provider FailureIncident.failure_type].
    split; [reflexivity |]. now rewrite Ht.
Qed.

Lemma unknown_provider_uses_else_table_witness :
  failure_types_of "acme" = failure_types_of "campminder" /\
  ~ fails_fast
      (_generate_failure_incident "signup_0001" "acme" 1000
         (fresh_world 0.1%float)) /\
  exists l w',
    _generate_failure_incident "signup_0001" "acme" 1000
      (fresh_world 0.1%float) = Returned l w' /\
    FailureIncident.provider (heap w' l) = "acme" /\
    FailureIncident.failure_type (heap w' l) =
      select_failure_type (failure_types_of "campminder")
        (next_draw (fresh_world 0.1%float)) PrimFloat.zero NETWORK_TIMEOUT.
Proof.
  apply (unknown_provider_uses_else_table "signup_0001" "acme" 1000
           (fresh_world 0.1%float)).
  reflexivity.
Defined.

(** The walk started with an arbitrary running total [acc]: it stops at the
    first entry where the total reaches the draw, or keeps the default. *)
Lemma select_failure_type_spec table rand acc default :
  (exists i ft weight,
      nth_error table i = Some (ft, weight) /\
      PrimFloat.leb rand
        (fold_left PrimFloat.add (map snd (firstn (S i) table)) acc) = true /\
      (forall j, (j < i)%nat ->
         PrimFloat.leb rand
           (fold_left PrimFloat.add (map snd (firstn (S j) table)) acc)
         = false) /\
      select_failure_type table rand acc default = ft)
  \/
  ((forall j, (j < List.length table)%nat ->
      PrimFloat.leb rand
        (fold_left PrimFloat.add (map snd (firstn (S j) table)) acc) = false)
   /\ select_failure_type table rand acc default = default).
Proof.
  revert acc. induction table as [| [ft weight] rest IH]; intro acc.
  - right. split; [intros j Hj; inversion Hj | reflexivity].
  - simpl select_failure_type.
    destruct (PrimFloat.leb rand (PrimFloat.add acc weight)) eqn:Hhit.
    + left. exists 0%nat, ft, weight. simpl.
      repeat split; [exact Hhit |]. intros j Hj. inversion Hj.
    + destruct (IH (PrimFloat.add acc weight))
        as [(i & ft' & weight' & Hn & Hi & Hlt & Hsel) | [Hall Hsel]].
      * left. exists (S i), ft', weight'.
        split; [exact Hn |]. split; [exact Hi |]. split; [| exact Hsel].
        intros [| j] Hj; [exact Hhit |]. apply Hlt. lia.
      * right. split; [| exact Hsel].
        intros [| j] Hj; [exact Hhit |]. apply Hall. simpl in Hj. lia.
Qed.

(** C8: for every provider and every draw, the classifier returns (it never
    raises), and the category of the incident is that of the first table
    entry whose cumulative weight meets or exceeds the draw; when no entry
    does, it is [NETWORK_TIMEOUT]. *)
Theorem selection_is_first_crossing_or_default signup_id provider timestamp w :
  let table := failure_types_of provider in
  let rand := next_draw w in
  exists l w',
    _generate_failure_incident signup_id provider timestamp w
      = Returned l w' /\
    ((exists i ft weight,
         nth_error table i = Some (ft, weight) /\
         meets table rand i = true /\
         (forall j, (j < i)%nat -> meets table rand j = false) /\
         FailureIncident.failure_type (heap w' l) = ft)
     \/
     ((forall j, (j < List.length table)%nat -> meets table rand j = false) /\
      FailureIncident.failure_type (heap w' l) = NETWORK_TIMEOUT)).
Proof.
  intros table rand.
  destruct (_generate_failure_incident_returns signup_id provider timestamp w)
    as (w' & E & Hh & _).
  exists (next_loc w), w'. split; [exact E |].
  rewrite Hh. cbn [FailureIncident.failure_type].
  exact (select_failure_type_spec table rand PrimFloat.zero NETWORK_TIMEOUT).
Qed.

(** The numerical edge is real for the primitive floats if the table is
    short of the draw: a table whose weights sum below the draw selects the
    default. *)
Example selection_falls_back :
  select_failure_type [(PROGRAM_FULL, 0.4%float); (RATE_LIMITED, 0.2%float)]
    0.7%float PrimFloat.zero NETWORK_TIMEOUT = NETWORK_TIMEOUT.
Proof. vm_compute. reflexivity. Qed.

(** With the three tables of the source the weights add up to exactly [1.0]
    in binary64, so a draw below [1.0] always selects an entry. *)
Example tables_sum_to_one :
  map (fun p => cumulative_weight (failure_types_of p)
                  (List.length (failure_types_of p) - 1))
    providers = [1%float; 1%float; 1%float].
Proof. vm_compute. reflexivity. Qed.

(** ** The retry cascade *)

Lemma schedulable_round ts k j :
  schedulable ts k -> 1 <= j <= k ->
  in_datetime_range (scheduled ts j) = true.
Proof.
  unfold schedulable, in_datetime_range, scheduled, timedelta_minutes,
    datetime_min.
  intros [Hlo Hhi] Hj.
  apply andb_true_iff. split; apply Z.leb_le; lia.
Qed.

Section RetryLoop.

Variable mr : Z.                 (* max_retries *)
Variable o : SignupAttempt.t.    (* original_signup *)
Variable l : loc.                (* incident *)

(** One iteration of the loop, unfolded. *)
Lemma retry_loop_eq fuel rc w :
  retry_loop fuel mr o l rc w =
  if (rc <? mr) && negb (FailureIncident.resolved (heap w l)) then
    match fuel with
    | O => OutOfFuel
    | S fuel' =>
        let ts := FailureIncident.timestamp (heap w l) in
        if in_datetime_range (scheduled ts (rc + 1)) then
          if retry_succeeds w 0 then
            (assign l (FailureIncident.set_resolved true) ;;;
             assign l (FailureIncident.set_resolution_time
                         (Some (scheduled ts (rc + 1)))) ;;;
             assign l (FailureIncident.set_retry_count (rc + 1)) ;;;
             append_signup_attempt (retry_attempt o ts (rc + 1) true))
              (mkWorld (signup_attempts w) (failure_incidents w) (heap w)
                 (next_loc w) (random_stream w) (S (random_calls w))
                 (incident_id_stream w) (incident_id_calls w))
          else
            retry_loop fuel' mr o l (rc + 1)
              (after_failed_round w (retry_attempt o ts (rc + 1) false))
        else Raised "OverflowError" w
    end
  else Returned tt w.
Proof.
  destruct fuel as [| fuel']; simpl retry_loop; unfold bind, deref;
    destruct ((rc <? mr) && negb (FailureIncident.resolved (heap w l)));
    try reflexivity.
  unfold datetime_add, scheduled. cbv zeta.
  destruct (in_datetime_range
              (FailureIncident.timestamp (heap w l)
               + timedelta_minutes ((rc + 1) * 5))); [| reflexivity].
  unfold ret, random_random, retry_succeeds. cbn [Nat.add].
  destruct (PrimFloat.ltb (random_stream w (random_calls w)) 0.8%float);
    reflexivity.
Qed.

(** The successful round: the three assignments and the append. *)
Lemma successful_round_spec k ts w :
  exists w',
    (assign l (FailureIncident.set_resolved true) ;;;
     assign l (FailureIncident.set_resolution_time (Some (scheduled ts k))) ;;;
     assign l (FailureIncident.set_retry_count k) ;;;
     append_signup_attempt (retry_attempt o ts k true)) w = Returned tt w' /\
    signup_attempts w' = signup_attempts w ++ [retry_attempt o ts k true] /\
    heap w' l =
      FailureIncident.set_retry_count k
        (FailureIncident.set_resolution_time (Some (scheduled ts k))
           (FailureIncident.set_resolved true (heap w l))) /\
    same_outside l 0 w w'.
Proof.
  unfold bind, assign, append_signup_attempt.
  eexists. split; [reflexivity |].
  cbn [signup_attempts heap failure_incidents next_loc random_stream
       random_calls incident_id_stream incident_id_calls].
  split; [reflexivity |]. split.
  - now rewrite !heap_set_same.
  - unfold same_outside.
    cbn [signup_attempts heap failure_incidents next_loc random_stream
         random_calls incident_id_stream incident_id_calls].
    repeat split. intros l' Hl'. now rewrite !heap_set_other.
Qed.

Lemma retry_succeeds_after_failed_round w a j :
  retry_succeeds (after_failed_round w a) j = retry_succeeds w (S j).
Proof.
  unfold retry_succeeds, after_failed_round.
  cbn [random_stream random_calls]. now rewrite Nat.add_succ_r.
Qed.

Lemma rounds_fit_none ts rc : rounds_fit ts rc 0.
Proof. intros j Hj. lia. Qed.

Lemma rounds_fit_next ts rc n :
  in_datetime_range (scheduled ts (rc + 1)) = true ->
  rounds_fit ts (rc + 1) n -> rounds_fit ts rc (S n).
Proof.
  intros H0 H [| j] Hj.
  - now rewrite Z.add_0_r.
  - replace (rc + 1 + Z.of_nat (S j)) with (rc + 1 + 1 + Z.of_nat j) by lia.
    apply H. lia.
Qed.

(** The three ways the loop ends without another round leave the state as
    it is; what remains to show is the right disjunct of [loop_post]. *)
Ltac loop_exits w :=
  exists w, []; left; split; [reflexivity |];
  split; [| apply rounds_fit_none];
  unfold loop_post, same_outside; simpl List.length;
  rewrite app_nil_r;
  repeat split; try lia;
  [ intros [| ?] ? Hn; discriminate Hn | right ].

(** Given [max_retries - retry_count] iterations of fuel the loop returns
    or raises [OverflowError]; it returns in a state [loop_post] describes,
    and it raises, in a state [loop_raised] describes, at the first round
    that cannot be scheduled. *)
Lemma retry_loop_outcome fuel :
  forall rc w,
    (Z.to_nat (mr - rc) <= fuel)%nat ->
    exists w' created,
      (retry_loop fuel mr o l rc w = Returned tt w' /\
       loop_post mr o l rc w w' created /\
       rounds_fit (FailureIncident.timestamp (heap w l)) rc
         (List.length created))
      \/
      (retry_loop fuel mr o l rc w = Raised "OverflowError" w' /\
       loop_raised mr o l rc w w' created).
Proof.
  induction fuel as [| fuel IH]; intros rc w Hfuel; rewrite retry_loop_eq.
  - (* no fuel: the guard is false *)
    assert (Hrc : (rc <? mr) = false) by (apply Z.ltb_ge; lia).
    rewrite Hrc. simpl andb. loop_exits w.
    repeat split; try lia.
  - destruct (rc <? mr) eqn:Hrc; simpl andb.
    2:{ (* budget exhausted *)
      loop_exits w. apply Z.ltb_ge in Hrc.
      repeat split; intros; lia. }
    apply Z.ltb_lt in Hrc.
    destruct (FailureIncident.resolved (heap w l)) eqn:Hres; simpl negb; cbv iota.
    { (* already resolved *)
      loop_exits w. rewrite Hres.
      repeat split; intros; try lia; discriminate. }
    cbv zeta.
    destruct (in_datetime_range
                (scheduled (FailureIncident.timestamp (heap w l)) (rc + 1)))
      eqn:Hfit.
    2:{ (* the round cannot be scheduled *)
      exists w, []. right. split; [reflexivity |].
      unfold loop_raised, same_outside. simpl List.length.
      rewrite app_nil_r, Z.add_0_r.
      repeat split; try lia; try assumption.
      - intros [| ?] ? Hn; discriminate Hn.
      - apply rounds_fit_none. }
    destruct (retry_succeeds w 0) eqn:Hdraw.
    + (* this round succeeds *)
      destruct (successful_round_spec (rc + 1)
                  (FailureIncident.timestamp (heap w l))
                  (mkWorld (signup_attempts w) (failure_incidents w) (heap w)
                     (next_loc w) (random_stream w) (S (random_calls w))
                     (incident_id_stream w) (incident_id_calls w)))
        as (w' & E & Ha & Hh & Hout).
      exists w',
        [retry_attempt o (FailureIncident.timestamp (heap w l)) (rc + 1) true].
      left. split; [exact E |].
      split; [| apply rounds_fit_next; [exact Hfit | apply rounds_fit_none]].
      unfold loop_post. simpl List.length.
      cbn [signup_attempts heap] in Ha, Hh.
      split; [exact Ha |]. split.
      { intros [| j] a Hn; [| destruct j; discriminate Hn].
        injection Hn as <-. rewrite Hdraw. f_equal. simpl. lia. }
      split.
      { unfold same_outside in *.
        cbn [failure_incidents next_loc random_stream random_calls
             incident_id_stream incident_id_calls heap] in Hout.
        destruct Hout as (H1 & H2 & H3 & H4 & H5 & H6 & H7).
        repeat split; try assumption; try (rewrite H4; reflexivity). }
      split; [lia |]. split; [intros j Hj; lia |].
      left. split; [lia |]. split; [exact Hdraw |]. split; [exact Hres |].
      rewrite Hh. unfold resolved_in_round. reflexivity.
    + (* this round fails: one more attempt, then the rest of the loop *)
      set (a := retry_attempt o (FailureIncident.timestamp (heap w l))
                  (rc + 1) false).
      destruct (IH (rc + 1) (after_failed_round w a))
        as (w' & created & [(E & P & Pfit) | (E & R)]); [lia | |].
      * exists w', (a :: created). left. split; [exact E |].
        split; [| apply rounds_fit_next; [exact Hfit | exact Pfit]].
        unfold loop_post in *.
        cbn [after_failed_round heap signup_attempts] in P.
        destruct P as (Pa & Pn & Pout & Pb & Pf & Pi).
        simpl List.length.
        split; [rewrite Pa, <- app_assoc; reflexivity |]. split.
        { intros [| j] x Hn.
          - injection Hn as <-. rewrite Hdraw. unfold a. f_equal. simpl. lia.
          - simpl in Hn. rewrite (Pn j x Hn).
            rewrite retry_succeeds_after_failed_round. f_equal. lia. }
        split.
        { unfold same_outside in *.
          cbn [after_failed_round failure_incidents next_loc random_stream
               random_calls incident_id_stream incident_id_calls heap] in Pout.
          destruct Pout as (H1 & H2 & H3 & H4 & H5 & H6 & H7).
          repeat split; try assumption; try (rewrite H4; lia). }
        split; [lia |]. split.
        { intros [| j] Hj; [exact Hdraw |].
          rewrite <- retry_succeeds_after_failed_round with (a := a).
          apply Pf. lia. }
        destruct Pi as [(Q1 & Q2 & Q3 & Q4) | (Q1 & Q2 & Q3 & Q4)].
        -- left. split; [lia |]. split.
           { rewrite retry_succeeds_after_failed_round in Q2.
             replace (S (List.length created) - 1)%nat
               with (S (List.length created - 1)) by lia.
             exact Q2. }
           split; [exact Hres |]. rewrite Q4. f_equal. lia.
        -- right. split; [exact Q1 |]. split.
           { intros [| j] Hj; [exact Hdraw |].
             rewrite <- retry_succeeds_after_failed_round with (a := a).
             apply Q2. lia. }
           split; [intro H; rewrite H in Hres; discriminate Hres |].
           intros _. rewrite (Q4 Hres). lia.
      * exists w', (a :: created). right. split; [exact E |].
        unfold loop_raised in *.
        cbn [after_failed_round heap signup_attempts] in R.
        destruct R as (Ra & Rn & Rout & Rb & Rf & Rh & _ & Rfit & Rno).
        simpl List.length.
        split; [rewrite Ra, <- app_assoc; reflexivity |]. split.
        { intros [| j] x Hn.
          - injection Hn as <-. unfold a. f_equal. simpl. lia.
          - simpl in Hn. rewrite (Rn j x Hn). f_equal. lia. }
        split.
        { unfold same_outside in *.
          cbn [after_failed_round failure_incidents next_loc random_stream
               random_calls incident_id_stream incident_id_calls heap] in Rout.
          destruct Rout as (H1 & H2 & H3 & H4 & H5 & H6 & H7).
          repeat split; try assumption; try (rewrite H4; lia). }
        split; [lia |]. split.
        { intros [| j] Hj; [exact Hdraw |].
          rewrite <- retry_succeeds_after_failed_round with (a := a).
          apply Rf. lia. }
        split; [exact Rh |]. split; [exact Hres |].
        split; [apply rounds_fit_next; [exact Hfit | exact Rfit] |].
        rewrite <- Rno. f_equal. f_equal. lia.
Qed.

(** When every round up to [max_retries] can be scheduled the loop
    returns. *)
Lemma retry_loop_spec fuel rc w :
  (Z.to_nat (mr - rc) <= fuel)%nat ->
  0 <= rc ->
  schedulable (FailureIncident.timestamp (heap w l)) mr ->
  exists w' created,
    retry_loop fuel mr o l rc w = Returned tt w' /\
    loop_post mr o l rc w w' created.
Proof.
  intros Hfuel Hrc Hs.
  destruct (retry_loop_outcome fuel rc w Hfuel)
    as (w' & created & [(E & P & _) | (_ & R)]).
  - now exists w', created.
  - exfalso.
    destruct R as (_ & _ & _ & Rb & _ & _ & _ & _ & Rno).
    rewrite (schedulable_round _ mr) in Rno; [discriminate Rno | exact Hs | lia].
Qed.

End RetryLoop.
(** The block after the loop. *)
Lemma escalation_spec l w :
  exists w',
    (i <- deref l ;;
     if negb (FailureIncident.resolved i) then
       assign l (FailureIncident.set_manual_intervention true) ;;;
       i <- deref l ;;
       if negb (truthy (FailureIncident.intervention_type i)) then
         assign l
           (FailureIncident.set_intervention_type (Some CUSTOMER_SUPPORT))
       else ret tt
     else ret tt) w = Returned tt w' /\
    signup_attempts w' = signup_attempts w /\
    same_outside l 0 w w' /\
    heap w' l =
      (if FailureIncident.resolved (heap w l) then heap w l
       else escalated (heap w l)).
Proof.
  unfold bind, deref.
  destruct (FailureIncident.resolved (heap w l)) eqn:Hres; cbn [negb].
  - exists w. unfold ret, same_outside. repeat split; reflexivity.
  - unfold assign at 1.
    cbn [heap]. rewrite heap_set_same. unfold escalated.
    cbn [FailureIncident.set_manual_intervention
         FailureIncident.intervention_type].
    destruct (FailureIncident.intervention_type (heap w l)) as [it |] eqn:Hit;
      cbn [truthy negb].
    + eexists. unfold ret. split; [reflexivity |].
      unfold same_outside.
      cbn [signup_attempts heap failure_incidents next_loc random_stream
           random_calls incident_id_stream incident_id_calls].
      rewrite heap_set_same.
      repeat split; try reflexivity.
      intros l' Hl'. now rewrite heap_set_other.
    + eexists. unfold assign. split; [reflexivity |].
      unfold same_outside.
      cbn [signup_attempts heap failure_incidents next_loc random_stream
           random_calls incident_id_stream incident_id_calls].
      rewrite !heap_set_same.
      repeat split; try reflexivity.
      intros l' Hl'. now rewrite !heap_set_other.
Qed.

(** The early return: an ineligible incident leaves the state as it is. *)
Lemma _simulate_retries_ineligible o l w :
  eligible (FailureIncident.failure_type (heap w l)) = false ->
  _simulate_retries o l w = Returned tt w.
Proof.
  unfold eligible. intro H. apply negb_false_iff in H.
  unfold _simulate_retries, bind, deref. rewrite H. reflexivity.
Qed.


(** A call followed by a continuation. *)
Lemma bind_returned {A B} (m : M A) (k : A -> M B) w a w1 :
  m w = Returned a w1 -> bind m k w = k a w1.
Proof. intro E. unfold bind. now rewrite E. Qed.

Lemma bind_raised {A B} (m : M A) (k : A -> M B) w exc w1 :
  m w = Raised exc w1 -> bind m k w = Raised exc w1.
Proof. intro E. unfold bind. now rewrite E. Qed.

(** The cascade on an eligible incident returns or raises [OverflowError]:
    it returns in a state [cascade_post] describes, and it raises, in a
    state [cascade_raised] describes, at the first round that cannot be
    scheduled.  The fuel given to the loop is enough. *)
Lemma _simulate_retries_outcome o l w :
  eligible (FailureIncident.failure_type (heap w l)) = true ->
  exists w' created,
    (_simulate_retries o l w = Returned tt w' /\
     cascade_post o l w w' created /\
     rounds_fit (FailureIncident.timestamp (heap w l)) 0
       (List.length created))
    \/
    (_simulate_retries o l w = Raised "OverflowError" w' /\
     cascade_raised o l w w' created).
Proof.
  unfold eligible. intro H. apply negb_true_iff in H.
  assert (Hcall :
    _simulate_retries o l w =
    (retry_loop (Z.to_nat (3 - 0)) 3 o l 0 ;;;
     i <- deref l ;;
     if negb (FailureIncident.resolved i) then
       assign l (FailureIncident.set_manual_intervention true) ;;;
       i <- deref l ;;
       if negb (truthy (FailureIncident.intervention_type i)) then
         assign l
           (FailureIncident.set_intervention_type (Some CUSTOMER_SUPPORT))
       else ret tt
     else ret tt) w).
  { unfold _simulate_retries. unfold bind at 1. unfold deref at 1.
    now rewrite H. }
  rewrite Hcall. clear Hcall.
  destruct (retry_loop_outcome 3 o l (Z.to_nat (3 - 0)) 0 w (Nat.le_refl _))
    as (w1 & created & [(E & P & Pfit) | (E & R)]).
  - rewrite !(bind_returned _ _ _ _ _ E).
    destruct (escalation_spec l w1) as (w' & E' & Ha' & Hout' & Hh').
    exists w', created. left. split; [exact E' |]. split; [| exact Pfit].
    unfold loop_post in P. unfold cascade_post.
    destruct P as (Pa & Pn & Pout & Pb & Pf & Pi).
    split; [now rewrite Ha' |]. split.
    { intros j a Hn. rewrite (Pn j a Hn). f_equal. lia. }
    split.
    { unfold same_outside in *.
      destruct Pout as (H1 & H2 & H3 & H4 & H5 & H6 & H7).
      destruct Hout' as (K1 & K2 & K3 & K4 & K5 & K6 & K7).
      repeat split; try congruence;
        [ rewrite K4, H4; reflexivity
        | intros l' Hl'; rewrite K7, H7 by assumption; reflexivity ]. }
    split; [simpl in Pb; lia |]. split; [exact Pf |].
    destruct Pi as [(Q1 & Q2 & Q3 & Q4) | (Q1 & Q2 & Q3 & Q4)].
    + left. rewrite Q4 in Hh'. cbn [resolved_in_round
        FailureIncident.set_retry_count FailureIncident.set_resolution_time
        FailureIncident.set_resolved FailureIncident.resolved] in Hh'.
      repeat split; try assumption.
    + rewrite Q1 in Hh'.
      destruct (FailureIncident.resolved (heap w l)) eqn:Hres.
      * right. left. repeat split; [apply Q3; reflexivity | exact Hh'].
      * right. right. specialize (Q4 eq_refl). simpl in Q4.
        split; [reflexivity |]. split; [exact Q4 |]. split; [| exact Hh'].
        intros j Hj. apply Q2. lia.
  - (* the exception leaves the function *)
    rewrite !(bind_raised _ _ _ _ _ E).
    exists w1, created. right. split; [reflexivity |].
    unfold loop_raised in R. unfold cascade_raised.
    destruct R as (Ra & Rn & Rout & Rb & Rf & Rh & Rres & Rfit & Rno).
    split; [exact Ra |]. split.
    { intros j a Hn. rewrite (Rn j a Hn). f_equal. lia. }
    split; [exact Rout |]. split; [simpl in Rb; lia |].
    split; [exact Rf |]. split; [exact Rh |]. split; [exact Rres |].
    split; [exact Rfit |].
    rewrite <- Rno. f_equal. f_equal. lia.
Qed.

(** A cascade that raises was run on an incident without room for three
    rounds. *)
Lemma cascade_raised_not_schedulable o l w w' created :
  cascade_raised o l w w' created ->
  schedulable (FailureIncident.timestamp (heap w l)) 3 -> False.
Proof.
  intros (_ & _ & _ & Rb & _ & _ & _ & _ & Rno) Hs.
  rewrite (schedulable_round _ 3) in Rno;
    [discriminate Rno | exact Hs | lia].
Qed.

(** The cascade on an eligible incident with room for three rounds returns,
    in a state [cascade_post] describes. *)
Lemma _simulate_retries_eligible o l w :
  eligible (FailureIncident.failure_type (heap w l)) = true ->
  schedulable (FailureIncident.timestamp (heap w l)) 3 ->
  exists w' created,
    _simulate_retries o l w = Returned tt w' /\ cascade_post o l w w' created.
Proof.
  intros He Hs.
  destruct (_simulate_retries_outcome o l w He)
    as (w' & created & [(E & P & _) | (_ & R)]).
  - now exists w', created.
  - destruct (cascade_raised_not_schedulable _ _ _ _ _ R Hs).
Qed.

(** On an incident with room for three rounds the cascade returns. *)
Lemma _simulate_retries_returns o l w :
  schedulable (FailureIncident.timestamp (heap w l)) 3 ->
  exists w', _simulate_retries o l w = Returned tt w'.
Proof.
  intro Hs.
  destruct (eligible (FailureIncident.failure_type (heap w l))) eqn:He.
  - destruct (_simulate_retries_eligible o l w He Hs) as (w' & created & E & _).
    now exists w'.
  - exists w. now apply _simulate_retries_ineligible.
Qed.

Lemma nth_error_some_lt {A} (l : list A) j a :
  nth_error l j = Some a -> (j < List.length l)%nat.
Proof. intro H. apply nth_error_Some. rewrite H. discriminate. Qed.

(** The round numbers as the f-string prints them. *)
Example py_str_rounds :
  map py_str [1; 2; 3] = ["1"; "2"; "3"]%string.
Proof. reflexivity. Qed.

(** The two ends of a cascade on an unresolved, eligible incident, as to
    [retry_count]: a resolving cascade records the number of attempts it
    appended; an exhausted one appended three and leaves the field as it
    found it. *)
Lemma retry_count_after_cascade o l w :
  eligible (FailureIncident.failure_type (heap w l)) = true ->
  schedulable (FailureIncident.timestamp (heap w l)) 3 ->
  FailureIncident.resolved (heap w l) = false ->
  exists w' created,
    _simulate_retries o l w = Returned tt w' /\
    signup_attempts w' = signup_attempts w ++ created /\
    (List.length created <= 3)%nat /\
    (FailureIncident.resolved (heap w' l) = true ->
     FailureIncident.retry_count (heap w' l)
       = Z.of_nat (List.length created)) /\
    (FailureIncident.resolved (heap w' l) = false ->
     List.length created = 3%nat /\
     FailureIncident.retry_count (heap w' l)
       = FailureIncident.retry_count (heap w l)).
Proof.
  intros He Hs Hres.
  destruct (_simulate_retries_eligible o l w He Hs)
    as (w' & created & E & Pa & _ & _ & Pb & _ & Pi).
  exists w', created. split; [exact E |]. split; [exact Pa |].
  split; [exact Pb |].
  destruct Pi as [(_ & _ & _ & Q) | [(Q & _) | (_ & Qn & _ & Q)]].
  - rewrite Q. split; [reflexivity | discriminate].
  - rewrite Q in Hres. discriminate Hres.
  - rewrite Q. unfold escalated.
    destruct (negb (truthy
                (FailureIncident.intervention_type
                   (FailureIncident.set_manual_intervention true (heap w l)))));
      cbn [FailureIncident.set_intervention_type
           FailureIncident.set_manual_intervention
           FailureIncident.resolved FailureIncident.retry_count];
      rewrite Hres; (split; [discriminate | intros _; now split]).
Qed.

(** The cascade near the end of the [datetime] range: on the incident dated
    9999-12-31T23:50 round 1 (23:55) is scheduled and, with the draw 0.9,
    fails; round 2 (00:00 of the year 10000) raises.  One attempt has been
    appended, and the block after the loop is not reached: the incident is
    neither resolved nor escalated. *)
Example cascade_on_the_last_evening :
  exists w',
    _simulate_retries original_attempt 0%nat
      (late_incident_world 0.9%float 0.9%float 0.9%float)
      = Raised "OverflowError" w' /\
    map SignupAttempt.success (signup_attempts w') = [false] /\
    map SignupAttempt.timestamp (signup_attempts w')
      = [datetime_max - 299999999] /\
    FailureIncident.resolved (heap w' 0%nat) = false /\
    FailureIncident.manual_intervention (heap w' 0%nat) = false.
Proof.
  eexists. split; [vm_compute; reflexivity |].
  vm_compute. repeat split; reflexivity.
Qed.

(** C3 (code defect): when all three rounds fail on a retry-eligible
    incident, three retry attempts are appended but [incident.retry_count]
    keeps the value 0 the classifier gave it: only the successful branch of
    the loop assigns the field.  Evaluated on a [RATE_LIMITED] incident with
    the three success draws 0.9, 0.9, 0.9. *)
Theorem exhausted_cascade_keeps_retry_count_zero :
  exists w',
    _simulate_retries original_attempt 0%nat
      (rate_limited_world 0.9%float 0.9%float 0.9%float) = Returned tt w' /\
    FailureIncident.failure_type (heap w' 0%nat) = RATE_LIMITED /\
    List.length (signup_attempts w') = 3%nat /\
    map SignupAttempt.success (signup_attempts w') = [false; false; false] /\
    FailureIncident.resolved (heap w' 0%nat) = false /\
    FailureIncident.manual_intervention (heap w' 0%nat) = true /\
    FailureIncident.retry_count (heap w' 0%nat) = 0.
Proof.
  eexists. split; [vm_compute; reflexivity |].
  vm_compute. repeat split; reflexivity.
Qed.

(** C5: on a retry-eligible, unresolved incident that leaves room for [k]
    rounds (its timestamp plus [k * 5] minutes is still a [datetime]), if
    the success draw first succeeds in round [k] (1 <= k <= 3), the cascade
    appends exactly [k] retry attempts in round order, round [j+1] scheduled
    at the incident's timestamp plus [(j+1) * 5] minutes, with [retry_of]
    the original id, unsuccessful except the last; and the incident ends
    resolved, with resolution time the timestamp plus [k * 5] minutes and
    [retry_count = k]. *)
Theorem cascade_succeeds_in_round o l w k :
  eligible (FailureIncident.failure_type (heap w l)) = true ->
  FailureIncident.resolved (heap w l) = false ->
  (1 <= k <= 3)%nat ->
  schedulable (FailureIncident.timestamp (heap w l)) (Z.of_nat k) ->
  (forall j, (S j < k)%nat -> retry_succeeds w j = false) ->
  retry_succeeds w (k - 1) = true ->
  exists w' created,
    _simulate_retries o l w = Returned tt w' /\
    signup_attempts w' = signup_attempts w ++ created /\
    List.length created = k /\
    (forall j a, nth_error created j = Some a ->
       SignupAttempt.success a = (S j =? k)%nat /\
       SignupAttempt.timestamp a =
         FailureIncident.timestamp (heap w l)
         + timedelta_minutes (Z.of_nat (S j) * 5) /\
       SignupAttempt.retry_of a = Some (SignupAttempt.signup_id o)) /\
    FailureIncident.resolved (heap w' l) = true /\
    FailureIncident.resolution_time (heap w' l) =
      Some (FailureIncident.timestamp (heap w l)
            + timedelta_minutes (Z.of_nat k * 5)) /\
    FailureIncident.retry_count (heap w' l) = Z.of_nat k.
Proof.
  intros He Hres Hk Hroom Hfail Hsucc.
  destruct (_simulate_retries_outcome o l w He)
    as (w' & created & [(E & P & _) | (_ & R)]).
  2:{ (* a round that cannot be scheduled would come after round [k] *)
    exfalso.
    destruct R as (_ & _ & _ & Rb & Rf & _ & _ & _ & Rno).
    assert (Hle : (S (List.length created) <= k)%nat).
    { destruct (Nat.le_gt_cases (S (List.length created)) k) as [H | H];
        [exact H |].
      rewrite Rf in Hsucc by lia. discriminate Hsucc. }
    rewrite (schedulable_round _ (Z.of_nat k)) in Rno;
      [discriminate Rno | exact Hroom | lia]. }
  exists w', created. split; [exact E |].
  destruct P as (Pa & Pn & _ & Pb & Pf & Pi).
  assert (Hn : List.length created = k /\
               heap w' l = resolved_in_round (heap w l) (Z.of_nat k)).
  { destruct Pi as [(Q1 & Q2 & _ & Q4) | [(Q1 & _) | (_ & Q2 & Q3 & _)]].
    - assert (List.length created = k).
      { destruct (Nat.lt_trichotomy (List.length created) k) as [Hlt | [Heq | Hgt]].
        + rewrite Hfail in Q2 by lia. discriminate Q2.
        + exact Heq.
        + rewrite Pf in Hsucc by lia. discriminate Hsucc. }
      subst k. split; [reflexivity | exact Q4].
    - rewrite Q1 in Hres. discriminate Hres.
    - rewrite Q3 in Hsucc by lia. discriminate Hsucc. }
  destruct Hn as [Hlen Hh].
  split; [exact Pa |]. split; [exact Hlen |]. split.
  - intros j a Hj. pose proof (nth_error_some_lt _ _ _ Hj) as Hlt.
    rewrite (Pn j a Hj).
    cbn [retry_attempt SignupAttempt.success SignupAttempt.timestamp
         SignupAttempt.retry_of].
    split; [| split; reflexivity].
    destruct (Nat.eqb_spec (S j) k) as [Heq | Hne].
    + replace (k - 1)%nat with j in Hsucc by lia. exact Hsucc.
    + apply Hfail. lia.
  - rewrite Hh. repeat split.
Qed.

Lemma cascade_succeeds_in_round_witness :
  exists w' created,
    _simulate_retries original_attempt 0%nat
      (rate_limited_world 0.9%float 0.5%float 0.5%float) = Returned tt w' /\
    signup_attempts w' =
      signup_attempts (rate_limited_world 0.9%float 0.5%float 0.5%float)
        ++ created /\
    List.length created = 2%nat /\
    (forall j a, nth_error created j = Some a ->
       SignupAttempt.success a = (S j =? 2)%nat /\
       SignupAttempt.timestamp a =
         FailureIncident.timestamp
           (heap (rate_limited_world 0.9%float 0.5%float 0.5%float) 0%nat)
         + timedelta_minutes (Z.of_nat (S j) * 5) /\
       SignupAttempt.retry_of a =
         Some (SignupAttempt.signup_id original_attempt)) /\
    FailureIncident.resolved (heap w' 0%nat) = true /\
    FailureIncident.resolution_time (heap w' 0%nat) =
      Some (FailureIncident.timestamp
              (heap (rate_limited_world 0.9%float 0.5%float 0.5%float) 0%nat)
            + timedelta_minutes (Z.of_nat 2 * 5)) /\
    FailureIncident.retry_count (heap w' 0%nat) = Z.of_nat 2.
Proof.
  apply (cascade_succeeds_in_round original_attempt 0%nat
           (rate_limited_world 0.9%float 0.5%float 0.5%float) 2%nat).
  - vm_compute; reflexivity.
  - vm_compute; reflexivity.
  - lia.
  - split; vm_compute; discriminate.
  - intros j Hj. assert (j = 0%nat) as -> by lia. vm_compute; reflexivity.
  - vm_compute; reflexivity.
Defined.

(** C6: on a retry-eligible, unresolved incident that leaves room for the
    three rounds (its timestamp plus 15 minutes is still a [datetime]) and
    whose three rounds all fail, the incident ends unresolved with
    [manual_intervention = True]; an intervention type the classifier had
    not set becomes [CUSTOMER_SUPPORT], one it had set is kept. *)
Theorem exhausted_cascade_escalates o l w :
  eligible (FailureIncident.failure_type (heap w l)) = true ->
  FailureIncident.resolved (heap w l) = false ->
  schedulable (FailureIncident.timestamp (heap w l)) 3 ->
  (forall j, (j < 3)%nat -> retry_succeeds w j = false) ->
  exists w',
    _simulate_retries o l w = Returned tt w' /\
    FailureIncident.resolved (heap w' l) = false /\
    FailureIncident.manual_intervention (heap w' l) = true /\
    (FailureIncident.intervention_type (heap w l) = None ->
     FailureIncident.intervention_type (heap w' l) = Some CUSTOMER_SUPPORT) /\
    (forall it, FailureIncident.intervention_type (heap w l) = Some it ->
     FailureIncident.intervention_type (heap w' l) = Some it).
Proof.
  intros He Hres Hroom Hfail.
  destruct (_simulate_retries_eligible o l w He Hroom)
    as (w' & created & E & P).
  exists w'. split; [exact E |].
  destruct P as (_ & _ & _ & Pb & _ & Pi).
  destruct Pi as [(Q1 & Q2 & _) | [(Q1 & _) | (_ & _ & _ & Q4)]].
  - rewrite Hfail in Q2 by lia. discriminate Q2.
  - rewrite Q1 in Hres. discriminate Hres.
  - rewrite Q4. unfold escalated.
    cbn [FailureIncident.set_manual_intervention
         FailureIncident.intervention_type].
    destruct (FailureIncident.intervention_type (heap w l)) as [it |] eqn:Hit;
      cbn [truthy negb FailureIncident.set_intervention_type
           FailureIncident.set_manual_intervention
           FailureIncident.resolved FailureIncident.manual_intervention
           FailureIncident.intervention_type];
      repeat split; try assumption; try discriminate.
    intros it' Hit'. now rewrite Hit.
Qed.

Lemma exhausted_cascade_escalates_witness :
  exists w',
    _simulate_retries original_attempt 0%nat
      (rate_limited_world 0.9%float 0.9%float 0.9%float) = Returned tt w' /\
    FailureIncident.resolved (heap w' 0%nat) = false /\
    FailureIncident.manual_intervention (heap w' 0%nat) = true /\
    (FailureIncident.intervention_type
       (heap (rate_limited_world 0.9%float 0.9%float 0.9%float) 0%nat) = None ->
     FailureIncident.intervention_type (heap w' 0%nat)
       = Some CUSTOMER_SUPPORT) /\
    (forall it,
       FailureIncident.intervention_type
         (heap (rate_limited_world 0.9%float 0.9%float 0.9%float) 0%nat)
         = Some it ->
       FailureIncident.intervention_type (heap w' 0%nat) = Some it).
Proof.
  apply (exhausted_cascade_escalates original_attempt 0%nat
           (rate_limited_world 0.9%float 0.9%float 0.9%float)).
  - vm_compute; reflexivity.
  - vm_compute; reflexivity.
  - split; vm_compute; discriminate.
  - intros j Hj.
    destruct j as [| [| [| j]]]; [vm_compute; reflexivity .. | lia].
Defined.

(** C7: an incident the classifier has just produced with category
    [PROGRAM_FULL] or [PAYMENT_DECLINED] is not retried: the cascade appends
    no attempt and leaves the incident as it was, that is unresolved, with
    [retry_count = 0] and with the [manual_intervention = False] the
    classifier gave it. *)
Theorem ineligible_incident_is_not_retried
    signup_id provider timestamp w l w1 o :
  _generate_failure_incident signup_id provider timestamp w = Returned l w1 ->
  FailureIncident.failure_type (heap w1 l) = PROGRAM_FULL \/
  FailureIncident.failure_type (heap w1 l) = PAYMENT_DECLINED ->
  exists w2,
    _simulate_retries o l w1 = Returned tt w2 /\
    signup_attempts w2 = signup_attempts w1 /\
    heap w2 l = heap w1 l /\
    FailureIncident.resolved (heap w2 l) = false /\
    FailureIncident.retry_count (heap w2 l) = 0 /\
    FailureIncident.manual_intervention (heap w2 l) = false.
Proof.
  intros Hgen Hft.
  destruct (_generate_failure_incident_returns signup_id provider timestamp w)
    as (w' & E & Hh & _).
  rewrite E in Hgen. injection Hgen as <- <-.
  exists w'. split.
  - apply _simulate_retries_ineligible.
    destruct Hft as [-> | ->]; reflexivity.
  - split; [reflexivity |]. split; [reflexivity |].
    rewrite Hh in Hft |- *.
    cbn [FailureIncident.failure_type FailureIncident.resolved
         FailureIncident.retry_count FailureIncident.manual_intervention]
      in Hft |- *.
    split; [reflexivity |]. split; [reflexivity |].
    destruct Hft as [-> | ->]; reflexivity.
Qed.

Lemma ineligible_incident_is_not_retried_witness :
  exists w2,
    _simulate_retries original_attempt 0%nat program_full_world
      = Returned tt w2 /\
    signup_attempts w2 = signup_attempts program_full_world /\
    heap w2 0%nat = heap program_full_world 0%nat /\
    FailureIncident.resolved (heap w2 0%nat) = false /\
    FailureIncident.retry_count (heap w2 0%nat) = 0 /\
    FailureIncident.manual_intervention (heap w2 0%nat) = false.
Proof.
  apply (ineligible_incident_is_not_retried "signup_0001" "acme" 1000
           (fresh_world 0.1%float) 0%nat program_full_world original_attempt).
  - reflexivity.
  - left. vm_compute; reflexivity.
Defined.

(** C9: whatever the incident and the draws, the cascade returns or, when a
    round cannot be scheduled within the [datetime] range, raises
    [OverflowError]; it returns whenever the incident leaves room for three
    rounds.  Either way the [j]-th attempt it has appended (round [j+1])
    carries the user, provider and program of the original attempt, the id
    of the original attempt followed by ["_retry_"] and the round number,
    [retry_of] set to the original id, and no incident back-reference. *)
Theorem retry_attempts_inherit_the_original o l w :
  exists w' created,
    (_simulate_retries o l w = Returned tt w' \/
     _simulate_retries o l w = Raised "OverflowError" w') /\
    (schedulable (FailureIncident.timestamp (heap w l)) 3 ->
     _simulate_retries o l w = Returned tt w') /\
    signup_attempts w' = signup_attempts w ++ created /\
    forall j a, nth_error created j = Some a ->
      SignupAttempt.user_id a = SignupAttempt.user_id o /\
      SignupAttempt.provider a = SignupAttempt.provider o /\
      SignupAttempt.program_id a = SignupAttempt.program_id o /\
      SignupAttempt.signup_id a =
        (SignupAttempt.signup_id o ++ "_retry_"
           ++ py_str (Z.of_nat (S j)))%string /\
      SignupAttempt.retry_of a = Some (SignupAttempt.signup_id o) /\
      SignupAttempt.failure_incident a = None.
Proof.
  destruct (eligible (FailureIncident.failure_type (heap w l))) eqn:He.
  - destruct (_simulate_retries_outcome o l w He)
      as (w' & created & [(E & (Pa & Pn & _) & _) | (E & R)]).
    + exists w', created. split; [now left |]. split; [intros _; exact E |].
      split; [exact Pa |].
      intros j a Hj. rewrite (Pn j a Hj). repeat split.
    + exists w', created. split; [now right |].
      split; [intro Hs; destruct (cascade_raised_not_schedulable _ _ _ _ _ R Hs) |].
      destruct R as (Ra & Rn & _).
      split; [exact Ra |].
      intros j a Hj. rewrite (Rn j a Hj). repeat split.
  - exists w, [].
    pose proof (_simulate_retries_ineligible o l w He) as E.
    split; [now left |]. split; [intros _; exact E |].
    split; [now rewrite app_nil_r |].
    intros [| j] a Hj; discriminate Hj.
Qed.

(** C10: whatever the incident and the draws, the cascade returns or, when
    a round cannot be scheduled within the [datetime] range, raises
    [OverflowError]; it returns whenever the incident leaves room for three
    rounds.  Either way it leaves [incident_id], [signup_id], [provider],
    [failure_type], [timestamp] and [error_message] of the incident as they
    were, and every other incident object untouched; and when the incident
    ends resolved, [manual_intervention] and [intervention_type] are as they
    were too. *)
Theorem cascade_frame o l w :
  exists w',
    (_simulate_retries o l w = Returned tt w' \/
     _simulate_retries o l w = Raised "OverflowError" w') /\
    (schedulable (FailureIncident.timestamp (heap w l)) 3 ->
     _simulate_retries o l w = Returned tt w') /\
    same_identity (heap w l) (heap w' l) /\
    (FailureIncident.resolved (heap w' l) = true ->
     FailureIncident.manual_intervention (heap w' l)
       = FailureIncident.manual_intervention (heap w l) /\
     FailureIncident.intervention_type (heap w' l)
       = FailureIncident.intervention_type (heap w l)) /\
    (forall l', l' <> l -> heap w' l' = heap w l').
Proof.
  destruct (eligible (FailureIncident.failure_type (heap w l))) eqn:He.
  - destruct (_simulate_retries_outcome o l w He)
      as (w' & created & [(E & P & _) | (E & R)]).
    + destruct P as (_ & _ & Pout & _ & _ & Pi).
      exists w'. split; [now left |]. split; [intros _; exact E |].
      destruct Pout as (_ & _ & _ & _ & _ & _ & Hother).
      destruct Pi as [(_ & _ & _ & Q) | [(_ & _ & Q) | (Q0 & _ & _ & Q)]];
        rewrite Q.
      * unfold same_identity, resolved_in_round. repeat split. exact Hother.
      * unfold same_identity. repeat split. exact Hother.
      * unfold escalated.
        cbn [FailureIncident.set_manual_intervention
             FailureIncident.intervention_type].
        destruct (negb (truthy (FailureIncident.intervention_type (heap w l))));
          unfold same_identity;
          cbn [FailureIncident.set_intervention_type
               FailureIncident.set_manual_intervention
               FailureIncident.resolved FailureIncident.incident_id
               FailureIncident.signup_id FailureIncident.provider
               FailureIncident.failure_type FailureIncident.timestamp
               FailureIncident.error_message];
          (split; [repeat split |]);
          (split; [intro H; rewrite Q0 in H; discriminate H | exact Hother]).
    + exists w'. split; [now right |].
      split; [intro Hs; destruct (cascade_raised_not_schedulable _ _ _ _ _ R Hs) |].
      destruct R as (_ & _ & Rout & _ & _ & Rh & _).
      destruct Rout as (_ & _ & _ & _ & _ & _ & Hother).
      rewrite Rh. unfold same_identity. repeat split. exact Hother.
  - exists w.
    pose proof (_simulate_retries_ineligible o l w He) as E.
    split; [now left |]. split; [intros _; exact E |].
    unfold same_identity. repeat split.
Qed.

(** ** The metrics reduction: dictionaries and [max] *)

Lemma dict_get_set {V} (d : str_dict V) k v k' default :
  dict_get (dict_set d k v) k' default =
  if (k =? k')%string then v else dict_get d k' default.
Proof.
  induction d as [| [k0 v0] r IH]; simpl.
  - reflexivity.
  - destruct (String.eqb_spec k0 k) as [-> | Hne]; simpl.
    + destruct (k =? k')%string; reflexivity.
    + rewrite IH. destruct (String.eqb_spec k0 k') as [-> | Hne'].
      * destruct (String.eqb_spec k k') as [-> | _]; [congruence | reflexivity].
      * reflexivity.
Qed.

Lemma dict_set_keys_in {V} (d : str_dict V) k v :
  In k (map fst d) -> map fst (dict_set d k v) = map fst d.
Proof.
  induction d as [| [k0 v0] r IH]; simpl; intro H.
  - contradiction.
  - destruct (String.eqb_spec k0 k) as [-> | Hne]; simpl.
    + reflexivity.
    + f_equal. apply IH. destruct H as [H | H]; [contradiction | exact H].
Qed.

Lemma dict_set_keys_notin {V} (d : str_dict V) k v :
  ~ In k (map fst d) -> map fst (dict_set d k v) = map fst d ++ [k].
Proof.
  induction d as [| [k0 v0] r IH]; simpl; intro H.
  - reflexivity.
  - destruct (String.eqb_spec k0 k) as [-> | Hne]; simpl.
    + exfalso. apply H. now left.
    + f_equal. apply IH. intro Hin. apply H. now right.
Qed.

Lemma dict_get_in {V} (d : str_dict V) k v default :
  NoDup (map fst d) -> In (k, v) d -> dict_get d k default = v.
Proof.
  induction d as [| [k0 v0] r IH]; simpl; intros Hnd Hin.
  - contradiction.
  - inversion Hnd as [| ? ? Hnotin Hnd']; subst.
    destruct Hin as [Heq | Hin].
    + injection Heq as -> ->. now rewrite String.eqb_refl.
    + destruct (String.eqb_spec k0 k) as [-> | Hne].
      * exfalso. apply Hnotin. apply in_map_iff. now exists (k, v).
      * now apply IH.
Qed.

(** [max] returns an item of maximal key, and every item before it has a
    strictly smaller key. *)
Lemma py_max_from_spec {A} (key : A -> Z) (l : list A) :
  forall best,
  exists p q,
    best :: l = p ++ py_max_from key best l :: q /\
    (forall x, In x p -> key x < key (py_max_from key best l)) /\
    (forall x, In x (best :: l) -> key x <= key (py_max_from key best l)).
Proof.
  induction l as [| x r IH]; intro best; simpl py_max_from.
  - exists [], []. split; [reflexivity |]. split.
    + intros x [].
    + intros x [<- | []]. lia.
  - destruct (Z.ltb_spec (key best) (key x)) as [Hlt | Hge].
    + destruct (IH x) as (p & q & Hs & Hp & Hm).
      exists (best :: p), q. split; [simpl; now rewrite <- Hs |]. split.
      * intros y [<- | Hy]; [| now apply Hp].
        specialize (Hm x (or_introl eq_refl)). lia.
      * intros y [<- | Hy]; [| now apply Hm].
        specialize (Hm x (or_introl eq_refl)). lia.
    + destruct (IH best) as (p & q & Hs & Hp & Hm).
      destruct p as [| b p'].
      * simpl in Hs. injection Hs as Hb Hq.
        exists [], (x :: r). rewrite <- Hb. split; [reflexivity |]. split.
        -- intros y [].
        -- intros y [<- | [<- | Hy]]; [lia | lia |].
           rewrite Hb. apply Hm. now right.
      * simpl in Hs. injection Hs as Hb Hq. subst b.
        exists (best :: x :: p'), q. split; [simpl; now rewrite <- Hq |].
        split.
        -- intros y [<- | [<- | Hy]].
           ++ apply Hp. now left.
           ++ specialize (Hp best (or_introl eq_refl)). lia.
           ++ apply Hp. now right.
        -- intros y [<- | [<- | Hy]].
           ++ apply Hm. now left.
           ++ specialize (Hm best (or_introl eq_refl)). lia.
           ++ apply Hm. now right.
Qed.

Lemma count_keys_snoc ks k :
  count_keys (ks ++ [k]) =
  dict_set (count_keys ks) k (dict_get (count_keys ks) k 0 + 1).
Proof. unfold count_keys. now rewrite fold_left_app. Qed.

(** The loop counts: the entry of a key is its number of occurrences. *)
Lemma count_keys_get ks k :
  dict_get (count_keys ks) k 0 = count_string k ks.
Proof.
  unfold count_string.
  induction ks as [| k0 ks IH] using rev_ind.
  - reflexivity.
  - rewrite count_keys_snoc, dict_get_set, count_occ_app. simpl count_occ.
    destruct (String.eqb_spec k0 k) as [-> | Hne].
    + destruct (string_dec k k) as [_ | C]; [| contradiction].
      rewrite IH. lia.
    + destruct (string_dec k0 k) as [C | _]; [contradiction |].
      rewrite IH. f_equal. lia.
Qed.

(** The loop keeps the keys distinct and in the order of their first
    occurrence: whatever precedes the first occurrence of a key in the
    input is among the keys that precede it in the dictionary. *)
Lemma count_keys_order ks :
  NoDup (map fst (count_keys ks)) /\
  (forall k, In k (map fst (count_keys ks)) <-> In k ks) /\
  (forall K1 k K2,
     map fst (count_keys ks) = K1 ++ k :: K2 ->
     exists l1 l2,
       ks = l1 ++ k :: l2 /\ ~ In k l1 /\ (forall x, In x l1 -> In x K1)).
Proof.
  induction ks as [| k0 ks (Hnd & Hin & Hord)] using rev_ind.
  - split; [constructor |]. split; [reflexivity |].
    intros K1 k K2 H. destruct K1; discriminate H.
  - rewrite count_keys_snoc.
    set (d := count_keys ks) in *.
    set (v := dict_get d k0 0 + 1).
    destruct (in_dec string_dec k0 (map fst d)) as [Hk0 | Hk0].
    + rewrite (dict_set_keys_in d k0 v Hk0).
      split; [exact Hnd |]. split.
      * intro k. rewrite in_app_iff, Hin. simpl.
        split; [tauto |]. intros [H | [<- | []]]; [exact H | now apply Hin].
      * intros K1 k K2 HK.
        destruct (Hord K1 k K2 HK) as (l1 & l2 & -> & Hnot & Hsub).
        exists l1, (l2 ++ [k0]).
        split; [now rewrite <- app_assoc |]. now split.
    + rewrite (dict_set_keys_notin d k0 v Hk0).
      split.
      { apply NoDup_app; [exact Hnd | repeat constructor; intros [] |].
        intros a Ha [<- | []]. contradiction. }
      split.
      { intro k. rewrite !in_app_iff, Hin. reflexivity. }
      intros K1 k K2 HK.
      destruct K2 as [| z K2 _] using rev_ind.
      * apply app_inj_tail in HK as [HK <-].
        exists ks, []. split; [reflexivity |]. split.
        -- intro H. apply Hk0. now apply Hin.
        -- intros x Hx. rewrite <- HK. now apply Hin.
      * change (K1 ++ k :: K2 ++ [z]) with (K1 ++ (k :: K2) ++ [z]) in HK.
        rewrite app_assoc in HK.
        apply app_inj_tail in HK as [HK <-].
        destruct (Hord K1 k K2 HK) as (l1 & l2 & -> & Hnot & Hsub).
        exists l1, (l2 ++ [k0]).
        split; [now rewrite <- app_assoc |]. now split.
Qed.

(** The reported key: it has the highest count, and every key seen in the
    input before its first occurrence has a strictly smaller count. *)
Lemma most_common_count_keys ks :
  ks <> [] ->
  exists k l1 l2,
    most_common (count_keys ks) = Some k /\
    ks = l1 ++ k :: l2 /\
    ~ In k l1 /\
    (forall x, count_string x ks <= count_string k ks) /\
    (forall x, In x l1 -> count_string x ks < count_string k ks).
Proof.
  intro Hne.
  destruct (count_keys_order ks) as (Hnd & Hin & Hord).
  assert (Hval : forall x vx, In (x, vx) (count_keys ks) ->
                              vx = count_string x ks).
  { intros x vx Hx. rewrite <- count_keys_get.
    symmetry. now apply dict_get_in. }
  destruct (count_keys ks) as [| item items] eqn:Hd.
  - exfalso. destruct ks as [| k ks]; [now apply Hne |].
    apply (proj2 (Hin k)). now left.
  - unfold most_common.
    destruct (py_max_from_spec snd items item) as (p & q & Hs & Hp & Hm).
    destruct (py_max_from snd item items) as [k v] eqn:Hmax.
    simpl fst. simpl snd in Hp, Hm.
    destruct (Hord (map fst p) k (map fst q)) as (l1 & l2 & Hks & Hnot & Hsub).
    { rewrite Hs, map_app. reflexivity. }
    assert (Hv : v = count_string k ks).
    { apply Hval. rewrite Hs. apply in_elt. }
    exists k, l1, l2. split; [reflexivity |]. split; [exact Hks |].
    split; [exact Hnot |]. split.
    + intro x. destruct (in_dec string_dec x ks) as [Hx | Hx].
      * apply Hin in Hx. apply in_map_iff in Hx as ([x' vx] & Hfst & Hx).
        simpl in Hfst. subst x'.
        rewrite <- (Hval x vx Hx), <- Hv. exact (Hm (x, vx) Hx).
      * unfold count_string at 1.
        apply (count_occ_not_In string_dec) in Hx. rewrite Hx.
        unfold count_string. lia.
    + intros x Hx. apply Hsub in Hx.
      apply in_map_iff in Hx as ([x' vx] & Hfst & Hx).
      simpl in Hfst. subst x'.
      rewrite <- (Hval x vx), <- Hv.
      * exact (Hp (x, vx) Hx).
      * rewrite Hs. apply in_or_app. now left.
Qed.

Lemma count_string_value c cats :
  count_string (FailureType_value c) (map FailureType_value cats)
  = count_category c cats.
Proof.
  unfold count_string, count_category, len.
  f_equal.
  induction cats as [| a r IH]; [reflexivity |].
  simpl map. simpl filter. simpl count_occ.
  destruct (string_dec (FailureType_value a) (FailureType_value c)) as [E | N].
  - apply FailureType_value_inj in E. subst a.
    rewrite FailureType_eqb_refl. simpl. now rewrite IH.
  - destruct (FailureType_eqb c a) eqn:Eb.
    + apply FailureType_eqb_eq in Eb. subst a. contradiction.
    + exact IH.
Qed.

(** Two keys that both have the highest count and both precede every other
    key of that count are the same key. *)
Lemma first_seen_highest_unique ks k l1 l2 k' m1 m2 :
  ks = l1 ++ k :: l2 ->
  (forall x, count_string x ks <= count_string k ks) ->
  (forall x, In x l1 -> count_string x ks < count_string k ks) ->
  ks = m1 ++ k' :: m2 ->
  (forall x, count_string x ks <= count_string k' ks) ->
  (forall x, In x m1 -> count_string x ks < count_string k' ks) ->
  k = k'.
Proof.
  intros Hl Hmax Hbefore Hm Hmax' Hbefore'.
  assert (Heq : count_string k ks = count_string k' ks).
  { specialize (Hmax k'). specialize (Hmax' k). lia. }
  rewrite Hl in Hm.
  apply app_eq_app in Hm as [l [[H1 H2] | [H1 H2]]].
  - destruct l as [| y l'].
    + simpl in H2. now injection H2.
    + simpl in H2. injection H2 as <- _.
      assert (In k' l1) as Hin by (rewrite H1; apply in_or_app; right; now left).
      specialize (Hbefore k' Hin). lia.
  - destruct l as [| y l'].
    + simpl in H2. now injection H2.
    + simpl in H2. injection H2 as <- _.
      assert (In k m1) as Hin by (rewrite H1; apply in_or_app; right; now left).
      specialize (Hbefore' k Hin). lia.
Qed.

(** ** The metrics reduction: the claims *)

(** C4, as the specification states it, fails: with two [NETWORK_TIMEOUT]
    incidents followed by two [AUTHENTICATION_FAILED] incidents the two
    categories are tied for the highest count, [AUTHENTICATION_FAILED] is
    declared first, and the snapshot reports ["network_timeout"]. *)
Lemma most_common_failure_ignores_declaration_order :
  incident_categories tie_world =
    [NETWORK_TIMEOUT; NETWORK_TIMEOUT;
     AUTHENTICATION_FAILED; AUTHENTICATION_FAILED] /\
  count_category NETWORK_TIMEOUT (incident_categories tie_world) = 2 /\
  count_category AUTHENTICATION_FAILED (incident_categories tie_world) = 2 /\
  (forall c, count_category c (incident_categories tie_world) <= 2) /\
  (declaration_index AUTHENTICATION_FAILED
   < declaration_index NETWORK_TIMEOUT)%nat /\
  exists s,
    calculate_reliability_metrics tie_world = Returned s tie_world /\
    Snapshot.most_common_failure (Snapshot.failure_analysis s)
      = Some "network_timeout" /\
    Snapshot.most_common_failure (Snapshot.failure_analysis s)
      <> Some (FailureType_value AUTHENTICATION_FAILED).
Proof.
  split; [reflexivity |]. split; [reflexivity |]. split; [reflexivity |].
  split; [intros []; vm_compute; discriminate |].
  split; [vm_compute; lia |].
  eexists. split; [reflexivity |].
  split; [vm_compute; reflexivity | vm_compute; discriminate].
Qed.

(** C4 (amended): the snapshot reports the category that has the highest
    incident count and whose first incident comes, in the evaluator's
    incident list, before every incident of any other category with that
    count; the reduction leaves the ledger as it is, so repeating it gives
    the same answer. *)
Theorem most_common_failure_is_first_seen_among_highest w c before after :
  incident_categories w = before ++ c :: after ->
  (forall c', count_category c' (incident_categories w)
              <= count_category c (incident_categories w)) ->
  (forall c', In c' before ->
              count_category c' (incident_categories w)
              < count_category c (incident_categories w)) ->
  exists s,
    calculate_reliability_metrics w = Returned s w /\
    Snapshot.most_common_failure (Snapshot.failure_analysis s)
      = Some (FailureType_value c).
Proof.
  intros Hcats Hmax Hbefore.
  eexists. split; [reflexivity |].
  cbn [Snapshot.failure_analysis Snapshot.most_common_failure].
  rewrite map_map.
  change (map (fun x => FailureType_value
                          (FailureIncident.failure_type (heap w x)))
            (failure_incidents w))
    with (map (fun l => FailureType_value
                          ((fun l => FailureIncident.failure_type (heap w l)) l))
            (failure_incidents w)).
  rewrite <- (map_map (fun l => FailureIncident.failure_type (heap w l))
                FailureType_value).
  fold (incident_categories w).
  set (cats := incident_categories w) in *.
  set (ks := map FailureType_value cats).
  assert (Hks : ks = map FailureType_value before
                     ++ FailureType_value c :: map FailureType_value after).
  { unfold ks. rewrite Hcats, map_app. reflexivity. }
  destruct (most_common_count_keys ks) as (k & l1 & l2 & Hmc & Hs & _ & Hm & Hb).
  { rewrite Hks. intro H. destruct (map FailureType_value before); discriminate H. }
  rewrite Hmc. f_equal.
  apply (first_seen_highest_unique ks k l1 l2 (FailureType_value c)
           (map FailureType_value before) (map FailureType_value after));
    try assumption.
  - intro x. destruct (in_dec string_dec x ks) as [Hx | Hx].
    + apply in_map_iff in Hx as (c' & <- & _).
      unfold ks. rewrite !count_string_value. apply Hmax.
    + unfold count_string at 1.
      apply (count_occ_not_In string_dec) in Hx. rewrite Hx.
      unfold count_string. lia.
  - intros x Hx. apply in_map_iff in Hx as (c' & <- & Hc').
    unfold ks. rewrite !count_string_value. now apply Hbefore.
Qed.

Lemma most_common_failure_is_first_seen_among_highest_witness :
  exists s,
    calculate_reliability_metrics tie_world = Returned s tie_world /\
    Snapshot.most_common_failure (Snapshot.failure_analysis s)
      = Some (FailureType_value NETWORK_TIMEOUT).
Proof.
  apply (most_common_failure_is_first_seen_among_highest tie_world
           NETWORK_TIMEOUT []
           [NETWORK_TIMEOUT; AUTHENTICATION_FAILED; AUTHENTICATION_FAILED]).
  - reflexivity.
  - intros c'. destruct c'; vm_compute; discriminate.
  - intros c' H. destruct H.
Defined.

(** With fewer than two failed attempts the MTBF block yields the internal
    marker [float('inf')]. *)
Lemma compute_mtbf_hours_few failed :
  (List.length failed <= 1)%nat ->
  compute_mtbf_hours failed = PrimFloat.infinity.
Proof.
  intro H. unfold compute_mtbf_hours, len.
  destruct (Z.gtb_spec (Z.of_nat (List.length failed)) 1) as [Hgt | _];
    [lia | reflexivity].
Qed.

(** C2, as the specification states it, fails: with a single failed
    attempt the snapshot's MTBF entry is the number 0, equal (by [==]) to
    the numeric value 0 and to the entry of a ledger whose two failures
    coincide in time, whose MTBF is a true zero. *)
Lemma mtbf_of_single_failure_is_numeric_zero :
  List.length
    (failed_attempts_of (world_of_attempts [failed_at 1000; succeeded_at 2000]))
    = 1%nat /\
  exists s s0,
    calculate_reliability_metrics
      (world_of_attempts [failed_at 1000; succeeded_at 2000])
      = Returned s (world_of_attempts [failed_at 1000; succeeded_at 2000]) /\
    Snapshot.mtbf_hours (Snapshot.overall_metrics s) = PyInt 0 /\
    py_num_eq (Snapshot.mtbf_hours (Snapshot.overall_metrics s)) (PyInt 0)
      = true /\
    calculate_reliability_metrics
      (world_of_attempts [failed_at 1000; failed_at 1000])
      = Returned s0 (world_of_attempts [failed_at 1000; failed_at 1000]) /\
    Snapshot.mtbf_hours (Snapshot.overall_metrics s0) = PyFloat 0%float /\
    py_num_eq (Snapshot.mtbf_hours (Snapshot.overall_metrics s))
      (Snapshot.mtbf_hours (Snapshot.overall_metrics s0)) = true.
Proof.
  split; [reflexivity |].
  eexists. eexists.
  split; [reflexivity |].
  split; [vm_compute; reflexivity |].
  split; [vm_compute; reflexivity |].
  split; [reflexivity |].
  split; vm_compute; reflexivity.
Qed.

(** C2 (amended): for a ledger with 0 or 1 failed attempts the reduction
    returns (nothing is raised), the MTBF block yields the internal marker
    [float('inf')], and the snapshot's MTBF entry is the integer 0. *)
Theorem mtbf_without_two_failures_is_zero w :
  (List.length (failed_attempts_of w) <= 1)%nat ->
  compute_mtbf_hours (failed_attempts_of w) = PrimFloat.infinity /\
  exists s,
    calculate_reliability_metrics w = Returned s w /\
    Snapshot.mtbf_hours (Snapshot.overall_metrics s) = PyInt 0.
Proof.
  intro H. pose proof (compute_mtbf_hours_few _ H) as Hinf.
  split; [exact Hinf |].
  eexists. split; [reflexivity |].
  cbn [Snapshot.overall_metrics Snapshot.mtbf_hours].
  unfold failed_attempts_of in Hinf. rewrite Hinf. reflexivity.
Qed.

Lemma mtbf_without_two_failures_is_zero_witness :
  compute_mtbf_hours
    (failed_attempts_of (world_of_attempts [failed_at 1000; succeeded_at 2000]))
    = PrimFloat.infinity /\
  exists s,
    calculate_reliability_metrics
      (world_of_attempts [failed_at 1000; succeeded_at 2000])
      = Returned s (world_of_attempts [failed_at 1000; succeeded_at 2000]) /\
    Snapshot.mtbf_hours (Snapshot.overall_metrics s) = PyInt 0.
Proof.
  apply (mtbf_without_two_failures_is_zero
           (world_of_attempts [failed_at 1000; succeeded_at 2000])).
  simpl. lia.
Defined.

(** Two failures two hours apart: the MTBF entry is the float [2.0]. *)
Example mtbf_two_hours :
  compute_mtbf_hours [failed_at (1000 + 7200000000); failed_at 1000]
  = 2%float.
Proof. vm_compute. reflexivity. Qed.

(** * Further properties of the evaluator *)

(** ** The classifier *)

Lemma select_failure_type_in table rand acc default :
  select_failure_type table rand acc default = default \/
  In (select_failure_type table rand acc default) (map fst table).
Proof.
  revert acc. induction table as [| [ft weight] rest IH]; intro acc; simpl.
  - now left.
  - destruct (PrimFloat.leb rand (PrimFloat.add acc weight)).
    + right. now left.
    + destruct (IH (PrimFloat.add acc weight)) as [H | H];
        [now left | right; now right].
Qed.

Lemma default_category_in_every_table provider :
  In NETWORK_TIMEOUT (map fst (failure_types_of provider)).
Proof.
  unfold failure_types_of.
  destruct (provider =? "skiclubpro")%string; [simpl; tauto |].
  destruct (provider =? "daysmart")%string; simpl; tauto.
Qed.

Lemma classified_category_in_table provider rand :
  In (select_failure_type (failure_types_of provider) rand PrimFloat.zero
        NETWORK_TIMEOUT)
     (map fst (failure_types_of provider)).
Proof.
  destruct (select_failure_type_in (failure_types_of provider) rand
              PrimFloat.zero NETWORK_TIMEOUT) as [H | H].
  - rewrite H. apply default_category_in_every_table.
  - exact H.
Qed.

(** X1: whatever the provider string and the draw, the category of the
    incident the classifier creates is one of the categories listed in the
    weight table used for that provider; the default [NETWORK_TIMEOUT] adds
    nothing, since every table lists it. *)
Theorem classifier_stays_in_table signup_id provider timestamp w :
  exists l w',
    _generate_failure_incident signup_id provider timestamp w
      = Returned l w' /\
    In (FailureIncident.failure_type (heap w' l))
       (map fst (failure_types_of provider)).
Proof.
  destruct (_generate_failure_incident_returns signup_id provider timestamp w)
    as (w' & E & Hh & _).
  exists (next_loc w), w'. split; [exact E |].
  rewrite Hh. cbn [FailureIncident.failure_type].
  apply classified_category_in_table.
Qed.

(** The weights of every table add up, in binary64, to exactly [1.0]. *)
Lemma last_cumulative_weight_is_one provider :
  cumulative_weight (failure_types_of provider)
    (List.length (failure_types_of provider) - 1) = 1%float /\
  (List.length (failure_types_of provider) - 1
   < List.length (failure_types_of provider))%nat.
Proof.
  unfold failure_types_of.
  destruct (provider =? "skiclubpro")%string;
    [split; [vm_compute; reflexivity | simpl; lia] |].
  destruct (provider =? "daysmart")%string;
    split; try (vm_compute; reflexivity); simpl; lia.
Qed.

(** X2: for a draw not above [1.0] (every value of [random.random()] is
    below it) the walk always stops at a table entry: the category is that
    of the first entry whose cumulative weight reaches the draw, and the
    default assignment before the loop is never what decides it. *)
Theorem draw_within_unit_selects_an_entry signup_id provider timestamp w :
  PrimFloat.leb (next_draw w) 1%float = true ->
  exists l w' i ft weight,
    _generate_failure_incident signup_id provider timestamp w
      = Returned l w' /\
    nth_error (failure_types_of provider) i = Some (ft, weight) /\
    meets (failure_types_of provider) (next_draw w) i = true /\
    (forall j, (j < i)%nat ->
       meets (failure_types_of provider) (next_draw w) j = false) /\
    FailureIncident.failure_type (heap w' l) = ft.
Proof.
  intro Hle.
  destruct (_generate_failure_incident_returns signup_id provider timestamp w)
    as (w' & E & Hh & _).
  destruct (select_failure_type_spec (failure_types_of provider) (next_draw w)
              PrimFloat.zero NETWORK_TIMEOUT)
    as [(i & ft & weight & Hn & Hi & Hlt & Hsel) | [Hall _]].
  - exists (next_loc w), w', i, ft, weight.
    split; [exact E |]. split; [exact Hn |]. split; [exact Hi |].
    split; [exact Hlt |].
    rewrite Hh. cbn [FailureIncident.failure_type]. exact Hsel.
  - exfalso.
    destruct (last_cumulative_weight_is_one provider) as [Hone Hlast].
    specialize (Hall _ Hlast).
    change (fold_left PrimFloat.add
              (map snd
                 (firstn (S (List.length (failure_types_of provider) - 1))
                    (failure_types_of provider))) PrimFloat.zero)
      with (cumulative_weight (failure_types_of provider)
              (List.length (failure_types_of provider) - 1)) in Hall.
    rewrite Hone, Hle in Hall. discriminate Hall.
Qed.

Lemma draw_within_unit_selects_an_entry_witness :
  exists l w' i ft weight,
    _generate_failure_incident "signup_0001" "daysmart" 1000
      (fresh_world 0.6%float) = Returned l w' /\
    nth_error (failure_types_of "daysmart") i = Some (ft, weight) /\
    meets (failure_types_of "daysmart") (next_draw (fresh_world 0.6%float)) i
      = true /\
    (forall j, (j < i)%nat ->
       meets (failure_types_of "daysmart")
         (next_draw (fresh_world 0.6%float)) j = false) /\
    FailureIncident.failure_type (heap w' l) = ft.
Proof.
  apply (draw_within_unit_selects_an_entry "signup_0001" "daysmart" 1000
           (fresh_world 0.6%float)).
  vm_compute. reflexivity.
Defined.

(** X3: the classifier names an intervention type exactly when it flags
    the incident for manual intervention (the three [if]/[elif] tests cover
    the three flagged categories), and the type is never
    [PAYMENT_METHOD_UPDATE] or [SYSTEM_RESTART]. *)
Theorem classifier_intervention_is_consistent signup_id provider timestamp w :
  exists l w',
    _generate_failure_incident signup_id provider timestamp w
      = Returned l w' /\
    (FailureIncident.manual_intervention (heap w' l) = true <->
     FailureIncident.intervention_type (heap w' l) <> None) /\
    FailureIncident.intervention_type (heap w' l)
      <> Some PAYMENT_METHOD_UPDATE /\
    FailureIncident.intervention_type (heap w' l) <> Some SYSTEM_RESTART.
Proof.
  destruct (_generate_failure_incident_returns signup_id provider timestamp w)
    as (w' & E & Hh & _).
  exists (next_loc w), w'. split; [exact E |].
  rewrite Hh.
  cbn [FailureIncident.manual_intervention FailureIncident.intervention_type].
  destruct (select_failure_type (failure_types_of provider) (next_draw w)
              PrimFloat.zero NETWORK_TIMEOUT);
    simpl; (split; [split; [discriminate || (intros _; discriminate)
                           | intro H; reflexivity || (now contradiction H) ]
                   | split; discriminate]).
Qed.

(** X4: [_get_error_message] never falls back to the default text of its
    [dict.get]: every category has its own entry, and different categories
    have different messages. *)
Theorem error_messages_are_specific ft ft' :
  _get_error_message ft <> "Unknown error occurred" /\
  (_get_error_message ft = _get_error_message ft' -> ft = ft').
Proof.
  split.
  - destruct ft; vm_compute; discriminate.
  - destruct ft, ft'; vm_compute; intro H; try reflexivity; discriminate H.
Qed.

(** ** The retry cascade *)

(** X5: called on an incident that is already resolved, the cascade does
    nothing at all: no attempt is appended, no draw is consumed, the
    incident is not touched and nothing is raised. *)
Theorem cascade_on_resolved_incident_is_noop o l w :
  FailureIncident.resolved (heap w l) = true ->
  _simulate_retries o l w = Returned tt w.
Proof.
  intro Hres.
  unfold _simulate_retries. unfold bind at 1. unfold deref at 1.
  destruct (py_in (FailureIncident.failure_type (heap w l))
              [PROGRAM_FULL; PAYMENT_DECLINED]); [reflexivity |].
  unfold bind at 1. rewrite retry_loop_eq, Hres.
  rewrite andb_false_r.
  unfold bind, deref. rewrite Hres. reflexivity.
Qed.

Lemma cascade_on_resolved_incident_is_noop_witness :
  _simulate_retries original_attempt 0%nat
    (after_cascade 0.5%float 0.5%float 0.5%float)
  = Returned tt (after_cascade 0.5%float 0.5%float 0.5%float).
Proof.
  apply (cascade_on_resolved_incident_is_noop original_attempt 0%nat
           (after_cascade 0.5%float 0.5%float 0.5%float)).
  vm_compute. reflexivity.
Defined.

(** X6: in every run, whether the cascade returns or the scheduling of a
    round raises [OverflowError], it has appended at most three attempts,
    has called [random.random()] exactly once per attempt appended (a round
    that cannot be scheduled raises before its draw), and has left the
    evaluator's incident list, the allocation of incident objects and the
    incident-id source as they were.  It returns whenever the incident
    leaves room for three rounds. *)
Theorem cascade_draws_once_per_attempt o l w :
  exists w' created,
    (_simulate_retries o l w = Returned tt w' \/
     _simulate_retries o l w = Raised "OverflowError" w') /\
    (schedulable (FailureIncident.timestamp (heap w l)) 3 ->
     _simulate_retries o l w = Returned tt w') /\
    signup_attempts w' = signup_attempts w ++ created /\
    (List.length created <= 3)%nat /\
    random_calls w' = (List.length created + random_calls w)%nat /\
    failure_incidents w' = failure_incidents w /\
    next_loc w' = next_loc w /\
    incident_id_calls w' = incident_id_calls w.
Proof.
  destruct (eligible (FailureIncident.failure_type (heap w l))) eqn:He.
  - destruct (_simulate_retries_outcome o l w He)
      as (w' & created & [(E & P & _) | (E & R)]).
    + destruct P as (Pa & _ & Pout & Pb & _).
      destruct Pout as (H1 & H2 & _ & H4 & _ & H6 & _).
      exists w', created. split; [now left |]. split; [intros _; exact E |].
      repeat split; assumption.
    + exists w', created. split; [now right |].
      split; [intro Hs;
              destruct (cascade_raised_not_schedulable _ _ _ _ _ R Hs) |].
      destruct R as (Ra & _ & Rout & Rb & _).
      destruct Rout as (H1 & H2 & _ & H4 & _ & H6 & _).
      repeat split; try assumption. lia.
  - exists w, [].
    pose proof (_simulate_retries_ineligible o l w He) as E.
    split; [now left |]. split; [intros _; exact E |].
    rewrite app_nil_r. simpl. repeat split; lia.
Qed.

(** X7: the cascade never takes anything back, whether it returns or the
    scheduling of a round raises [OverflowError]: an incident that was
    resolved stays resolved, a [manual_intervention] flag that was set stays
    set, and an intervention type that was set is not overwritten.  It
    returns whenever the incident leaves room for three rounds. *)
Theorem cascade_never_retracts o l w :
  exists w',
    (_simulate_retries o l w = Returned tt w' \/
     _simulate_retries o l w = Raised "OverflowError" w') /\
    (schedulable (FailureIncident.timestamp (heap w l)) 3 ->
     _simulate_retries o l w = Returned tt w') /\
    (FailureIncident.resolved (heap w l) = true ->
     FailureIncident.resolved (heap w' l) = true) /\
    (FailureIncident.manual_intervention (heap w l) = true ->
     FailureIncident.manual_intervention (heap w' l) = true) /\
    (forall it,
       FailureIncident.intervention_type (heap w l) = Some it ->
       FailureIncident.intervention_type (heap w' l) = Some it).
Proof.
  destruct (eligible (FailureIncident.failure_type (heap w l))) eqn:He.
  - destruct (_simulate_retries_outcome o l w He)
      as (w' & created & [(E & P & _) | (E & R)]).
    + destruct P as (_ & _ & _ & _ & _ & Pi).
      exists w'. split; [now left |]. split; [intros _; exact E |].
      destruct Pi as [(_ & _ & Q0 & Q) | [(_ & _ & Q) | (Q0 & _ & _ & Q)]];
        rewrite Q.
      * split; [intro H; rewrite Q0 in H; discriminate H |].
        split; [intro H; exact H | intros it H; exact H].
      * repeat split; intros; assumption.
      * split; [intro H; rewrite Q0 in H; discriminate H |].
        unfold escalated.
        cbn [FailureIncident.set_manual_intervention
             FailureIncident.intervention_type].
        destruct (FailureIncident.intervention_type (heap w l)) as [it0 |]
          eqn:Hit;
          cbn [truthy negb FailureIncident.set_intervention_type
               FailureIncident.set_manual_intervention
               FailureIncident.manual_intervention
               FailureIncident.intervention_type];
          rewrite ?Hit;
          (split; [reflexivity |]); intros it H; [exact H | discriminate H].
    + exists w'. split; [now right |].
      split; [intro Hs;
              destruct (cascade_raised_not_schedulable _ _ _ _ _ R Hs) |].
      destruct R as (_ & _ & _ & _ & _ & Rh & _).
      rewrite Rh. repeat split; intros; assumption.
  - exists w.
    pose proof (_simulate_retries_ineligible o l w He) as E.
    split; [now left |]. split; [intros _; exact E |].
    repeat split; intros; assumption.
Qed.

Lemma nth_error_last {A} (init : list A) (last : A) :
  nth_error (init ++ [last]) (List.length init) = Some last.
Proof.
  rewrite nth_error_app2 by lia. now rewrite Nat.sub_diag.
Qed.

Lemma in_init_nth_error {A} (init : list A) (last a : A) :
  In a init ->
  exists j, (S j < List.length (init ++ [last]))%nat /\
            nth_error (init ++ [last]) j = Some a.
Proof.
  intro H. apply In_nth_error in H as [j Hj].
  exists j. pose proof (nth_error_some_lt _ _ _ Hj) as Hlt.
  split.
  - rewrite length_app. simpl. lia.
  - rewrite nth_error_app1 by exact Hlt. exact Hj.
Qed.

(** X8: on an unresolved incident, the attempts the cascade has appended
    mirror the incident's fate, whether the cascade returns or the
    scheduling of a round raises [OverflowError].  If the incident ends
    resolved, the cascade has returned, the last attempt appended is
    successful, all earlier ones failed, and the incident's
    [resolution_time] is the timestamp of that last attempt; if it ends
    unresolved, every attempt appended failed.  The cascade returns whenever
    the incident leaves room for three rounds. *)
Theorem cascade_attempts_mirror_resolution o l w :
  FailureIncident.resolved (heap w l) = false ->
  exists w' created,
    (_simulate_retries o l w = Returned tt w' \/
     _simulate_retries o l w = Raised "OverflowError" w') /\
    (schedulable (FailureIncident.timestamp (heap w l)) 3 ->
     _simulate_retries o l w = Returned tt w') /\
    signup_attempts w' = signup_attempts w ++ created /\
    (FailureIncident.resolved (heap w' l) = true ->
     _simulate_retries o l w = Returned tt w' /\
     exists init last,
       created = init ++ [last] /\
       SignupAttempt.success last = true /\
       (forall a, In a init -> SignupAttempt.success a = false) /\
       FailureIncident.resolution_time (heap w' l)
         = Some (SignupAttempt.timestamp last)) /\
    (FailureIncident.resolved (heap w' l) = false ->
     forall a, In a created -> SignupAttempt.success a = false).
Proof.
  intro Hres.
  destruct (eligible (FailureIncident.failure_type (heap w l))) eqn:He.
  - destruct (_simulate_retries_outcome o l w He)
      as (w' & created & [(E & P & _) | (E & R)]).
    + destruct P as (Pa & Pn & _ & _ & Pf & Pi).
      exists w', created. split; [now left |]. split; [intros _; exact E |].
      split; [exact Pa |].
      destruct Pi as [(Q1 & Q2 & _ & Q) | [(Q0 & _) | (_ & Qn & Qf & Q)]].
      * split; [intros _; split; [exact E |] | rewrite Q; discriminate].
        destruct (exists_last (l := created)) as (init & last & Hc).
        { intro H. rewrite H in Q1. simpl in Q1. lia. }
        exists init, last. split; [exact Hc |].
        assert (Hlen : List.length created = S (List.length init)).
        { rewrite Hc, length_app. simpl. lia. }
        assert (Hlast : last = retry_attempt o
                                 (FailureIncident.timestamp (heap w l))
                                 (Z.of_nat (List.length created)) true).
        { rewrite <- Q2, Hlen.
          replace (S (List.length init) - 1)%nat with (List.length init) by lia.
          apply Pn. rewrite Hc. apply nth_error_last. }
        split; [rewrite Hlast; reflexivity |]. split.
        -- intros a Ha.
           destruct (in_init_nth_error init last a Ha) as (j & Hj & Hn).
           rewrite <- Hc in Hj, Hn.
           rewrite (Pn j a Hn). cbn [retry_attempt SignupAttempt.success].
           now apply Pf.
        -- rewrite Q, Hlast. reflexivity.
      * rewrite Q0 in Hres. discriminate Hres.
      * split.
        -- rewrite Q. unfold escalated.
           destruct (negb (truthy
                       (FailureIncident.intervention_type
                          (FailureIncident.set_manual_intervention true
                             (heap w l)))));
             cbn [FailureIncident.set_intervention_type
                  FailureIncident.set_manual_intervention
                  FailureIncident.resolved];
             rewrite Hres; discriminate.
        -- intros _ a Ha. apply In_nth_error in Ha as [j Hj].
           pose proof (nth_error_some_lt _ _ _ Hj) as Hlt.
           rewrite (Pn j a Hj). cbn [retry_attempt SignupAttempt.success].
           apply Qf. lia.
    + exists w', created. split; [now right |].
      split; [intro Hs;
              destruct (cascade_raised_not_schedulable _ _ _ _ _ R Hs) |].
      destruct R as (Ra & Rn & _ & _ & _ & Rh & _).
      split; [exact Ra |]. rewrite Rh.
      split; [intro H; rewrite Hres in H; discriminate H |].
      intros _ a Ha. apply In_nth_error in Ha as [j Hj].
      now rewrite (Rn j a Hj).
  - exists w, [].
    pose proof (_simulate_retries_ineligible o l w He) as E.
    split; [now left |]. split; [intros _; exact E |].
    rewrite app_nil_r. split; [reflexivity |].
    split; [intro H; rewrite Hres in H; discriminate H |].
    intros _ a [].
Qed.

Lemma cascade_attempts_mirror_resolution_witness :
  exists w' created,
    (_simulate_retries original_attempt 0%nat
       (rate_limited_world 0.9%float 0.5%float 0.5%float) = Returned tt w' \/
     _simulate_retries original_attempt 0%nat
       (rate_limited_world 0.9%float 0.5%float 0.5%float)
       = Raised "OverflowError" w') /\
    (schedulable
       (FailureIncident.timestamp
          (heap (rate_limited_world 0.9%float 0.5%float 0.5%float) 0%nat)) 3 ->
     _simulate_retries original_attempt 0%nat
       (rate_limited_world 0.9%float 0.5%float 0.5%float) = Returned tt w') /\
    signup_attempts w' =
      signup_attempts (rate_limited_world 0.9%float 0.5%float 0.5%float)
        ++ created /\
    (FailureIncident.resolved (heap w' 0%nat) = true ->
     _simulate_retries original_attempt 0%nat
       (rate_limited_world 0.9%float 0.5%float 0.5%float) = Returned tt w' /\
     exists init last,
       created = init ++ [last] /\
       SignupAttempt.success last = true /\
       (forall a, In a init -> SignupAttempt.success a = false) /\
       FailureIncident.resolution_time (heap w' 0%nat)
         = Some (SignupAttempt.timestamp last)) /\
    (FailureIncident.resolved (heap w' 0%nat) = false ->
     forall a, In a created -> SignupAttempt.success a = false).
Proof.
  apply (cascade_attempts_mirror_resolution original_attempt 0%nat
           (rate_limited_world 0.9%float 0.5%float 0.5%float)).
  vm_compute. reflexivity.
Defined.

(** X25: the cascade near the end of the [datetime] range.  On a
    retry-eligible, unresolved incident whose rounds before round [k]
    (1 <= k <= 3) can be scheduled and fail, and whose round [k] falls past
    [datetime.max], the cascade raises [OverflowError] when it schedules
    round [k]: the [k - 1] failed attempts of the earlier rounds have been
    appended, with one draw each, and the incident object is exactly as it
    was, neither resolved nor escalated, because the exception skips the
    block after the loop. *)
Theorem cascade_raises_past_datetime_max o l w k :
  eligible (FailureIncident.failure_type (heap w l)) = true ->
  FailureIncident.resolved (heap w l) = false ->
  (1 <= k <= 3)%nat ->
  datetime_min <= FailureIncident.timestamp (heap w l) ->
  scheduled (FailureIncident.timestamp (heap w l)) (Z.of_nat k - 1)
    <= datetime_max ->
  datetime_max < scheduled (FailureIncident.timestamp (heap w l)) (Z.of_nat k) ->
  (forall j, (S j < k)%nat -> retry_succeeds w j = false) ->
  exists w' created,
    _simulate_retries o l w = Raised "OverflowError" w' /\
    signup_attempts w' = signup_attempts w ++ created /\
    List.length created = (k - 1)%nat /\
    (forall j a, nth_error created j = Some a ->
       a = retry_attempt o (FailureIncident.timestamp (heap w l))
             (Z.of_nat (S j)) false) /\
    random_calls w' = (k - 1 + random_calls w)%nat /\
    heap w' l = heap w l.
Proof.
  intros He Hres Hk Hlo Hprev Hpast Hfail.
  assert (Hfit : forall j, 1 <= j < Z.of_nat k ->
            in_datetime_range
              (scheduled (FailureIncident.timestamp (heap w l)) j) = true).
  { intros j Hj. apply (schedulable_round _ (Z.of_nat k - 1)); [| lia].
    now split. }
  assert (Hno : forall j, Z.of_nat k <= j ->
            in_datetime_range
              (scheduled (FailureIncident.timestamp (heap w l)) j) = false).
  { intros j Hj. unfold in_datetime_range. apply andb_false_iff. right.
    apply Z.leb_gt. revert Hpast. unfold scheduled, timedelta_minutes. lia. }
  destruct (_simulate_retries_outcome o l w He)
    as (w' & created & [(E & P & Pfit) | (E & R)]).
  - (* a cascade that returns has scheduled its last round *)
    exfalso.
    destruct P as (_ & _ & _ & _ & Pf & Pi).
    assert (Hn : (k <= List.length created)%nat).
    { destruct Pi as [(Q1 & Q2 & _) | [(Q & _) | (_ & Qn & _)]].
      - destruct (Nat.le_gt_cases k (List.length created)) as [H | H];
          [exact H |].
        rewrite Hfail in Q2 by lia. discriminate Q2.
      - rewrite Q in Hres. discriminate Hres.
      - lia. }
    specialize (Pfit (k - 1)%nat ltac:(lia)).
    rewrite Hno in Pfit by lia. discriminate Pfit.
  - destruct R as (Ra & Rn & Rout & Rb & Rf & Rh & _ & Rfit & Rno).
    assert (Hn : List.length created = (k - 1)%nat).
    { destruct (Nat.lt_trichotomy (List.length created) (k - 1))
        as [Hlt | [Heq | Hgt]]; [| exact Heq |].
      - rewrite Hfit in Rno by lia. discriminate Rno.
      - specialize (Rfit (k - 1)%nat Hgt).
        rewrite Hno in Rfit by lia. discriminate Rfit. }
    exists w', created. split; [exact E |]. split; [exact Ra |].
    split; [exact Hn |]. split; [exact Rn |].
    destruct Rout as (_ & _ & _ & H4 & _).
    split; [rewrite H4, Hn; reflexivity | exact Rh].
Qed.

Lemma cascade_raises_past_datetime_max_witness :
  exists w' created,
    _simulate_retries original_attempt 0%nat
      (late_incident_world 0.9%float 0.9%float 0.9%float)
      = Raised "OverflowError" w' /\
    signup_attempts w' =
      signup_attempts (late_incident_world 0.9%float 0.9%float 0.9%float)
        ++ created /\
    List.length created = (2 - 1)%nat /\
    (forall j a, nth_error created j = Some a ->
       a = retry_attempt original_attempt
             (FailureIncident.timestamp
                (heap (late_incident_world 0.9%float 0.9%float 0.9%float)
                   0%nat))
             (Z.of_nat (S j)) false) /\
    random_calls w' =
      (2 - 1
       + random_calls (late_incident_world 0.9%float 0.9%float 0.9%float))%nat /\
    heap w' 0%nat
      = heap (late_incident_world 0.9%float 0.9%float 0.9%float) 0%nat.
Proof.
  apply (cascade_raises_past_datetime_max original_attempt 0%nat
           (late_incident_world 0.9%float 0.9%float 0.9%float) 2%nat).
  - vm_compute; reflexivity.
  - vm_compute; reflexivity.
  - lia.
  - vm_compute; discriminate.
  - vm_compute; discriminate.
  - vm_compute; reflexivity.
  - intros j Hj. assert (j = 0%nat) as -> by lia. vm_compute; reflexivity.
Defined.

(** ** The metrics reduction: counts and breakdowns *)

Lemma filter_partition {A} (f : A -> bool) (l : list A) :
  (List.length (filter f l) + List.length (filter (fun x => negb (f x)) l)
   = List.length l)%nat.
Proof.
  induction l as [| x r IH]; simpl; [reflexivity |].
  destruct (f x); simpl; lia.
Qed.

Lemma filter_length_le {A} (f : A -> bool) (l : list A) :
  (List.length (filter f l) <= List.length l)%nat.
Proof.
  induction l as [| x r IH]; simpl; [lia |]. destruct (f x); simpl; lia.
Qed.

(** X9: the counts of a snapshot are consistent for every ledger:
    successful and failed attempts add up to the total, the successful
    retries are among the retries and the retries among the attempts, and
    the resolved incidents and the manual interventions are among the
    incidents. *)
Theorem snapshot_counts_are_consistent w :
  exists s,
    calculate_reliability_metrics w = Returned s w /\
    let o := Snapshot.overall_metrics s in
    let r := Snapshot.retry_metrics s in
    let c := Snapshot.recovery_metrics s in
    Snapshot.successful_attempts o + Snapshot.failed_attempts o
      = Snapshot.total_attempts o /\
    Snapshot.total_attempts o = len (signup_attempts w) /\
    0 <= Snapshot.successful_retries r <= Snapshot.total_retries r /\
    Snapshot.total_retries r <= Snapshot.total_attempts o /\
    Snapshot.total_incidents c = len (failure_incidents w) /\
    0 <= Snapshot.resolved_incidents c <= Snapshot.total_incidents c /\
    0 <= Snapshot.manual_interventions (Snapshot.intervention_metrics s)
      <= Snapshot.total_incidents c.
Proof.
  eexists. split; [reflexivity |].
  cbn [Snapshot.overall_metrics Snapshot.retry_metrics
       Snapshot.recovery_metrics Snapshot.intervention_metrics
       Snapshot.successful_attempts Snapshot.failed_attempts
       Snapshot.total_attempts Snapshot.successful_retries
       Snapshot.total_retries Snapshot.total_incidents
       Snapshot.resolved_incidents Snapshot.manual_interventions].
  unfold len.
  pose proof (filter_partition (fun a => SignupAttempt.success a)
                (signup_attempts w)).
  pose proof (filter_length_le
                (fun a => is_not_None (SignupAttempt.retry_of a))
                (signup_attempts w)).
  pose proof (filter_length_le (fun a => SignupAttempt.success a)
                (filter (fun a => is_not_None (SignupAttempt.retry_of a))
                   (signup_attempts w))).
  pose proof (filter_length_le (fun i => FailureIncident.resolved i)
                (map (heap w) (failure_incidents w))).
  pose proof (filter_length_le (fun i => FailureIncident.manual_intervention i)
                (map (heap w) (failure_incidents w))).
  cbv beta in *. rewrite length_map in *.
  repeat split; lia.
Qed.

Lemma dict_total_set d k :
  dict_total (dict_set d k (dict_get d k 0 + 1)) = dict_total d + 1.
Proof.
  induction d as [| [k0 v0] r IH]; simpl.
  - reflexivity.
  - destruct (k0 =? k)%string; simpl; [lia |]. rewrite IH. lia.
Qed.

(** The counting loop counts every key once. *)
Lemma dict_total_count_keys ks : dict_total (count_keys ks) = len ks.
Proof.
  unfold len.
  induction ks as [| k ks IH] using rev_ind; [reflexivity |].
  rewrite count_keys_snoc, dict_total_set, IH, length_app. simpl. lia.
Qed.

(** Every entry of the counting loop's result is a key of the input with
    its number of occurrences, which is at least one. *)
Lemma count_keys_entries ks k v :
  In (k, v) (count_keys ks) ->
  In k ks /\ v = count_string k ks /\ 1 <= v.
Proof.
  intro H.
  destruct (count_keys_order ks) as (Hnd & Hin & _).
  assert (Hk : In k ks).
  { apply Hin. apply in_map_iff. now exists (k, v). }
  assert (Hv : v = count_string k ks).
  { rewrite <- count_keys_get. symmetry. now apply dict_get_in. }
  split; [exact Hk |]. split; [exact Hv |].
  rewrite Hv. unfold count_string.
  apply (count_occ_In string_dec) in Hk. lia.
Qed.

Lemma incident_keys w :
  map (fun incident =>
         FailureType_value (FailureIncident.failure_type incident))
    (map (heap w) (failure_incidents w))
  = map FailureType_value (incident_categories w).
Proof. unfold incident_categories. now rewrite !map_map. Qed.

(** X10: the failure-type breakdown of a snapshot accounts for every
    incident exactly once: its keys are distinct, every key is the value of
    a category that occurs, with the number of incidents of that category
    (at least one), and the counts add up to the number of incidents. *)
Theorem failure_breakdown_accounts_for_every_incident w :
  exists s,
    calculate_reliability_metrics w = Returned s w /\
    let d := Snapshot.failure_types (Snapshot.failure_analysis s) in
    NoDup (map fst d) /\
    (forall k v, In (k, v) d ->
       exists c, k = FailureType_value c /\
                 In c (incident_categories w) /\
                 v = count_category c (incident_categories w) /\
                 1 <= v) /\
    dict_total d
      = Snapshot.total_incidents (Snapshot.recovery_metrics s).
Proof.
  eexists. split; [reflexivity |].
  cbn [Snapshot.failure_analysis Snapshot.failure_types
       Snapshot.recovery_metrics Snapshot.total_incidents].
  rewrite incident_keys.
  split; [apply count_keys_order |]. split.
  - intros k v H. apply count_keys_entries in H as (Hk & Hv & Hpos).
    apply in_map_iff in Hk as (c & <- & Hc).
    exists c. rewrite count_string_value in Hv. now repeat split.
  - rewrite dict_total_count_keys. unfold len, incident_categories.
    now rewrite !length_map.
Qed.

(** X11: [most_common_failure] is [None] exactly for a ledger without
    incidents (the guard before [max] is what avoids the error on an empty
    sequence); otherwise it is the value of a category that occurs and that
    no other category outnumbers. *)
Theorem most_common_failure_is_a_maximum w :
  exists s,
    calculate_reliability_metrics w = Returned s w /\
    (failure_incidents w = [] ->
     Snapshot.most_common_failure (Snapshot.failure_analysis s) = None) /\
    (failure_incidents w <> [] ->
     exists c,
       Snapshot.most_common_failure (Snapshot.failure_analysis s)
         = Some (FailureType_value c) /\
       In c (incident_categories w) /\
       forall c', count_category c' (incident_categories w)
                  <= count_category c (incident_categories w)).
Proof.
  eexists. split; [reflexivity |].
  cbn [Snapshot.failure_analysis Snapshot.most_common_failure].
  rewrite incident_keys. split.
  - intro H. unfold incident_categories. rewrite H. reflexivity.
  - intro Hne.
    destruct (most_common_count_keys
                (map FailureType_value (incident_categories w)))
      as (k & l1 & l2 & Hmc & Hs & _ & Hm & _).
    { unfold incident_categories.
      destruct (failure_incidents w); [now contradiction Hne | discriminate]. }
    assert (Hk : In k (map FailureType_value (incident_categories w))).
    { rewrite Hs. apply in_elt. }
    apply in_map_iff in Hk as (c & <- & Hc).
    exists c. split; [exact Hmc |]. split; [exact Hc |].
    intro c'. rewrite <- !count_string_value. apply Hm.
Qed.

(** ** The metrics reduction: MTBF *)

Lemma fold_left_add_from (l : list Z) (a : Z) :
  fold_left Z.add l a = a + fold_left Z.add l 0.
Proof.
  revert a. induction l as [| x r IH]; intro a; simpl; [lia |].
  rewrite (IH (a + x)), (IH x). lia.
Qed.

(** The consecutive gaps of a list add up to its last element minus its
    first. *)
Lemma gaps_telescope (s : list Z) :
  forall a,
    sum_timedeltas
      (map (fun i => nth (S i) (a :: s) 0 - nth i (a :: s) 0)
         (seq 0 (List.length (a :: s) - 1)))
    = last (a :: s) 0 - a.
Proof.
  unfold sum_timedeltas.
  induction s as [| b s' IH]; intro a.
  - simpl. lia.
  - specialize (IH b).
    replace (List.length (a :: b :: s') - 1)%nat
      with (S (List.length (b :: s') - 1)) by (simpl; lia).
    rewrite <- cons_seq, <- seq_shift, map_cons, map_map.
    cbn [fold_left]. rewrite fold_left_add_from.
    change (last (a :: b :: s') 0) with (last (b :: s') 0).
    change (map (fun x => nth (S (S x)) (a :: b :: s') 0
                          - nth (S x) (a :: b :: s') 0))
      with (map (fun i => nth (S i) (b :: s') 0 - nth i (b :: s') 0)).
    rewrite IH. simpl nth. lia.
Qed.

Lemma insert_sorted_in x l y :
  In y (insert_sorted x l) <-> y = x \/ In y l.
Proof.
  induction l as [| z r IH]; simpl.
  - intuition.
  - destruct (x <=? z); simpl; [intuition |]. rewrite IH. intuition.
Qed.

Lemma insert_sorted_sorted x l :
  StronglySorted Z.le l -> StronglySorted Z.le (insert_sorted x l).
Proof.
  induction 1 as [| z r Hs IH Hall]; simpl.
  - constructor; constructor.
  - destruct (Z.leb_spec x z) as [Hle | Hgt].
    + constructor; [now constructor |].
      constructor; [exact Hle |].
      apply Forall_forall. intros y Hy.
      rewrite Forall_forall in Hall. specialize (Hall y Hy). lia.
    + constructor; [exact IH |].
      apply Forall_forall. intros y Hy.
      apply insert_sorted_in in Hy as [-> | Hy]; [lia |].
      rewrite Forall_forall in Hall. now apply Hall.
Qed.

Lemma list_sort_in l y : In y (list_sort l) <-> In y l.
Proof.
  induction l as [| x r IH]; simpl; [reflexivity |].
  rewrite insert_sorted_in, IH. intuition.
Qed.

Lemma list_sort_sorted l : StronglySorted Z.le (list_sort l).
Proof.
  induction l as [| x r IH]; simpl;
    [constructor | now apply insert_sorted_sorted].
Qed.

Lemma insert_sorted_length x l :
  List.length (insert_sorted x l) = S (List.length l).
Proof.
  induction l as [| z r IH]; simpl; [reflexivity |].
  destruct (x <=? z); simpl; [reflexivity | now rewrite IH].
Qed.

Lemma list_sort_length l : List.length (list_sort l) = List.length l.
Proof.
  induction l as [| x r IH]; simpl; [reflexivity |].
  now rewrite insert_sorted_length, IH.
Qed.

(** In a sorted list the first element is the least and the last is the
    greatest. *)
Lemma sorted_extremes a s :
  StronglySorted Z.le (a :: s) ->
  In (last (a :: s) 0) (a :: s) /\
  forall t, In t (a :: s) -> a <= t <= last (a :: s) 0.
Proof.
  revert a. induction s as [| b s' IH]; intros a Hs.
  - simpl. split; [now left |]. intros t [<- | []]. lia.
  - apply StronglySorted_inv in Hs as [Hs Hall].
    destruct (IH b Hs) as [Hin Hb].
    change (last (a :: b :: s') 0) with (last (b :: s') 0).
    split; [now right |].
    intros t [<- | Ht].
    + rewrite Forall_forall in Hall.
      split; [lia | now apply Hall].
    + specialize (Hb t Ht).
      rewrite Forall_forall in Hall. specialize (Hall b (or_introl eq_refl)).
      lia.
Qed.

(** The MTBF block on two or more failures, in closed form. *)
Lemma compute_mtbf_hours_extremes failed :
  (2 <= List.length failed)%nat ->
  exists lo hi,
    In lo (map SignupAttempt.timestamp failed) /\
    In hi (map SignupAttempt.timestamp failed) /\
    (forall t, In t (map SignupAttempt.timestamp failed) -> lo <= t <= hi) /\
    compute_mtbf_hours failed =
      PrimFloat.div
        (total_seconds (timedelta_div (hi - lo) (len failed - 1)))
        (float_of_Z 3600).
Proof.
  intro Hlen. unfold compute_mtbf_hours.
  destruct (Z.gtb_spec (len failed) 1) as [_ | Hle];
    [| unfold len in Hle; lia].
  set (ts := map SignupAttempt.timestamp failed).
  assert (Hn : List.length (list_sort ts) = List.length failed).
  { rewrite list_sort_length. apply length_map. }
  pose proof (list_sort_sorted ts) as Hs.
  destruct (list_sort ts) as [| a s] eqn:Hsort.
  { simpl in Hn. lia. }
  destruct (sorted_extremes a s Hs) as [Hin Hext].
  exists a, (last (a :: s) 0).
  split; [apply list_sort_in; rewrite Hsort; now left |].
  split; [apply list_sort_in; rewrite Hsort; exact Hin |].
  split.
  { intros t Ht. apply Hext. rewrite <- Hsort. now apply list_sort_in. }
  rewrite gaps_telescope. unfold len at 1.
  rewrite length_map, length_seq, Hn.
  replace (Z.of_nat (List.length failed - 1)) with (len failed - 1)
    by (unfold len; lia).
  reflexivity.
Qed.

(** [total_seconds] rounds once.  For the 315537897599999969 microseconds
    from [datetime.min] to 9999-12-31T23:59:59.999969 the quotient of the
    integers is 315537897599.99994 seconds; converting to [float] first and
    dividing then would give 315537897600.0. *)
Example total_seconds_rounds_once :
  total_seconds 315537897599999969 = 315537897599.99994%float /\
  PrimFloat.div (float_of_Z 315537897599999969) (float_of_Z 1000000)
    = 315537897600%float.
Proof. split; vm_compute; reflexivity. Qed.

(** The MTBF of two failures at these two ends of the [datetime] range, and
    of two failures two hours apart. *)
Example mtbf_across_the_datetime_range :
  compute_mtbf_hours [failed_at datetime_min; failed_at 315537897599999969]
    = 87649415.99999999%float /\
  compute_mtbf_hours [failed_at 1000; failed_at 7200001000] = 2%float.
Proof. split; vm_compute; reflexivity. Qed.

(** X12: with two or more failed attempts, the MTBF entry depends only on
    the earliest and the latest failure timestamp and on the number of
    failures: it is their distance divided by the number of failures minus
    one (rounded to the microsecond), in hours; the failure times in between
    and the order of the attempts in the ledger do not matter. *)
Theorem mtbf_is_span_over_gaps w :
  (2 <= List.length (failed_attempts_of w))%nat ->
  exists s lo hi,
    calculate_reliability_metrics w = Returned s w /\
    In lo (map SignupAttempt.timestamp (failed_attempts_of w)) /\
    In hi (map SignupAttempt.timestamp (failed_attempts_of w)) /\
    (forall t, In t (map SignupAttempt.timestamp (failed_attempts_of w)) ->
               lo <= t <= hi) /\
    Snapshot.mtbf_hours (Snapshot.overall_metrics s) =
      reported_mtbf
        (PrimFloat.div
           (total_seconds
              (timedelta_div (hi - lo) (len (failed_attempts_of w) - 1)))
           (float_of_Z 3600)).
Proof.
  intro Hlen.
  destruct (compute_mtbf_hours_extremes (failed_attempts_of w) Hlen)
    as (lo & hi & Hlo & Hhi & Hext & Hm).
  eexists. exists lo, hi. split; [reflexivity |].
  split; [exact Hlo |]. split; [exact Hhi |]. split; [exact Hext |].
  cbn [Snapshot.overall_metrics Snapshot.mtbf_hours].
  unfold failed_attempts_of in Hm. rewrite Hm. reflexivity.
Qed.

Lemma mtbf_is_span_over_gaps_witness :
  exists s lo hi,
    calculate_reliability_metrics
      (world_of_attempts
         [failed_at 7200001000; succeeded_at 5000; failed_at 1000;
          failed_at 3600001000])
    = Returned s
        (world_of_attempts
           [failed_at 7200001000; succeeded_at 5000; failed_at 1000;
            failed_at 3600001000]) /\
    In lo (map SignupAttempt.timestamp
             (failed_attempts_of
                (world_of_attempts
                   [failed_at 7200001000; succeeded_at 5000; failed_at 1000;
                    failed_at 3600001000]))) /\
    In hi (map SignupAttempt.timestamp
             (failed_attempts_of
                (world_of_attempts
                   [failed_at 7200001000; succeeded_at 5000; failed_at 1000;
                    failed_at 3600001000]))) /\
    (forall t,
       In t (map SignupAttempt.timestamp
               (failed_attempts_of
                  (world_of_attempts
                     [failed_at 7200001000; succeeded_at 5000; failed_at 1000;
                      failed_at 3600001000]))) ->
       lo <= t <= hi) /\
    Snapshot.mtbf_hours (Snapshot.overall_metrics s) =
      reported_mtbf
        (PrimFloat.div
           (total_seconds
              (timedelta_div (hi - lo)
                 (len (failed_attempts_of
                         (world_of_attempts
                            [failed_at 7200001000; succeeded_at 5000;
                             failed_at 1000; failed_at 3600001000])) - 1)))
           (float_of_Z 3600)).
Proof.
  apply (mtbf_is_span_over_gaps
           (world_of_attempts
              [failed_at 7200001000; succeeded_at 5000; failed_at 1000;
               failed_at 3600001000])).
  simpl. lia.
Defined.

(** ** The metrics reduction: ratios and provider entries *)

(** X13: on a ledger without attempts no ratio divides: the failure rate,
    the intervention rate, the retry success rate and the average number of
    retries are the integer 0, and the success rate, computed as
    [1 - failure_rate], is the integer 1. *)
Theorem ratios_of_empty_ledger w :
  signup_attempts w = [] ->
  failure_rate w = PyInt 0 /\
  success_rate w = PyInt 1 /\
  intervention_rate w = PyInt 0 /\
  retry_success_rate w = PyInt 0 /\
  avg_retries_per_failure w = PyInt 0.
Proof.
  intro H.
  unfold success_rate, failure_rate, intervention_rate, retry_success_rate,
    avg_retries_per_failure, original_failures_of.
  rewrite H. repeat split.
Qed.

Lemma ratios_of_empty_ledger_witness :
  failure_rate (world_of_attempts []) = PyInt 0 /\
  success_rate (world_of_attempts []) = PyInt 1 /\
  intervention_rate (world_of_attempts []) = PyInt 0 /\
  retry_success_rate (world_of_attempts []) = PyInt 0 /\
  avg_retries_per_failure (world_of_attempts []) = PyInt 0.
Proof.
  apply (ratios_of_empty_ledger (world_of_attempts [])). reflexivity.
Defined.











(** ** The simulation loop *)

(** The whole effect of a call of the classifier on the state. *)
Lemma _generate_failure_incident_effect signup_id provider timestamp w :
  _generate_failure_incident signup_id provider timestamp w =
  Returned (next_loc w)
    (mkWorld (signup_attempts w) (failure_incidents w)
       (heap_set (heap w) (next_loc w)
          (classified_incident (incident_id_stream w (incident_id_calls w))
             signup_id provider timestamp (next_draw w)))
       (S (next_loc w)) (random_stream w) (S (random_calls w))
       (incident_id_stream w) (S (incident_id_calls w))).
Proof. reflexivity. Qed.

(** What the classifier's object looks like. *)
Lemma classified_incident_facts incident_id signup_id provider timestamp rand :
  let v := classified_incident incident_id signup_id provider timestamp rand in
  let ft := FailureIncident.failure_type v in
  FailureIncident.signup_id v = signup_id /\
  FailureIncident.provider v = provider /\
  FailureIncident.timestamp v = timestamp /\
  In ft (map fst (failure_types_of provider)) /\
  FailureIncident.error_message v = _get_error_message ft /\
  FailureIncident.resolved v = false /\
  FailureIncident.retry_count v = 0 /\
  FailureIncident.resolution_time v = None /\
  FailureIncident.manual_intervention v = requires_intervention ft /\
  (FailureIncident.intervention_type v <> None <->
   requires_intervention ft = true) /\
  (eligible ft = false -> requires_intervention ft = false).
Proof.
  unfold classified_incident, requires_intervention.
  cbn [FailureIncident.failure_type FailureIncident.signup_id
       FailureIncident.provider FailureIncident.timestamp
       FailureIncident.error_message FailureIncident.resolved
       FailureIncident.retry_count FailureIncident.resolution_time
       FailureIncident.manual_intervention FailureIncident.intervention_type].
  repeat (split; [reflexivity |]).
  split; [apply classified_category_in_table |].
  repeat (split; [reflexivity |]).
  destruct (select_failure_type (failure_types_of provider) rand
              PrimFloat.zero NETWORK_TIMEOUT); simpl;
    (split; [split; [intro H; reflexivity || (now contradiction H)
                    | discriminate || (intros _; discriminate)]
            | reflexivity || discriminate]).
Qed.

Lemma provider_of_iteration_is_configured i :
  is_configured (nth (Z.to_nat (i mod len providers)) providers "") = true.
Proof.
  change (len providers) with 3.
  pose proof (Z.mod_pos_bound i 3 ltac:(lia)) as H.
  assert (E : i mod 3 = 0 \/ i mod 3 = 1 \/ i mod 3 = 2) by lia.
  destruct E as [-> | [-> | ->]]; reflexivity.
Qed.

(** The identity fields survive the two ways the cascade rewrites an
    incident. *)
Lemma resolved_in_round_identity v k :
  same_identity v (resolved_in_round v k).
Proof. unfold same_identity, resolved_in_round. repeat split. Qed.

Lemma escalated_identity v : same_identity v (escalated v).
Proof.
  unfold same_identity, escalated.
  destruct (negb (truthy
              (FailureIncident.intervention_type
                 (FailureIncident.set_manual_intervention true v))));
    repeat split.
Qed.

(** An incident with room for [k] rounds is dated at a [datetime]. *)
Lemma schedulable_in_range ts k :
  0 <= k -> schedulable ts k -> in_datetime_range ts = true.
Proof.
  unfold schedulable, in_datetime_range, scheduled, timedelta_minutes.
  intros Hk [Hlo Hhi]. apply andb_true_iff. split; apply Z.leb_le; lia.
Qed.

(** On a clock in range the signup of every iteration is dated at a
    [datetime] that leaves room for the three rounds of a cascade. *)
Lemma clock_in_range_schedulable env n i :
  clock_in_range env n -> 0 <= i < n ->
  schedulable (now env i - timedelta_days (randint_0_30 env i)) 3.
Proof.
  intros Hc Hi. destruct (Hc i Hi) as (Hr & Hlo & Hhi).
  revert Hlo Hhi.
  unfold schedulable, scheduled, timedelta_minutes, timedelta_days,
    datetime_min.
  lia.
Qed.

(** The branch of an iteration for a failing signup, from the state [w0]
    in which the failure draw has been consumed. *)
Lemma failing_signup_spec env i w0 :
  schedulable (now env i - timedelta_days (randint_0_30 env i)) 3 ->
  let l := next_loc w0 in
  let o := planned_signup env i false (Some l) in
  exists w' retries,
    (failure_incident <-
       _generate_failure_incident (SignupAttempt.signup_id o)
         (SignupAttempt.provider o) (SignupAttempt.timestamp o) ;;
     append_failure_incident failure_incident ;;;
     _simulate_retries
       (SignupAttempt.mk (SignupAttempt.signup_id o) (SignupAttempt.user_id o)
          (SignupAttempt.provider o) (SignupAttempt.program_id o)
          (SignupAttempt.timestamp o) false (Some failure_incident) None)
       failure_incident ;;;
     append_signup_attempt
       (SignupAttempt.mk (SignupAttempt.signup_id o) (SignupAttempt.user_id o)
          (SignupAttempt.provider o) (SignupAttempt.program_id o)
          (SignupAttempt.timestamp o) false (Some failure_incident) None)) w0
    = Returned tt w' /\
    block_ok env i (mkBlock retries o (Some (l, heap w' l))) /\
    signup_attempts w' = signup_attempts w0 ++ retries ++ [o] /\
    failure_incidents w' = failure_incidents w0 ++ [l] /\
    next_loc w' = S (next_loc w0) /\
    (forall l', (l' < next_loc w0)%nat -> heap w' l' = heap w0 l').
Proof.
  intros Hroom l o.
  unfold bind at 1. rewrite _generate_failure_incident_effect.
  fold l. cbv beta iota.
  unfold bind at 1. unfold append_failure_incident at 1.
  cbn [signup_attempts failure_incidents heap next_loc random_stream
       random_calls incident_id_stream incident_id_calls].
  set (v0 := classified_incident (incident_id_stream w0 (incident_id_calls w0))
               (SignupAttempt.signup_id o) (SignupAttempt.provider o)
               (SignupAttempt.timestamp o) (next_draw w0)).
  set (w2 := mkWorld (signup_attempts w0) (failure_incidents w0 ++ [l])
               (heap_set (heap w0) l v0) (S l) (random_stream w0)
               (S (random_calls w0)) (incident_id_stream w0)
               (S (incident_id_calls w0))).
  change (SignupAttempt.mk (SignupAttempt.signup_id o) (SignupAttempt.user_id o)
            (SignupAttempt.provider o) (SignupAttempt.program_id o)
            (SignupAttempt.timestamp o) false (Some l) None) with o.
  assert (Hv0 : heap w2 l = v0) by apply heap_set_same.
  destruct (classified_incident_facts
              (incident_id_stream w0 (incident_id_calls w0))
              (SignupAttempt.signup_id o) (SignupAttempt.provider o)
              (SignupAttempt.timestamp o) (next_draw w0))
    as (F1 & F2 & F3 & F4 & F5 & F6 & F7 & F8 & F9 & F10 & F11).
  fold v0 in F1, F2, F3, F4, F5, F6, F7, F8, F9, F10, F11.
  assert (Hframe0 : forall l', (l' < l)%nat -> heap w2 l' = heap w0 l').
  { intros l' Hl'. apply heap_set_other. lia. }
  unfold bind at 1.
  destruct (eligible (FailureIncident.failure_type v0)) eqn:He.
  - (* the cascade runs *)
    destruct (_simulate_retries_eligible o l w2) as (w3 & created & E & P);
      [rewrite Hv0; exact He | rewrite Hv0, F3; exact Hroom |].
    rewrite E. cbv beta iota. unfold append_signup_attempt.
    eexists. exists created. split; [reflexivity |].
    cbn [signup_attempts failure_incidents next_loc heap].
    destruct P as (Pa & Pn & Pout & Pb & Pf & Pi).
    destruct Pout as (O1 & O2 & _ & _ & _ & _ & O7).
    rewrite Hv0 in Pn, Pi.
    split.
    { unfold block_ok.
      cbn [block_incident block_signup block_retries].
      split; [reflexivity |].
      assert (Hid : same_identity v0 (heap w3 l)).
      { destruct Pi as [(_ & _ & _ & Q) | [(Q & _) | (_ & _ & _ & Q)]].
        - rewrite Q. apply resolved_in_round_identity.
        - rewrite Q in F6. discriminate F6.
        - rewrite Q. apply escalated_identity. }
      destruct Hid as (_ & I2 & I3 & I4 & I5 & I6).
      rewrite I2, I3, I4, I5, I6.
      repeat (split; [assumption |]).
      split.
      - intros j a Hj. rewrite (Pn j a Hj). rewrite F3. f_equal.
        pose proof (nth_error_some_lt _ _ _ Hj) as Hlt.
        destruct Pi as [(Q1 & Q2 & _ & Q) | [(Q & _) | (_ & Qn & Qf & Q)]].
        + rewrite Q. cbn [resolved_in_round FailureIncident.resolved
                          FailureIncident.set_retry_count
                          FailureIncident.set_resolution_time
                          FailureIncident.set_resolved andb].
          destruct (Nat.eqb_spec (S j) (List.length created)) as [Heq | Hne].
          * rewrite <- Q2. f_equal. lia.
          * apply Pf. lia.
        + rewrite Q in F6. discriminate F6.
        + assert (Hr : FailureIncident.resolved (heap w3 l) = false).
          { rewrite Q. unfold escalated.
            destruct (negb (truthy
                        (FailureIncident.intervention_type
                           (FailureIncident.set_manual_intervention true v0))));
              exact F6. }
          rewrite Hr. simpl andb. apply Qf. lia.
      - unfold lifecycle. rewrite I4.
        destruct Pi as [(Q1 & Q2 & _ & Q) | [(Q & _) | (_ & Qn & Qf & Q)]].
        + right. left. rewrite Q.
          cbn [resolved_in_round FailureIncident.resolved
               FailureIncident.retry_count FailureIncident.resolution_time
               FailureIncident.manual_intervention
               FailureIncident.intervention_type FailureIncident.timestamp
               FailureIncident.set_retry_count
               FailureIncident.set_resolution_time
               FailureIncident.set_resolved].
          repeat split; try assumption; try lia; apply F10.
        + rewrite Q in F6. discriminate F6.
        + right. right. rewrite Q. unfold escalated.
          cbn [FailureIncident.set_manual_intervention
               FailureIncident.intervention_type].
          destruct (FailureIncident.intervention_type v0) eqn:Hit;
            cbn [truthy negb FailureIncident.set_intervention_type
                 FailureIncident.set_manual_intervention
                 FailureIncident.resolved FailureIncident.retry_count
                 FailureIncident.resolution_time
                 FailureIncident.manual_intervention
                 FailureIncident.intervention_type];
            rewrite ?Hit; repeat split; try assumption; discriminate. }
    split; [rewrite Pa; cbn [signup_attempts w2]; now rewrite app_assoc |].
    split; [rewrite O1; reflexivity |].
    split; [rewrite O2; reflexivity |].
    intros l' Hl'. rewrite O7 by lia. apply Hframe0. exact Hl'.
  - (* the category is not retried *)
    rewrite (_simulate_retries_ineligible o l w2) by (rewrite Hv0; exact He).
    cbv beta iota. unfold append_signup_attempt.
    eexists. exists []. split; [reflexivity |].
    cbn [signup_attempts failure_incidents next_loc heap w2].
    split.
    { unfold block_ok.
      cbn [block_incident block_signup block_retries].
      rewrite heap_set_same.
      split; [reflexivity |].
      repeat (split; [assumption |]).
      split; [intros [| j] a Hj; discriminate Hj |].
      unfold lifecycle. left. simpl List.length.
      rewrite F9, (F11 eq_refl).
      repeat split; try assumption.
      destruct (FailureIncident.intervention_type v0) eqn:Hit;
        [| reflexivity].
      exfalso. assert (requires_intervention
                         (FailureIncident.failure_type v0) = true)
        by (apply F10; discriminate).
      rewrite (F11 eq_refl) in H. discriminate H. }
    split; [reflexivity |]. split; [reflexivity |]. split; [reflexivity |].
    exact Hframe0.
Qed.
(** One iteration of the loop adds one block to the ledger. *)
Lemma simulate_iteration_spec env i w :
  schedulable (now env i - timedelta_days (randint_0_30 env i)) 3 ->
  exists w' b,
    simulate_iteration env i w = Returned tt w' /\
    block_ok env i b /\
    signup_attempts w' = signup_attempts w ++ block_attempts b /\
    failure_incidents w' = failure_incidents w ++ block_locs b /\
    next_loc w' = (List.length (block_locs b) + next_loc w)%nat /\
    (forall l v, block_incident b = Some (l, v) ->
                 l = next_loc w /\ heap w' l = v) /\
    (forall l, (l < next_loc w)%nat -> heap w' l = heap w l).
Proof.
  intro Hroom.
  unfold simulate_iteration, datetime_sub.
  rewrite (schedulable_in_range _ 3 ltac:(lia) Hroom).
  unfold bind at 1. unfold ret at 1.
  unfold bind at 1. unfold random_random at 1.
  cbv beta iota zeta.
  destruct (PrimFloat.ltb (random_stream w (random_calls w)) 0.15%float).
  - destruct (failing_signup_spec env i
                (mkWorld (signup_attempts w) (failure_incidents w) (heap w)
                   (next_loc w) (random_stream w) (S (random_calls w))
                   (incident_id_stream w) (incident_id_calls w)) Hroom)
      as (w' & retries & E & Hb & Ha & Hf & Hn & Hh).
    cbn [signup_attempts failure_incidents heap next_loc] in Hb, Ha, Hf, Hn, Hh.
    exists w',
      (mkBlock retries (planned_signup env i false (Some (next_loc w)))
         (Some (next_loc w, heap w' (next_loc w)))).
    split; [exact E |]. split; [exact Hb |].
    unfold block_attempts, block_locs.
    cbn [block_retries block_signup block_incident].
    split; [exact Ha |]. split; [exact Hf |]. split; [exact Hn |].
    split; [| exact Hh].
    intros l v H. injection H as <- <-. now split.
  - unfold append_signup_attempt.
    eexists. exists (mkBlock [] (planned_signup env i true None) None).
    split; [reflexivity |].
    unfold block_ok, block_attempts, block_locs.
    cbn [block_retries block_signup block_incident signup_attempts
         failure_incidents heap next_loc].
    split; [now split |].
    split; [reflexivity |]. split; [now rewrite app_nil_r |].
    split; [reflexivity |].
    split; [intros l v H; discriminate H | reflexivity].
Qed.

(** The loop adds one block per index, in order; the incident of a block
    keeps the state the block records, and the incident objects that existed
    before the loop are not touched. *)
Lemma for_each_iteration_spec env indices :
  (forall i, In i indices ->
     schedulable (now env i - timedelta_days (randint_0_30 env i)) 3) ->
  forall w,
  exists w' blocks,
    for_each indices (simulate_iteration env) w = Returned tt w' /\
    Forall2 (block_ok env) indices blocks /\
    signup_attempts w' = signup_attempts w ++ List.concat (map block_attempts blocks) /\
    failure_incidents w'
      = failure_incidents w ++ List.concat (map block_locs blocks) /\
    (next_loc w <= next_loc w')%nat /\
    (forall b l v, In b blocks -> block_incident b = Some (l, v) ->
                   (next_loc w <= l < next_loc w')%nat /\ heap w' l = v) /\
    (forall l, (l < next_loc w)%nat -> heap w' l = heap w l).
Proof.
  induction indices as [| i rest IH]; intros Hroom w.
  - exists w, []. simpl. rewrite !app_nil_r.
    split; [reflexivity |]. split; [constructor |].
    repeat split; try reflexivity; try lia; intros b l v [].
  - destruct (simulate_iteration_spec env i w (Hroom i (or_introl eq_refl)))
      as (w1 & b & E1 & Hb & Ha1 & Hf1 & Hn1 & Hi1 & Hh1).
    destruct (IH (fun j Hj => Hroom j (or_intror Hj)) w1)
      as (w' & blocks & E & Hbs & Ha & Hf & Hn & Hi & Hh).
    exists w', (b :: blocks).
    split.
    { simpl for_each. unfold bind. rewrite E1. exact E. }
    split; [now constructor |].
    simpl map. simpl List.concat.
    split; [rewrite Ha, Ha1; now rewrite app_assoc |].
    split; [rewrite Hf, Hf1; now rewrite app_assoc |].
    split; [lia |].
    split.
    + intros b' l v [<- | Hin] Hinc.
      * destruct (Hi1 l v Hinc) as [-> Hv].
        assert (Hlen : List.length (block_locs b) = 1%nat).
        { unfold block_locs. now rewrite Hinc. }
        split; [lia |]. rewrite Hh by lia. exact Hv.
      * destruct (Hi b' l v Hin Hinc) as [Hr Hv]. split; [lia | exact Hv].
    + intros l Hl. rewrite Hh by lia. now apply Hh1.
Qed.

(** ** Blocks: what follows from [block_ok] *)

Lemma filter_none {A} (f : A -> bool) (l : list A) :
  (forall a, In a l -> f a = false) -> filter f l = [].
Proof.
  induction l as [| x r IH]; intro H; simpl; [reflexivity |].
  rewrite (H x (or_introl eq_refl)). apply IH. intros a Ha. apply H. now right.
Qed.

Lemma filter_keeps_every {A} (f : A -> bool) (l : list A) :
  Forall (fun a => f a = true) l -> filter f l = l.
Proof.
  induction 1 as [| x r Hx _ IH]; simpl; [reflexivity |].
  now rewrite Hx, IH.
Qed.

(** Exactly one member passes a test that only the last position passes. *)
Lemma filter_only_last {A} (f : A -> bool) (l : list A) :
  l <> [] ->
  (forall j a, nth_error l j = Some a -> f a = (S j =? List.length l)%nat) ->
  List.length (filter f l) = 1%nat.
Proof.
  intros Hne H.
  destruct (exists_last Hne) as (init & last & ->).
  rewrite filter_app, length_app.
  assert (Hlen : List.length (init ++ [last]) = S (List.length init)).
  { rewrite length_app. simpl. lia. }
  rewrite filter_none.
  - simpl. rewrite (H (List.length init) last (nth_error_last init last)).
    rewrite Hlen, Nat.eqb_refl. reflexivity.
  - intros a Ha.
    destruct (in_init_nth_error init last a Ha) as (j & Hj & Hn).
    rewrite (H j a Hn). apply Nat.eqb_neq. lia.
Qed.

Section Blocks.

Variable env : Oracle.

Lemma block_signup_planned i b :
  block_ok env i b ->
  exists success failure_incident,
    block_signup b = planned_signup env i success failure_incident /\
    (success = true <-> block_incident b = None) /\
    (forall l, failure_incident = Some l <->
               exists v, block_incident b = Some (l, v)).
Proof.
  unfold block_ok. destruct (block_incident b) as [[l v] |].
  - intros (Ho & _). exists false, (Some l). split; [exact Ho |].
    split; [split; discriminate |].
    intro l'. split.
    + intro H. injection H as <-. now exists v.
    + intros (v' & H). now injection H as <- _.
  - intros (_ & Ho). exists true, None. split; [exact Ho |].
    split; [now split |].
    intro l'. split; [discriminate | intros (v' & H); discriminate H].
Qed.

Lemma block_retry_links i b :
  block_ok env i b ->
  SignupAttempt.retry_of (block_signup b) = None /\
  forall r, In r (block_retries b) ->
    SignupAttempt.retry_of r
      = Some (SignupAttempt.signup_id (block_signup b)) /\
    SignupAttempt.provider r = SignupAttempt.provider (block_signup b) /\
    SignupAttempt.failure_incident r = None.
Proof.
  unfold block_ok. destruct (block_incident b) as [[l v] |].
  - intros (Ho & _ & _ & _ & _ & _ & Hr & _).
    split; [rewrite Ho; reflexivity |].
    intros r Hin. apply In_nth_error in Hin as [j Hj].
    rewrite (Hr j r Hj). repeat split.
  - intros (Hr & Ho). split; [rewrite Ho; reflexivity |].
    rewrite Hr. intros r [].
Qed.

Lemma block_attempts_originals i b :
  block_ok env i b ->
  filter is_original (block_attempts b) = [block_signup b] /\
  filter is_retry (block_attempts b) = block_retries b.
Proof.
  intro H. destruct (block_retry_links i b H) as [Ho Hr].
  unfold block_attempts, is_original, is_retry. rewrite !filter_app. simpl.
  rewrite Ho. simpl. split.
  - rewrite filter_none; [reflexivity |].
    intros r Hin. destruct (Hr r Hin) as [-> _]. reflexivity.
  - rewrite filter_keeps_every; [now rewrite app_nil_r |].
    apply Forall_forall.
    intros r Hin. destruct (Hr r Hin) as [-> _]. reflexivity.
Qed.

Lemma block_incident_well_formed i b l v :
  block_ok env i b ->
  block_incident b = Some (l, v) ->
  incident_well_formed v.
Proof.
  unfold block_ok. intros H Hinc. rewrite Hinc in H.
  destruct H as (Ho & _ & Hp & _ & Hft & Hmsg & _ & Hlife).
  unfold incident_well_formed.
  rewrite Hp, Ho. cbn [planned_signup SignupAttempt.provider].
  rewrite Ho in Hft. cbn [planned_signup SignupAttempt.provider] in Hft.
  split; [apply provider_of_iteration_is_configured |].
  split; [exact Hft |]. split; [exact Hmsg |].
  unfold lifecycle in Hlife.
  destruct Hlife as [(He & _ & Hr & Hc & Ht & Hm & Hi)
                    | [(He & Hn & Hr & Hc & Ht & Hm & Hi)
                      | (He & _ & Hr & Hc & Ht & Hm & Hi)]];
    rewrite Hr, Hc, Ht, Hm.
  - assert (Hq : requires_intervention (FailureIncident.failure_type v) = false).
    { destruct (FailureIncident.failure_type v); try discriminate He;
        reflexivity. }
    rewrite Hi, He, Hq.
    repeat split; try lia; try discriminate; try tauto.
  - rewrite He. unfold scheduled.
    repeat split; try lia; try discriminate; try tauto.
    intros [H | [_ H]]; [exact H | discriminate H].
  - rewrite He.
    repeat split; try lia; try discriminate; try tauto.
Qed.

Lemma block_counts i b :
  block_ok env i b ->
  List.length (block_locs b) = List.length (block_values b) /\
  List.length (block_locs b)
    = List.length (filter (fun a => negb (SignupAttempt.success a))
                     [block_signup b]) /\
  (List.length (block_retries b) <= 3 * List.length (block_locs b))%nat /\
  List.length (filter (fun a => SignupAttempt.success a) (block_retries b))
    = List.length (filter (fun v => FailureIncident.resolved v)
                     (block_values b)).
Proof.
  unfold block_ok, block_locs, block_values.
  destruct (block_incident b) as [[l v] |].
  - intros (Ho & _ & _ & _ & _ & _ & Hr & Hlife).
    split; [reflexivity |].
    split; [rewrite Ho; reflexivity |].
    unfold lifecycle in Hlife. simpl List.length.
    destruct Hlife as [(_ & Hn & Hres & _) | [(_ & Hn & Hres & _)
                                             | (_ & Hn & Hres & _)]];
      rewrite Hres in *; simpl filter; simpl List.length.
    + split; [lia |]. destruct (block_retries b); [reflexivity |].
      simpl in Hn. lia.
    + split; [lia |]. apply filter_only_last.
      * intro H. rewrite H in Hn. simpl in Hn. lia.
      * intros j a Hj. rewrite (Hr j a Hj). reflexivity.
    + split; [lia |]. rewrite filter_none; [reflexivity |].
      intros a Ha. apply In_nth_error in Ha as [j Hj].
      rewrite (Hr j a Hj). reflexivity.
  - intros (Hr & Ho). rewrite Hr, Ho. repeat split. simpl. lia.
Qed.

End Blocks.

(** ** The ledger as a sequence of blocks *)

Lemma Forall2_nth_error {A B} (R : A -> B -> Prop) l1 l2 :
  Forall2 R l1 l2 ->
  forall k b, nth_error l2 k = Some b ->
  exists a, nth_error l1 k = Some a /\ R a b.
Proof.
  induction 1 as [| a b l1 l2 Hab _ IH]; intros k y Hk.
  - destruct k; discriminate Hk.
  - destruct k as [| k]; simpl in *.
    + injection Hk as <-. now exists a.
    + now apply IH.
Qed.

Lemma nth_error_seq_inv start n k x :
  nth_error (seq start n) k = Some x -> x = (start + k)%nat.
Proof.
  revert start k. induction n as [| n IH]; intros start k H.
  - destruct k; discriminate H.
  - destruct k as [| k]; simpl in H.
    + injection H as <-. lia.
    + apply IH in H. lia.
Qed.

Lemma nth_error_py_range n k i :
  nth_error (py_range n) k = Some i -> i = Z.of_nat k.
Proof.
  unfold py_range. intro H.
  destruct (nth_error (seq 0 (Z.to_nat n)) k) as [x |] eqn:Hx.
  - rewrite (map_nth_error Z.of_nat _ _ Hx) in H. injection H as <-.
    apply nth_error_seq_inv in Hx. now subst x.
  - apply nth_error_None in Hx.
    assert (nth_error (map Z.of_nat (seq 0 (Z.to_nat n))) k = None)
      by (apply nth_error_None; now rewrite length_map).
    congruence.
Qed.

Lemma py_range_bounds n i : In i (py_range n) -> 0 <= i < n.
Proof.
  unfold py_range. intro H. apply in_map_iff in H as (k & <- & Hk).
  apply in_seq in Hk. lia.
Qed.

Lemma filter_and {A} (f g : A -> bool) (l : list A) :
  filter (fun a => f a && g a) l = filter f (filter g l).
Proof.
  induction l as [| x r IH]; simpl; [reflexivity |].
  destruct (g x); simpl; destruct (f x); simpl; now rewrite ?IH.
Qed.

Section Ledger.

Variable env : Oracle.

Lemma blocks_split indices blocks :
  Forall2 (block_ok env) indices blocks ->
  filter is_original (List.concat (map block_attempts blocks))
    = map block_signup blocks /\
  filter is_retry (List.concat (map block_attempts blocks))
    = List.concat (map block_retries blocks).
Proof.
  induction 1 as [| i b indices blocks Hb _ [IHo IHr]]; [now split |].
  simpl. rewrite !filter_app, IHo, IHr.
  destruct (block_attempts_originals env i b Hb) as [-> ->]. now split.
Qed.

Lemma blocks_counts indices blocks :
  Forall2 (block_ok env) indices blocks ->
  List.length blocks = List.length indices /\
  List.length (List.concat (map block_locs blocks))
    = List.length (List.concat (map block_values blocks)) /\
  List.length (List.concat (map block_locs blocks))
    = List.length (filter (fun a => negb (SignupAttempt.success a))
                     (map block_signup blocks)) /\
  (List.length (List.concat (map block_retries blocks))
   <= 3 * List.length (List.concat (map block_locs blocks)))%nat /\
  List.length (filter (fun a => SignupAttempt.success a)
                 (List.concat (map block_retries blocks)))
    = List.length (filter (fun v => FailureIncident.resolved v)
                     (List.concat (map block_values blocks))).
Proof.
  induction 1 as [| i b indices blocks Hb _ (IH0 & IH1 & IH2 & IH3 & IH4)];
    [repeat split; simpl; lia |].
  destruct (block_counts env i b Hb) as (C1 & C2 & C3 & C4).
  simpl map. simpl List.concat.
  change (block_signup b :: map block_signup blocks)
    with ([block_signup b] ++ map block_signup blocks).
  rewrite !filter_app, !length_app.
  simpl List.length at 1 2.
  repeat split; lia.
Qed.

Lemma blocks_values (h : loc -> FailureIncident.t) blocks :
  (forall b l v, In b blocks -> block_incident b = Some (l, v) -> h l = v) ->
  map h (List.concat (map block_locs blocks))
  = List.concat (map block_values blocks).
Proof.
  induction blocks as [| b blocks IH]; intro H; [reflexivity |].
  simpl. rewrite map_app, IH.
  - f_equal. unfold block_locs, block_values.
    destruct (block_incident b) as [[l v] |] eqn:Hinc; [| reflexivity].
    simpl. f_equal. apply (H b l v); [now left | exact Hinc].
  - intros b' l v Hin. apply H. now right.
Qed.

Lemma blocks_locs_in blocks l :
  In l (List.concat (map block_locs blocks)) ->
  exists b v, In b blocks /\ block_incident b = Some (l, v).
Proof.
  intro H. apply in_concat in H as (ls & Hls & Hl).
  apply in_map_iff in Hls as (b & <- & Hb).
  unfold block_locs in Hl.
  destruct (block_incident b) as [[l' v] |] eqn:Hinc; [| contradiction].
  destruct Hl as [<- | []]. now exists b, v.
Qed.

Lemma blocks_attempts_in blocks a :
  In a (List.concat (map block_attempts blocks)) ->
  exists b, In b blocks /\ (a = block_signup b \/ In a (block_retries b)).
Proof.
  intro H. apply in_concat in H as (ls & Hls & Ha).
  apply in_map_iff in Hls as (b & <- & Hb).
  exists b. split; [exact Hb |].
  unfold block_attempts in Ha. apply in_app_or in Ha as [Ha | [<- | []]];
    [now right | now left].
Qed.

Lemma Forall2_in_right {A B} (R : A -> B -> Prop) l1 l2 b :
  Forall2 R l1 l2 -> In b l2 -> exists a, In a l1 /\ R a b.
Proof.
  induction 1 as [| x y l1 l2 Hxy _ IH]; intro Hin; [contradiction |].
  destruct Hin as [<- | Hin].
  - exists x. split; [now left | exact Hxy].
  - destruct (IH Hin) as (a & Ha & Hr). exists a. split; [now right | exact Hr].
Qed.

(** The simulation on a clock in range, as a sequence of blocks. *)
Lemma simulate_signup_attempts_spec num_attempts w :
  clock_in_range env num_attempts ->
  exists w' blocks,
    simulate_signup_attempts env num_attempts w = Returned tt w' /\
    Forall2 (block_ok env) (py_range num_attempts) blocks /\
    signup_attempts w'
      = signup_attempts w ++ List.concat (map block_attempts blocks) /\
    failure_incidents w'
      = failure_incidents w ++ List.concat (map block_locs blocks) /\
    (next_loc w <= next_loc w')%nat /\
    (forall b l v, In b blocks -> block_incident b = Some (l, v) ->
                   (next_loc w <= l < next_loc w')%nat /\ heap w' l = v) /\
    (forall l, (l < next_loc w)%nat -> heap w' l = heap w l).
Proof.
  intro Hclock. apply for_each_iteration_spec.
  intros i Hi. apply (clock_in_range_schedulable env num_attempts i Hclock).
  now apply py_range_bounds.
Qed.

End Ledger.

(** ** The simulation: what the ledger looks like afterwards *)

(** On a clock outside the range the loop raises: with the clock at
    [datetime.min] and one day drawn, [datetime.now() - timedelta(days=1)]
    is not a [datetime], and the first iteration raises before anything is
    drawn or appended. *)
Example simulation_before_the_first_day :
  simulate_signup_attempts (mkOracle (fun _ => datetime_min) (fun _ => 1)) 3
    example_world
  = Raised "OverflowError" example_world.
Proof. reflexivity. Qed.

(** The clock of the examples is in range for a hundred iterations. *)
Lemma example_clock_in_range n : n <= 100 -> clock_in_range example_oracle n.
Proof.
  intros Hn i Hi. unfold example_oracle. cbn [now randint_0_30].
  pose proof (Z.mod_pos_bound i 31 ltac:(lia)).
  unfold datetime_min, datetime_max, timedelta_days, timedelta_minutes. lia.
Qed.

(** X15: from any state and on a clock inside the [datetime] range,
    [simulate_signup_attempts] returns and appends to
    the ledger exactly [num_attempts] signups of their own (attempts without
    [retry_of]), in index order: the signup of index [i] is named
    ["signup_"] followed by [i] zero-padded to four digits, belongs to user
    [i % 20 + 1] and program [i % 10 + 1], is placed with the provider
    [providers[i % 3]] and dated [now - randint(0, 30)] days.  Every attempt
    appended, retries included, names one of the three configured
    providers. *)
Theorem simulation_appends_the_planned_signups env num_attempts w :
  clock_in_range env num_attempts ->
  exists w' added,
    simulate_signup_attempts env num_attempts w = Returned tt w' /\
    signup_attempts w' = signup_attempts w ++ added /\
    List.length (filter is_original added) = Z.to_nat num_attempts /\
    (forall k a, nth_error (filter is_original added) k = Some a ->
       let i := Z.of_nat k in
       SignupAttempt.signup_id a = ("signup_" ++ py_format_04d i)%string /\
       SignupAttempt.user_id a = ("user_" ++ py_str (i mod 20 + 1))%string /\
       SignupAttempt.provider a = nth (Z.to_nat (i mod 3)) providers "" /\
       SignupAttempt.program_id a
         = ("program_" ++ py_str (i mod 10 + 1))%string /\
       SignupAttempt.timestamp a
         = now env i - timedelta_days (randint_0_30 env i)) /\
    (forall a, In a added ->
       is_configured (SignupAttempt.provider a) = true).
Proof.
  intro Hclock.
  destruct (simulate_signup_attempts_spec env num_attempts w Hclock)
    as (w' & blocks & E & Hbs & Ha & _).
  exists w', (List.concat (map block_attempts blocks)).
  split; [exact E |]. split; [exact Ha |].
  destruct (blocks_split env _ _ Hbs) as [Ho _].
  destruct (blocks_counts env _ _ Hbs) as [Hlen _].
  rewrite Ho. split.
  { rewrite length_map, Hlen. unfold py_range.
    now rewrite length_map, length_seq. }
  split.
  - intros k a Hk i. rewrite nth_error_map in Hk.
    destruct (nth_error blocks k) as [b |] eqn:Hb; [| discriminate Hk].
    injection Hk as <-.
    destruct (Forall2_nth_error _ _ _ Hbs k b Hb) as (i' & Hi' & Hok).
    apply nth_error_py_range in Hi'. subst i'. fold i in Hok.
    destruct (block_signup_planned env i b Hok) as (s & f & -> & _).
    repeat split.
  - intros a Hin.
    destruct (blocks_attempts_in _ _ Hin) as (b & Hb & Hcase).
    destruct (Forall2_in_right _ _ _ b Hbs Hb) as (i & _ & Hok).
    destruct (block_signup_planned env i b Hok) as (s & f & Hs & _).
    assert (Hp : is_configured (SignupAttempt.provider (block_signup b)) = true).
    { rewrite Hs. apply provider_of_iteration_is_configured. }
    destruct Hcase as [-> | Hr]; [exact Hp |].
    destruct (block_retry_links env i b Hok) as [_ Hl].
    destruct (Hl a Hr) as (_ & -> & _). exact Hp.
Qed.

Lemma simulation_appends_the_planned_signups_witness :
  exists w' added,
    simulate_signup_attempts example_oracle 12 example_world
      = Returned tt w' /\
    signup_attempts w' = signup_attempts example_world ++ added /\
    List.length (filter is_original added) = Z.to_nat 12 /\
    (forall k a, nth_error (filter is_original added) k = Some a ->
       let i := Z.of_nat k in
       SignupAttempt.signup_id a = ("signup_" ++ py_format_04d i)%string /\
       SignupAttempt.user_id a = ("user_" ++ py_str (i mod 20 + 1))%string /\
       SignupAttempt.provider a = nth (Z.to_nat (i mod 3)) providers "" /\
       SignupAttempt.program_id a
         = ("program_" ++ py_str (i mod 10 + 1))%string /\
       SignupAttempt.timestamp a
         = now example_oracle i
           - timedelta_days (randint_0_30 example_oracle i)) /\
    (forall a, In a added ->
       is_configured (SignupAttempt.provider a) = true).
Proof.
  apply (simulation_appends_the_planned_signups example_oracle 12
           example_world).
  apply example_clock_in_range. lia.
Defined.

(** X16: on a clock inside the [datetime] range, every incident the
    simulation appends to the evaluator's list is
    a fresh object and is well formed when the simulation returns: its
    provider is configured and its category is from that provider's table,
    its message is the one of its category, [retry_count] is between 0 and
    3, a resolved incident has a retry-eligible category, a positive
    [retry_count] and [resolution_time = timestamp + retry_count * 5]
    minutes, an unresolved one has no resolution time, and
    [manual_intervention] holds exactly when the category requires it or the
    retries were exhausted, which is exactly when an intervention type is
    set.  Incident objects that existed before are not modified. *)
Theorem simulated_incidents_are_well_formed env num_attempts w :
  clock_in_range env num_attempts ->
  exists w' new,
    simulate_signup_attempts env num_attempts w = Returned tt w' /\
    failure_incidents w' = failure_incidents w ++ new /\
    (forall l, In l new ->
       (next_loc w <= l)%nat /\ incident_well_formed (heap w' l)) /\
    (forall l, (l < next_loc w)%nat -> heap w' l = heap w l).
Proof.
  intro Hclock.
  destruct (simulate_signup_attempts_spec env num_attempts w Hclock)
    as (w' & blocks & E & Hbs & _ & Hf & _ & Hi & Hh).
  exists w', (List.concat (map block_locs blocks)).
  split; [exact E |]. split; [exact Hf |]. split; [| exact Hh].
  intros l Hl.
  destruct (blocks_locs_in _ _ Hl) as (b & v & Hb & Hinc).
  destruct (Hi b l v Hb Hinc) as [Hr Hv].
  split; [lia |]. rewrite Hv.
  destruct (Forall2_in_right _ _ _ b Hbs Hb) as (i & _ & Hok).
  exact (block_incident_well_formed env i b l v Hok Hinc).
Qed.

Lemma simulated_incidents_are_well_formed_witness :
  exists w' new,
    simulate_signup_attempts example_oracle 12 example_world
      = Returned tt w' /\
    failure_incidents w' = failure_incidents example_world ++ new /\
    (forall l, In l new ->
       (next_loc example_world <= l)%nat /\
       incident_well_formed (heap w' l)) /\
    (forall l, (l < next_loc example_world)%nat ->
       heap w' l = heap example_world l).
Proof.
  apply (simulated_incidents_are_well_formed example_oracle 12 example_world).
  apply example_clock_in_range. lia.
Defined.

(** X18: the back-references of the ledger are sound.  On a clock inside
    the [datetime] range the simulation returns, and a signup it
    has appended either succeeded and carries no incident, or failed
    and carries a reference to one of the new incidents, which records the
    signup's id, provider and timestamp; a retry carries no incident; and
    every new incident is referenced by a failed signup. *)
Theorem simulation_links_signups_and_incidents env num_attempts w :
  clock_in_range env num_attempts ->
  exists w' added new,
    simulate_signup_attempts env num_attempts w = Returned tt w' /\
    signup_attempts w' = signup_attempts w ++ added /\
    failure_incidents w' = failure_incidents w ++ new /\
    (forall a, In a added -> is_original a = true ->
       (SignupAttempt.success a = true /\
        SignupAttempt.failure_incident a = None)
       \/
       (SignupAttempt.success a = false /\
        exists l,
          SignupAttempt.failure_incident a = Some l /\ In l new /\
          FailureIncident.signup_id (heap w' l) = SignupAttempt.signup_id a /\
          FailureIncident.provider (heap w' l) = SignupAttempt.provider a /\
          FailureIncident.timestamp (heap w' l) = SignupAttempt.timestamp a)) /\
    (forall a, In a added -> is_retry a = true ->
       SignupAttempt.failure_incident a = None) /\
    (forall l, In l new ->
       exists a, In a added /\ is_original a = true /\
                 SignupAttempt.success a = false /\
                 SignupAttempt.failure_incident a = Some l).
Proof.
  intro Hclock.
  destruct (simulate_signup_attempts_spec env num_attempts w Hclock)
    as (w' & blocks & E & Hbs & Ha & Hf & _ & Hi & _).
  exists w', (List.concat (map block_attempts blocks)),
    (List.concat (map block_locs blocks)).
  split; [exact E |]. split; [exact Ha |]. split; [exact Hf |].
  assert (Hloc : forall b l v, In b blocks -> block_incident b = Some (l, v) ->
                   In l (List.concat (map block_locs blocks))).
  { intros b l v Hb Hinc. apply in_concat. exists (block_locs b).
    split; [now apply in_map |]. unfold block_locs. rewrite Hinc. now left. }
  assert (Hsig : forall b, In b blocks ->
                   In (block_signup b)
                      (List.concat (map block_attempts blocks))).
  { intros b Hb. apply in_concat. exists (block_attempts b).
    split; [now apply in_map |]. unfold block_attempts.
    apply in_or_app. right. now left. }
  split; [| split].
  - intros a Hin Horig.
    destruct (blocks_attempts_in _ _ Hin) as (b & Hb & Hcase).
    destruct (Forall2_in_right _ _ _ b Hbs Hb) as (i & _ & Hok).
    destruct (block_retry_links env i b Hok) as [_ Hl].
    destruct Hcase as [-> | Hr].
    2:{ destruct (Hl a Hr) as (Hro & _).
        unfold is_original in Horig. rewrite Hro in Horig.
        discriminate Horig. }
    pose proof Hok as Hok'. unfold block_ok in Hok'.
    destruct (block_incident b) as [[l v] |] eqn:Hinc.
    + right. destruct Hok' as (Ho & H1 & H2 & H3 & _).
      split; [rewrite Ho; reflexivity |].
      exists l. split; [rewrite Ho; reflexivity |].
      split; [exact (Hloc b l v Hb Hinc) |].
      destruct (Hi b l v Hb Hinc) as [_ ->]. now repeat split.
    + left. destruct Hok' as (_ & ->). now split.
  - intros a Hin Hretry.
    destruct (blocks_attempts_in _ _ Hin) as (b & Hb & Hcase).
    destruct (Forall2_in_right _ _ _ b Hbs Hb) as (i & _ & Hok).
    destruct (block_retry_links env i b Hok) as [Ho Hl].
    destruct Hcase as [-> | Hr].
    + unfold is_retry in Hretry. rewrite Ho in Hretry. discriminate Hretry.
    + now destruct (Hl a Hr) as (_ & _ & ->).
  - intros l Hl.
    destruct (blocks_locs_in _ _ Hl) as (b & v & Hb & Hinc).
    destruct (Forall2_in_right _ _ _ b Hbs Hb) as (i & _ & Hok).
    exists (block_signup b). split; [now apply Hsig |].
    unfold block_ok in Hok. rewrite Hinc in Hok.
    destruct Hok as (-> & _). repeat split.
Qed.

Lemma simulation_links_signups_and_incidents_witness :
  exists w' added new,
    simulate_signup_attempts example_oracle 12 example_world
      = Returned tt w' /\
    signup_attempts w' = signup_attempts example_world ++ added /\
    failure_incidents w' = failure_incidents example_world ++ new /\
    (forall a, In a added -> is_original a = true ->
       (SignupAttempt.success a = true /\
        SignupAttempt.failure_incident a = None)
       \/
       (SignupAttempt.success a = false /\
        exists l,
          SignupAttempt.failure_incident a = Some l /\ In l new /\
          FailureIncident.signup_id (heap w' l) = SignupAttempt.signup_id a /\
          FailureIncident.provider (heap w' l) = SignupAttempt.provider a /\
          FailureIncident.timestamp (heap w' l) = SignupAttempt.timestamp a)) /\
    (forall a, In a added -> is_retry a = true ->
       SignupAttempt.failure_incident a = None) /\
    (forall l, In l new ->
       exists a, In a added /\ is_original a = true /\
                 SignupAttempt.success a = false /\
                 SignupAttempt.failure_incident a = Some l).
Proof.
  apply (simulation_links_signups_and_incidents example_oracle 12
           example_world).
  apply example_clock_in_range. lia.
Defined.

(** Where an element of a concatenation sits. *)
Lemma app_eq_elt {A} (l1 l2 pre post : list A) (r : A) :
  l1 ++ l2 = pre ++ r :: post ->
  (exists post1, l1 = pre ++ r :: post1 /\ post = post1 ++ l2) \/
  (exists pre2, pre = l1 ++ pre2 /\ l2 = pre2 ++ r :: post).
Proof.
  intro H. apply app_eq_app in H as [m [[H1 H2] | [H1 H2]]].
  - destruct m as [| y m'].
    + right. exists []. rewrite app_nil_r in H1. simpl in H2.
      subst l1 l2. split; [symmetry; apply app_nil_r | reflexivity].
    + left. simpl in H2. injection H2 as <- ->. now exists m'.
  - right. now exists m.
Qed.

(** Inside the ledger the retries of a signup come right before it. *)
Lemma blocks_order env indices blocks :
  Forall2 (block_ok env) indices blocks ->
  forall pre r post,
    List.concat (map block_attempts blocks) = pre ++ r :: post ->
    is_retry r = true ->
    exists mid o rest,
      post = mid ++ o :: rest /\
      is_original o = true /\
      SignupAttempt.retry_of r = Some (SignupAttempt.signup_id o) /\
      forall a, In a mid ->
        SignupAttempt.retry_of a = Some (SignupAttempt.signup_id o).
Proof.
  induction 1 as [| i b indices blocks Hb _ IH]; intros pre r post Hs Hr.
  - destruct pre; discriminate Hs.
  - simpl in Hs. destruct (block_retry_links env i b Hb) as [Ho Hl].
    apply app_eq_elt in Hs as [(post1 & H1 & ->) | (pre2 & -> & H2)].
    + unfold block_attempts in H1.
      apply app_eq_elt in H1 as [(post1' & H1 & ->) | (pre2 & _ & H2)].
      * exists post1', (block_signup b),
          (List.concat (map block_attempts blocks)).
        split; [now rewrite <- app_assoc |].
        split; [unfold is_original; now rewrite Ho |].
        split.
        -- apply Hl. rewrite H1. apply in_elt.
        -- intros a Ha. apply Hl. rewrite H1.
           apply in_or_app. right. now right.
      * exfalso. destruct pre2 as [| y p].
        -- simpl in H2. injection H2 as <- _.
           unfold is_retry in Hr. rewrite Ho in Hr. discriminate Hr.
        -- simpl in H2. injection H2 as _ H2. destruct p; discriminate H2.
    + exact (IH pre2 r post H2 Hr).
Qed.

(** X19: in the ledger the simulation builds on a clock inside the
    [datetime] range, a signup is appended after its retries: every retry
    is followed, with only further retries of the same signup in between,
    by the signup it retries. *)
Theorem retries_precede_their_signup env num_attempts w :
  clock_in_range env num_attempts ->
  exists w' added,
    simulate_signup_attempts env num_attempts w = Returned tt w' /\
    signup_attempts w' = signup_attempts w ++ added /\
    forall pre r post,
      added = pre ++ r :: post ->
      is_retry r = true ->
      exists mid o rest,
        post = mid ++ o :: rest /\
        is_original o = true /\
        SignupAttempt.retry_of r = Some (SignupAttempt.signup_id o) /\
        forall a, In a mid ->
          SignupAttempt.retry_of a = Some (SignupAttempt.signup_id o).
Proof.
  intro Hclock.
  destruct (simulate_signup_attempts_spec env num_attempts w Hclock)
    as (w' & blocks & E & Hbs & Ha & _).
  exists w', (List.concat (map block_attempts blocks)).
  split; [exact E |]. split; [exact Ha |].
  exact (blocks_order env _ _ Hbs).
Qed.

Lemma retries_precede_their_signup_witness :
  exists w' added,
    simulate_signup_attempts example_oracle 12 example_world
      = Returned tt w' /\
    signup_attempts w' = signup_attempts example_world ++ added /\
    forall pre r post,
      added = pre ++ r :: post ->
      is_retry r = true ->
      exists mid o rest,
        post = mid ++ o :: rest /\
        is_original o = true /\
        SignupAttempt.retry_of r = Some (SignupAttempt.signup_id o) /\
        forall a, In a mid ->
          SignupAttempt.retry_of a = Some (SignupAttempt.signup_id o).
Proof.
  apply (retries_precede_their_signup example_oracle 12 example_world).
  apply example_clock_in_range. lia.
Defined.

(** ** The simulation followed by the reduction *)

Lemma blocks_values_in blocks v :
  In v (List.concat (map block_values blocks)) ->
  exists b l, In b blocks /\ block_incident b = Some (l, v).
Proof.
  intro H. apply in_concat in H as (vs & Hvs & Hv).
  apply in_map_iff in Hvs as (b & <- & Hb).
  unfold block_values in Hv.
  destruct (block_incident b) as [[l v'] |] eqn:Hinc; [| contradiction].
  destruct Hv as [<- | []]. now exists b, l.
Qed.

(** The simulation run on a freshly constructed evaluator: the ledger is
    the sequence of blocks and every incident of the list is well formed. *)
Lemma simulation_from_fresh env num_attempts w :
  freshly_constructed w ->
  clock_in_range env num_attempts ->
  exists w' blocks,
    simulate_signup_attempts env num_attempts w = Returned tt w' /\
    Forall2 (block_ok env) (py_range num_attempts) blocks /\
    signup_attempts w' = List.concat (map block_attempts blocks) /\
    map (heap w') (failure_incidents w')
      = List.concat (map block_values blocks) /\
    List.length (failure_incidents w')
      = List.length (List.concat (map block_locs blocks)) /\
    (forall v, In v (List.concat (map block_values blocks)) ->
               incident_well_formed v).
Proof.
  intros [Hsa Hfi] Hclock.
  destruct (simulate_signup_attempts_spec env num_attempts w Hclock)
    as (w' & blocks & E & Hbs & Ha & Hf & _ & Hi & _).
  rewrite Hsa in Ha. rewrite Hfi in Hf. simpl in Ha, Hf.
  exists w', blocks. split; [exact E |]. split; [exact Hbs |].
  split; [exact Ha |]. split.
  { rewrite Hf. apply blocks_values.
    intros b l v Hb Hinc. apply (Hi b l v Hb Hinc). }
  split; [now rewrite Hf |].
  intros v Hv. destruct (blocks_values_in _ _ Hv) as (b & l & Hb & Hinc).
  destruct (Forall2_in_right _ _ _ b Hbs Hb) as (i & _ & Hok).
  exact (block_incident_well_formed env i b l v Hok Hinc).
Qed.

Lemma filter_split_length {A} (f g : A -> bool) (l : list A) :
  List.length (filter f l)
  = (List.length (filter f (filter g l))
     + List.length (filter f (filter (fun x => negb (g x)) l)))%nat.
Proof.
  induction l as [| x r IH]; simpl; [reflexivity |].
  destruct (g x); simpl; destruct (f x); simpl; lia.
Qed.

Lemma flat_map_typed_length {B} (f : InterventionType -> B)
    (l : list FailureIncident.t) :
  (forall v, In v l -> FailureIncident.intervention_type v <> None) ->
  List.length
    (flat_map (fun v => match FailureIncident.intervention_type v with
                        | Some it => [f it]
                        | None => []
                        end) l)
  = List.length l.
Proof.
  induction l as [| v r IH]; intro H; simpl; [reflexivity |].
  rewrite length_app, IH by (intros v' Hv'; apply H; now right).
  destruct (FailureIncident.intervention_type v) eqn:Hit; [reflexivity |].
  exfalso. apply (H v (or_introl eq_refl)). exact Hit.
Qed.

(** X20: [run_reliability_evaluation] on a freshly constructed evaluator
    and a clock inside the [datetime] range
    returns a snapshot whose counts are tied together: the attempts are the
    100 signups plus the retries; the successful attempts are the signups
    without incident plus the successful retries; the failed attempts are
    one per incident plus the failed retries; the successful retries are as
    many as the resolved incidents; there are at most 100 incidents and
    three retries per incident; and every manual intervention is counted in
    the breakdown by intervention type. *)
Theorem evaluation_snapshot_is_balanced env w :
  freshly_constructed w ->
  clock_in_range env 100 ->
  exists s w',
    run_reliability_evaluation env w = Returned s w' /\
    let o := Snapshot.overall_metrics s in
    let r := Snapshot.retry_metrics s in
    let c := Snapshot.recovery_metrics s in
    let m := Snapshot.intervention_metrics s in
    Snapshot.total_attempts o = 100 + Snapshot.total_retries r /\
    Snapshot.successful_attempts o
      = (100 - Snapshot.total_incidents c) + Snapshot.successful_retries r /\
    Snapshot.failed_attempts o
      = Snapshot.total_incidents c
        + (Snapshot.total_retries r - Snapshot.successful_retries r) /\
    Snapshot.successful_retries r = Snapshot.resolved_incidents c /\
    0 <= Snapshot.total_incidents c <= 100 /\
    Snapshot.total_retries r <= 3 * Snapshot.total_incidents c /\
    dict_total (Snapshot.intervention_types m)
      = Snapshot.manual_interventions m.
Proof.
  intros Hfresh Hclock.
  destruct (simulation_from_fresh env 100 w Hfresh Hclock)
    as (w' & blocks & E & Hbs & Ha & Hv & Hn & Hwf).
  unfold run_reliability_evaluation, bind. rewrite E.
  eexists. exists w'. split; [reflexivity |].
  cbn [Snapshot.overall_metrics Snapshot.retry_metrics
       Snapshot.recovery_metrics Snapshot.intervention_metrics
       Snapshot.successful_attempts Snapshot.failed_attempts
       Snapshot.total_attempts Snapshot.successful_retries
       Snapshot.total_retries Snapshot.total_incidents
       Snapshot.resolved_incidents Snapshot.manual_interventions
       Snapshot.intervention_types].
  rewrite dict_total_count_keys.
  rewrite Hv, Ha.
  set (added := List.concat (map block_attempts blocks)).
  set (vals := List.concat (map block_values blocks)).
  destruct (blocks_split env _ _ Hbs) as [Ho Hr]. fold added in Ho, Hr.
  destruct (blocks_counts env _ _ Hbs) as (C0 & C1 & C2 & C3 & C4).
  fold vals in C1, C4.
  assert (Hneg : filter (fun x => negb (is_original x)) added
                 = List.concat (map block_retries blocks)).
  { rewrite <- Hr. apply filter_ext. intro a. unfold is_original, is_retry.
    now destruct (SignupAttempt.retry_of a). }
  assert (Hret : filter (fun a => is_not_None (SignupAttempt.retry_of a)) added
                 = List.concat (map block_retries blocks)) by exact Hr.
  rewrite Hret.
  pose proof (filter_partition is_original added) as Hp.
  rewrite Ho, Hneg, length_map in Hp.
  pose proof (filter_split_length (fun a => SignupAttempt.success a)
                is_original added) as Hs.
  rewrite Ho, Hneg in Hs.
  pose proof (filter_split_length (fun a => negb (SignupAttempt.success a))
                is_original added) as Hfl.
  rewrite Ho, Hneg in Hfl.
  pose proof (filter_partition (fun a => SignupAttempt.success a)
                (map block_signup blocks)) as Hps.
  pose proof (filter_partition (fun a => SignupAttempt.success a)
                (List.concat (map block_retries blocks))) as Hpr.
  cbv beta in Hps, Hpr. rewrite length_map in Hps.
  assert (H100 : List.length (py_range 100) = 100%nat) by reflexivity.
  assert (Hmi : List.length
                  (flat_map
                     (fun incident =>
                        match FailureIncident.intervention_type incident with
                        | Some it => [InterventionType_value it]
                        | None => []
                        end)
                     (filter (fun i => FailureIncident.manual_intervention i)
                        vals))
                = List.length
                    (filter (fun i => FailureIncident.manual_intervention i)
                       vals)).
  { apply flat_map_typed_length. intros v Hin.
    apply filter_In in Hin as [Hin Hm].
    destruct (Hwf v Hin) as (_ & _ & _ & _ & _ & _ & _ & Hiff).
    now apply Hiff. }
  unfold len. rewrite Hmi.
  rewrite <- (length_map (heap w') (failure_incidents w')), Hv in Hn.
  fold vals in Hn.
  repeat split; lia.
Qed.

Lemma evaluation_snapshot_is_balanced_witness :
  exists s w',
    run_reliability_evaluation example_oracle example_world = Returned s w' /\
    let o := Snapshot.overall_metrics s in
    let r := Snapshot.retry_metrics s in
    let c := Snapshot.recovery_metrics s in
    let m := Snapshot.intervention_metrics s in
    Snapshot.total_attempts o = 100 + Snapshot.total_retries r /\
    Snapshot.successful_attempts o
      = (100 - Snapshot.total_incidents c) + Snapshot.successful_retries r /\
    Snapshot.failed_attempts o
      = Snapshot.total_incidents c
        + (Snapshot.total_retries r - Snapshot.successful_retries r) /\
    Snapshot.successful_retries r = Snapshot.resolved_incidents c /\
    0 <= Snapshot.total_incidents c <= 100 /\
    Snapshot.total_retries r <= 3 * Snapshot.total_incidents c /\
    dict_total (Snapshot.intervention_types m)
      = Snapshot.manual_interventions m.
Proof.
  apply (evaluation_snapshot_is_balanced example_oracle example_world).
  - split; reflexivity.
  - apply example_clock_in_range. lia.
Defined.

Lemma float_max_from_in l :
  forall best, In (float_max_from best l) (best :: l).
Proof.
  induction l as [| x r IH]; intro best; simpl.
  - now left.
  - destruct (PrimFloat.ltb best x).
    + right. apply IH.
    + destruct (IH best) as [H | H]; [now left | right; now right].
Qed.

(** The recovery time of an incident resolved by retry [k], in minutes. *)
Lemma recovery_minutes ts k :
  1 <= k <= 3 ->
  let x := PrimFloat.div
             (total_seconds (ts + timedelta_minutes (k * 5) - ts))
             (float_of_Z 60) in
  x = 5%float \/ x = 10%float \/ x = 15%float.
Proof.
  intros Hk x. unfold x.
  replace (ts + timedelta_minutes (k * 5) - ts) with (timedelta_minutes (k * 5))
    by lia.
  assert (E : k = 1 \/ k = 2 \/ k = 3) by lia.
  destruct E as [-> | [-> | ->]]; vm_compute; tauto.
Qed.

Lemma flat_map_timed_length {B} (f : FailureIncident.t -> datetime -> B)
    (l : list FailureIncident.t) :
  (forall v, In v l -> FailureIncident.resolution_time v <> None) ->
  List.length
    (flat_map (fun v => match FailureIncident.resolution_time v with
                        | Some t => [f v t]
                        | None => []
                        end) l)
  = List.length l.
Proof.
  induction l as [| v r IH]; intro H; simpl; [reflexivity |].
  rewrite length_app, IH by (intros v' Hv'; apply H; now right).
  destruct (FailureIncident.resolution_time v) eqn:Ht; [reflexivity |].
  exfalso. apply (H v (or_introl eq_refl)). exact Ht.
Qed.

(** X21: after a simulation on a freshly constructed evaluator and a clock
    inside the [datetime] range, every
    recovery time the reduction computes is exactly 5.0, 10.0 or 15.0
    minutes (one value per resolved incident), so the maximum recovery time
    it reports is the integer 0 or one of these three floats. *)
Theorem recovery_times_are_retry_delays env num_attempts w :
  freshly_constructed w ->
  clock_in_range env num_attempts ->
  exists w',
    simulate_signup_attempts env num_attempts w = Returned tt w' /\
    (forall x, In x (recovery_times w') ->
       x = 5%float \/ x = 10%float \/ x = 15%float) /\
    List.length (recovery_times w')
      = List.length (filter (fun i => FailureIncident.resolved i)
                       (map (heap w') (failure_incidents w'))) /\
    (max_recovery_time w' = PyInt 0 \/
     max_recovery_time w' = PyFloat 5%float \/
     max_recovery_time w' = PyFloat 10%float \/
     max_recovery_time w' = PyFloat 15%float).
Proof.
  intros Hfresh Hclock.
  destruct (simulation_from_fresh env num_attempts w Hfresh Hclock)
    as (w' & blocks & E & _ & _ & Hv & _ & Hwf).
  exists w'. split; [exact E |].
  assert (Hres : forall v,
            In v (filter (fun i => FailureIncident.resolved i)
                    (map (heap w') (failure_incidents w'))) ->
            exists k, 1 <= k <= 3 /\
              FailureIncident.resolution_time v
              = Some (FailureIncident.timestamp v + timedelta_minutes (k * 5))).
  { intros v Hin. apply filter_In in Hin as [Hin Hr]. rewrite Hv in Hin.
    destruct (Hwf v Hin) as (_ & _ & _ & Hc & Hyes & _).
    destruct (Hyes Hr) as (_ & H1 & Ht).
    exists (FailureIncident.retry_count v). split; [lia | exact Ht]. }
  assert (Hx : forall x, In x (recovery_times w') ->
                 x = 5%float \/ x = 10%float \/ x = 15%float).
  { intros x Hin. unfold recovery_times in Hin.
    apply in_flat_map in Hin as (v & Hv' & Hx).
    destruct (Hres v Hv') as (k & Hk & Ht). rewrite Ht in Hx.
    destruct Hx as [<- | []]. now apply recovery_minutes. }
  split; [exact Hx |]. split.
  - unfold recovery_times. apply flat_map_timed_length.
    intros v Hin. destruct (Hres v Hin) as (k & _ & ->). discriminate.
  - unfold max_recovery_time.
    destruct (filter (fun i => FailureIncident.resolved i)
                (map (heap w') (failure_incidents w'))); [now left |].
    destruct (recovery_times w') as [| x r] eqn:Hrt; [now left |].
    right.
    destruct (Hx (float_max_from x r) (float_max_from_in r x))
      as [-> | [-> | ->]]; tauto.
Qed.

Lemma recovery_times_are_retry_delays_witness :
  exists w',
    simulate_signup_attempts example_oracle 12 example_world
      = Returned tt w' /\
    (forall x, In x (recovery_times w') ->
       x = 5%float \/ x = 10%float \/ x = 15%float) /\
    List.length (recovery_times w')
      = List.length (filter (fun i => FailureIncident.resolved i)
                       (map (heap w') (failure_incidents w'))) /\
    (max_recovery_time w' = PyInt 0 \/
     max_recovery_time w' = PyFloat 5%float \/
     max_recovery_time w' = PyFloat 10%float \/
     max_recovery_time w' = PyFloat 15%float).
Proof.
  apply (recovery_times_are_retry_delays example_oracle 12 example_world).
  - split; reflexivity.
  - apply example_clock_in_range. lia.
Defined.

(** ** Signup identifiers *)

Lemma string_length_append (s1 s2 : string) :
  String.length (s1 ++ s2)%string
  = (String.length s1 + String.length s2)%nat.
Proof. induction s1 as [| c s1 IH]; simpl; [reflexivity | now rewrite IH]. Qed.

Lemma zeros_length k : String.length (zeros k) = k.
Proof. induction k as [| k IH]; simpl; [reflexivity | now rewrite IH]. Qed.

Lemma parse_decimal_zeros k s :
  parse_decimal (zeros k ++ s)%string = parse_decimal s.
Proof.
  unfold parse_decimal. induction k as [| k IH]; [reflexivity |].
  simpl. destruct (NilEmpty.uint_of_string (zeros k ++ s)) as [d |];
    destruct (NilEmpty.uint_of_string s) as [d' |]; simpl in *;
    try discriminate IH; try reflexivity.
  injection IH as IH. f_equal. exact IH.
Qed.

Lemma parse_decimal_py_str i :
  0 <= i -> parse_decimal (py_str i) = Some i.
Proof.
  intro Hi. unfold parse_decimal, py_str.
  pose proof (DecimalZ.of_to i) as Hrt.
  destruct i as [| p | p]; [reflexivity | | lia].
  simpl Z.to_int in *. simpl Z.of_int in Hrt.
  unfold NilZero.string_of_int, NilZero.string_of_uint.
  destruct (Pos.to_uint p) as [| | | | | | | | | |] eqn:Hd;
    [simpl in Hrt; discriminate Hrt | ..];
    rewrite NilEmpty.usu; simpl option_map; now rewrite Hrt.
Qed.

(** The index formatted with [:04d] reads back as the index. *)
Lemma py_format_04d_parses i :
  0 <= i -> parse_decimal (py_format_04d i) = Some i.
Proof.
  intro Hi. unfold py_format_04d.
  destruct (Z.ltb_spec i 0) as [Hneg | _]; [lia |].
  rewrite Z.abs_eq by exact Hi.
  simpl String.append at 1.
  rewrite parse_decimal_zeros. now apply parse_decimal_py_str.
Qed.

(** X22: the [:04d] format of a non-negative index is at least four
    characters wide, exactly as wide as the longer of 4 and the number of
    digits, and reading it back as a decimal number gives the index: the
    format loses nothing. *)
Theorem index_format_round_trip i :
  0 <= i ->
  parse_decimal (py_format_04d i) = Some i /\
  String.length (py_format_04d i)
    = Nat.max 4 (String.length (py_str i)).
Proof.
  intro Hi. split; [now apply py_format_04d_parses |].
  unfold py_format_04d.
  destruct (Z.ltb_spec i 0) as [Hneg | _]; [lia |].
  rewrite Z.abs_eq by exact Hi.
  rewrite !string_length_append, zeros_length. simpl String.length. lia.
Qed.

Lemma index_format_round_trip_witness :
  parse_decimal (py_format_04d 42) = Some 42 /\
  String.length (py_format_04d 42) = Nat.max 4 (String.length (py_str 42)).
Proof. apply (index_format_round_trip 42). lia. Defined.

Lemma NoDup_map_injective {A B} (f : A -> B) (l : list A) :
  (forall x y, In x l -> In y l -> f x = f y -> x = y) ->
  NoDup l -> NoDup (map f l).
Proof.
  intros Hinj Hnd. induction Hnd as [| x l Hx Hnd IH]; simpl;
    [constructor |].
  constructor.
  - intro Hin. apply in_map_iff in Hin as (y & Hxy & Hy).
    apply Hx. rewrite (Hinj x y); [exact Hy | now left | now right |].
    now symmetry.
  - apply IH. intros a b Ha Hb. apply Hinj; now right.
Qed.

Lemma py_range_spec n i : In i (py_range n) -> 0 <= i.
Proof.
  unfold py_range. intro H. apply in_map_iff in H as (k & <- & _). lia.
Qed.

Lemma py_range_NoDup n : NoDup (py_range n).
Proof.
  unfold py_range. apply NoDup_map_injective; [| apply seq_NoDup].
  intros x y _ _ H. lia.
Qed.

Lemma map_nth_error_eq {A B} (f : A -> B) (g : Z -> B) (l : list A)
    (indices : list Z) :
  List.length l = List.length indices ->
  (forall k a, nth_error l k = Some a ->
     exists i, nth_error indices k = Some i /\ f a = g i) ->
  map f l = map g indices.
Proof.
  revert indices. induction l as [| a l IH]; intros [| i indices] Hlen H;
    try discriminate Hlen; [reflexivity |].
  simpl. destruct (H 0%nat a eq_refl) as (i' & Hi' & Hf).
  injection Hi' as <-. rewrite Hf. f_equal.
  apply IH; [simpl in Hlen; lia |].
  intros k a' Hk. exact (H (S k) a' Hk).
Qed.

(** X23: the signups the simulation appends on a clock inside the
    [datetime] range have pairwise distinct [signup_id]s, for every
    [num_attempts], also beyond the four digits the format pads to. *)
Theorem simulated_signup_ids_are_distinct env num_attempts w :
  clock_in_range env num_attempts ->
  exists w' added,
    simulate_signup_attempts env num_attempts w = Returned tt w' /\
    signup_attempts w' = signup_attempts w ++ added /\
    NoDup (map SignupAttempt.signup_id (filter is_original added)).
Proof.
  intro Hclock.
  destruct (simulate_signup_attempts_spec env num_attempts w Hclock)
    as (w' & blocks & E & Hbs & Ha & _).
  exists w', (List.concat (map block_attempts blocks)).
  split; [exact E |]. split; [exact Ha |].
  destruct (blocks_split env _ _ Hbs) as [Ho _].
  destruct (blocks_counts env _ _ Hbs) as [Hlen _].
  rewrite Ho, map_map.
  rewrite (map_nth_error_eq
             (fun b => SignupAttempt.signup_id (block_signup b))
             (fun i => ("signup_" ++ py_format_04d i)%string)
             blocks (py_range num_attempts) Hlen).
  - apply NoDup_map_injective; [| apply py_range_NoDup].
    intros x y Hx Hy H. simpl in H. injection H as H.
    apply py_range_spec in Hx, Hy.
    pose proof (py_format_04d_parses x Hx) as Px.
    pose proof (py_format_04d_parses y Hy) as Py.
    rewrite H in Px. congruence.
  - intros k b Hb.
    destruct (Forall2_nth_error _ _ _ Hbs k b Hb) as (i & Hi & Hok).
    exists i. split; [exact Hi |].
    destruct (block_signup_planned env i b Hok) as (s & f & -> & _).
    reflexivity.
Qed.

Lemma simulated_signup_ids_are_distinct_witness :
  exists w' added,
    simulate_signup_attempts example_oracle 12 example_world
      = Returned tt w' /\
    signup_attempts w' = signup_attempts example_world ++ added /\
    NoDup (map SignupAttempt.signup_id (filter is_original added)).
Proof.
  apply (simulated_signup_ids_are_distinct example_oracle 12 example_world).
  apply example_clock_in_range. lia.
Defined.

(** The signups of the blocks have pairwise distinct identifiers. *)
Lemma blocks_signup_ids_NoDup env n blocks :
  Forall2 (block_ok env) (py_range n) blocks ->
  NoDup (map (fun b => SignupAttempt.signup_id (block_signup b)) blocks).
Proof.
  intro Hbs.
  destruct (blocks_counts env _ _ Hbs) as [Hlen _].
  rewrite (map_nth_error_eq
             (fun b => SignupAttempt.signup_id (block_signup b))
             (fun i => ("signup_" ++ py_format_04d i)%string)
             blocks (py_range n) Hlen).
  - apply NoDup_map_injective; [| apply py_range_NoDup].
    intros x y Hx Hy H. simpl in H. injection H as H.
    apply py_range_spec in Hx, Hy.
    pose proof (py_format_04d_parses x Hx) as Px.
    pose proof (py_format_04d_parses y Hy) as Py.
    rewrite H in Px. congruence.
  - intros k b Hb.
    destruct (Forall2_nth_error _ _ _ Hbs k b Hb) as (i & Hi & Hok).
    exists i. split; [exact Hi |].
    destruct (block_signup_planned env i b Hok) as (s & f & -> & _).
    reflexivity.
Qed.

(** Filtering a concatenation of groups by the key of one group, when the
    keys of the groups are pairwise distinct and the test recognises the
    members of a group by its key. *)
Lemma filter_concat_absent {B C} (key : B -> string) (f g : B -> list C)
    (p : string -> C -> bool) (blocks : list B) (s : string) :
  (forall b, In b blocks ->
     filter (p s) (f b) = if (key b =? s)%string then g b else []) ->
  (forall b, In b blocks -> key b <> s) ->
  filter (p s) (List.concat (map f blocks)) = [].
Proof.
  induction blocks as [| b0 blocks IH]; intros Hf Hne; [reflexivity |].
  simpl. rewrite filter_app, (Hf b0 (or_introl eq_refl)).
  destruct (String.eqb_spec (key b0) s) as [Heq | _].
  - destruct (Hne b0 (or_introl eq_refl) Heq).
  - simpl. apply IH; intros b Hb; [apply Hf | apply Hne]; now right.
Qed.

Lemma filter_concat_keyed {B C} (key : B -> string) (f g : B -> list C)
    (p : string -> C -> bool) (blocks : list B) :
  NoDup (map key blocks) ->
  (forall b s, In b blocks ->
     filter (p s) (f b) = if (key b =? s)%string then g b else []) ->
  forall b, In b blocks ->
    filter (p (key b)) (List.concat (map f blocks)) = g b.
Proof.
  induction blocks as [| b0 blocks IH]; intros Hnd Hf b Hin; [contradiction |].
  simpl map in Hnd. apply NoDup_cons_iff in Hnd as [Hnotin Hnd].
  simpl. rewrite filter_app, (Hf b0 (key b) (or_introl eq_refl)).
  destruct (String.eqb_spec (key b0) (key b)) as [Heq | Hne].
  - rewrite <- Heq.
    rewrite (filter_concat_absent key f g p blocks (key b0)).
    + rewrite app_nil_r.
      destruct Hin as [<- | Hin]; [reflexivity |].
      exfalso. apply Hnotin. rewrite Heq. now apply in_map.
    + intros b' Hb'. apply Hf. now right.
    + intros b' Hb' H. apply Hnotin. rewrite <- H. now apply in_map.
  - destruct Hin as [<- | Hin]; [now destruct Hne |].
    simpl. apply IH; [exact Hnd | | exact Hin].
    intros b' s' Hb'. apply Hf. now right.
Qed.

(** The retries of a block are the attempts that name its signup. *)
Lemma block_retries_of env i b s :
  block_ok env i b ->
  retries_of s (block_attempts b)
  = if (SignupAttempt.signup_id (block_signup b) =? s)%string
    then block_retries b else [].
Proof.
  intro Hok. destruct (block_retry_links env i b Hok) as [Ho Hr].
  unfold retries_of, block_attempts. rewrite filter_app. simpl.
  rewrite Ho, app_nil_r.
  destruct (String.eqb_spec (SignupAttempt.signup_id (block_signup b)) s)
    as [Heq | Hne].
  - apply filter_keeps_every, Forall_forall. intros r Hin.
    destruct (Hr r Hin) as [-> _]. rewrite Heq. apply String.eqb_refl.
  - apply filter_none. intros r Hin.
    destruct (Hr r Hin) as [-> _]. now apply String.eqb_neq.
Qed.

(** The incident of a block is the one that records its signup. *)
Lemma block_incidents_of env i b h s :
  block_ok env i b ->
  (forall l v, block_incident b = Some (l, v) -> h l = v) ->
  incidents_of h s (block_locs b)
  = if (SignupAttempt.signup_id (block_signup b) =? s)%string
    then block_locs b else [].
Proof.
  unfold block_ok, incidents_of, block_locs. intros Hok Hh.
  destruct (block_incident b) as [[l v] |].
  - destruct Hok as (_ & Hid & _). simpl.
    rewrite (Hh l v eq_refl), Hid.
    now destruct (SignupAttempt.signup_id (block_signup b) =? s)%string.
  - simpl. now destruct (SignupAttempt.signup_id (block_signup b) =? s)%string.
Qed.

(** X17: the simulation keeps the books, item by item.  On a clock inside
    the [datetime] range it returns, and among what it has appended every
    attempt is one of the [num_attempts] signups or a retry.  For every
    signup appended, the new incidents that record it are exactly one if
    the signup failed and none if it succeeded, and its retries (the
    attempts whose [retry_of] names it) are at most three, and none if it
    succeeded.  For every new incident, the retries of its signup are at
    most three, and the successful ones among them are exactly one if the
    incident ends resolved and none otherwise.  Every retry appended names
    the signup of a new incident.  In total: one new incident per failed
    signup, at most three retries per incident, and as many successful
    retries as new incidents that end resolved. *)
Theorem simulation_accounting env num_attempts w :
  clock_in_range env num_attempts ->
  exists w' added new,
    simulate_signup_attempts env num_attempts w = Returned tt w' /\
    signup_attempts w' = signup_attempts w ++ added /\
    failure_incidents w' = failure_incidents w ++ new /\
    len added = Z.max 0 num_attempts + len (filter is_retry added) /\
    (forall a, In a added -> is_original a = true ->
       len (incidents_of (heap w') (SignupAttempt.signup_id a) new)
         = (if SignupAttempt.success a then 0 else 1) /\
       len (retries_of (SignupAttempt.signup_id a) added) <= 3 /\
       (SignupAttempt.success a = true ->
        retries_of (SignupAttempt.signup_id a) added = [])) /\
    (forall l, In l new ->
       len (retries_of (FailureIncident.signup_id (heap w' l)) added) <= 3 /\
       len (filter (fun a => SignupAttempt.success a)
              (retries_of (FailureIncident.signup_id (heap w' l)) added))
         = (if FailureIncident.resolved (heap w' l) then 1 else 0)) /\
    (forall a, In a added -> is_retry a = true ->
       exists l,
         In l new /\
         SignupAttempt.retry_of a
           = Some (FailureIncident.signup_id (heap w' l))) /\
    len new
      = len (filter (fun a => negb (SignupAttempt.success a) && is_original a)
               added) /\
    len (filter is_retry added) <= 3 * len new /\
    len (filter (fun a => SignupAttempt.success a) (filter is_retry added))
      = len (filter (fun v => FailureIncident.resolved v)
               (map (heap w') new)).
Proof.
  intro Hclock.
  destruct (simulate_signup_attempts_spec env num_attempts w Hclock)
    as (w' & blocks & E & Hbs & Ha & Hf & _ & Hi & _).
  exists w', (List.concat (map block_attempts blocks)),
    (List.concat (map block_locs blocks)).
  split; [exact E |]. split; [exact Ha |]. split; [exact Hf |].
  set (added := List.concat (map block_attempts blocks)).
  set (new := List.concat (map block_locs blocks)).
  set (key := fun b => SignupAttempt.signup_id (block_signup b)).
  pose proof (blocks_signup_ids_NoDup env num_attempts blocks Hbs) as Hnd.
  assert (Hok : forall b, In b blocks -> exists i, block_ok env i b).
  { intros b Hb. destruct (Forall2_in_right _ _ _ b Hbs Hb) as (i & _ & Hok).
    now exists i. }
  assert (Hret : forall b, In b blocks ->
            retries_of (key b) added = block_retries b).
  { intros b Hb.
    apply (filter_concat_keyed key block_attempts block_retries
             (fun s a => match SignupAttempt.retry_of a with
                         | Some s' => (s' =? s)%string
                         | None => false
                         end) blocks Hnd); [| exact Hb].
    intros b' s Hb'. destruct (Hok b' Hb') as [i Hokb].
    exact (block_retries_of env i b' s Hokb). }
  assert (Hinc : forall b, In b blocks ->
            incidents_of (heap w') (key b) new = block_locs b).
  { intros b Hb.
    apply (filter_concat_keyed key block_locs block_locs
             (fun s l => (FailureIncident.signup_id (heap w' l) =? s)%string)
             blocks Hnd); [| exact Hb].
    intros b' s Hb'. destruct (Hok b' Hb') as [i Hokb].
    apply (block_incidents_of env i b' (heap w') s Hokb).
    intros l v Hinc. now apply (Hi b' l v Hb' Hinc). }
  destruct (blocks_split env _ _ Hbs) as [Ho Hr].
  destruct (blocks_counts env _ _ Hbs) as (C0 & C1 & C2 & C3 & C4).
  fold added in Ho, Hr. fold new in C1, C2, C3.
  split.
  { (* every attempt is a signup or a retry *)
    unfold len.
    assert (Hn : List.length (py_range num_attempts) = Z.to_nat num_attempts).
    { unfold py_range. now rewrite length_map, length_seq. }
    pose proof (filter_partition is_original added) as Hp.
    assert (Hneg : filter (fun x => negb (is_original x)) added
                   = List.concat (map block_retries blocks)).
    { rewrite <- Hr. apply filter_ext. intro a. unfold is_original, is_retry.
      now destruct (SignupAttempt.retry_of a). }
    rewrite Ho, Hneg, length_map in Hp. rewrite Hr. lia. }
  split.
  { (* signup by signup *)
    intros a Hin Horig.
    destruct (blocks_attempts_in _ _ Hin) as (b & Hb & Hcase).
    destruct (Hok b Hb) as [i Hokb].
    destruct (block_retry_links env i b Hokb) as [_ Hl].
    destruct Hcase as [-> | Hretry].
    2:{ destruct (Hl a Hretry) as (Hro & _).
        unfold is_original in Horig. rewrite Hro in Horig.
        discriminate Horig. }
    change (SignupAttempt.signup_id (block_signup b)) with (key b).
    rewrite (Hinc b Hb), (Hret b Hb).
    destruct (block_counts env i b Hokb) as (_ & _ & B3 & _).
    unfold block_ok in Hokb. unfold block_locs in *.
    destruct (block_incident b) as [[l v] |].
    - destruct Hokb as (-> & _). simpl in B3 |- *. unfold len.
      repeat split; try lia; discriminate.
    - destruct Hokb as (-> & ->). simpl. unfold len. simpl.
      repeat split; lia. }
  split.
  { (* incident by incident *)
    intros l Hl.
    destruct (blocks_locs_in _ _ Hl) as (b & v & Hb & Hincb).
    destruct (Hok b Hb) as [i Hokb].
    destruct (Hi b l v Hb Hincb) as [_ Hv]. rewrite Hv.
    destruct (block_counts env i b Hokb) as (_ & _ & B3 & B4).
    unfold block_locs, block_values in B3, B4. rewrite Hincb in B3, B4.
    assert (Hid : FailureIncident.signup_id v = key b).
    { unfold block_ok in Hokb. rewrite Hincb in Hokb.
      now destruct Hokb as (_ & Hid & _). }
    rewrite Hid, (Hret b Hb). unfold len. rewrite B4. simpl in B3 |- *.
    split; [lia |]. now destruct (FailureIncident.resolved v). }
  split.
  { (* every retry belongs to a new incident *)
    intros a Hin Hretry.
    destruct (blocks_attempts_in _ _ Hin) as (b & Hb & Hcase).
    destruct (Hok b Hb) as [i Hokb].
    destruct (block_retry_links env i b Hokb) as [Ho' Hl].
    destruct Hcase as [-> | Hr'].
    { unfold is_retry in Hretry. rewrite Ho' in Hretry. discriminate Hretry. }
    destruct (Hl a Hr') as (Hro & _).
    pose proof Hokb as Hokb'. unfold block_ok in Hokb'.
    destruct (block_incident b) as [[l v] |] eqn:Hincb.
    - exists l. destruct Hokb' as (_ & Hid & _).
      destruct (Hi b l v Hb Hincb) as [_ Hv]. rewrite Hv, Hid.
      split; [| exact Hro].
      apply in_concat. exists (block_locs b).
      split; [now apply in_map |]. unfold block_locs. rewrite Hincb. now left.
    - destruct Hokb' as (Hnil & _). rewrite Hnil in Hr'. destruct Hr'. }
  (* the totals *)
  subst added new.
  rewrite filter_and, Ho, Hr.
  rewrite (blocks_values (heap w') blocks)
    by (intros b l v Hb Hincb; apply (Hi b l v Hb Hincb)).
  unfold len. repeat split; lia.
Qed.

Lemma simulation_accounting_witness :
  exists w' added new,
    simulate_signup_attempts example_oracle 12 example_world
      = Returned tt w' /\
    signup_attempts w' = signup_attempts example_world ++ added /\
    failure_incidents w' = failure_incidents example_world ++ new /\
    len added = Z.max 0 12 + len (filter is_retry added) /\
    (forall a, In a added -> is_original a = true ->
       len (incidents_of (heap w') (SignupAttempt.signup_id a) new)
         = (if SignupAttempt.success a then 0 else 1) /\
       len (retries_of (SignupAttempt.signup_id a) added) <= 3 /\
       (SignupAttempt.success a = true ->
        retries_of (SignupAttempt.signup_id a) added = [])) /\
    (forall l, In l new ->
       len (retries_of (FailureIncident.signup_id (heap w' l)) added) <= 3 /\
       len (filter (fun a => SignupAttempt.success a)
              (retries_of (FailureIncident.signup_id (heap w' l)) added))
         = (if FailureIncident.resolved (heap w' l) then 1 else 0)) /\
    (forall a, In a added -> is_retry a = true ->
       exists l,
         In l new /\
         SignupAttempt.retry_of a
           = Some (FailureIncident.signup_id (heap w' l))) /\
    len new
      = len (filter (fun a => negb (SignupAttempt.success a) && is_original a)
               added) /\
    len (filter is_retry added) <= 3 * len new /\
    len (filter (fun a => SignupAttempt.success a) (filter is_retry added))
      = len (filter (fun v => FailureIncident.resolved v)
               (map (heap w') new)).
Proof.
  apply (simulation_accounting example_oracle 12 example_world).
  apply example_clock_in_range. lia.
Defined.

(** ** The report: the rows of the "Failure Analysis" section *)

Lemma insert_desc_perm x l : Permutation (insert_desc x l) (x :: l).
Proof.
  induction l as [| y r IH]; simpl; [reflexivity |].
  destruct (snd y <? snd x); [reflexivity |].
  rewrite IH. apply perm_swap.
Qed.

Lemma sorted_by_count_desc_perm_from items :
  forall acc,
    Permutation (fold_left (fun acc x => insert_desc x acc) items acc)
      (acc ++ items).
Proof.
  induction items as [| x r IH]; intro acc; simpl.
  - now rewrite app_nil_r.
  - rewrite IH, insert_desc_perm. simpl. apply Permutation_middle.
Qed.

Lemma insert_desc_sorted x l :
  StronglySorted (fun a b => snd b <= snd a) l ->
  StronglySorted (fun a b => snd b <= snd a) (insert_desc x l).
Proof.
  induction 1 as [| y r Hs IH Hall]; simpl.
  - constructor; constructor.
  - destruct (Z.ltb_spec (snd y) (snd x)) as [Hlt | Hge].
    + constructor; [now constructor |].
      constructor; [lia |].
      apply Forall_forall. intros e He.
      rewrite Forall_forall in Hall. specialize (Hall e He). simpl in Hall. lia.
    + constructor; [exact IH |].
      apply Forall_forall. intros e He.
      apply (Permutation_in _ (insert_desc_perm x r)) in He as [<- | He];
        [exact Hge |].
      rewrite Forall_forall in Hall. now apply Hall.
Qed.

Lemma sorted_by_count_desc_sorted items :
  StronglySorted (fun a b => snd b <= snd a) (sorted_by_count_desc items).
Proof.
  unfold sorted_by_count_desc.
  assert (H : forall acc,
            StronglySorted (fun a b => snd b <= snd a) acc ->
            StronglySorted (fun a b => snd b <= snd a)
              (fold_left (fun acc x => insert_desc x acc) items acc)).
  { induction items as [| x r IH]; intros acc Hacc; simpl; [exact Hacc |].
    apply IH. now apply insert_desc_sorted. }
  apply H. constructor.
Qed.

Lemma strongly_sorted_app {A} (R : A -> A -> Prop) (l1 l2 : list A) :
  StronglySorted R (l1 ++ l2) ->
  StronglySorted R l1 /\
  forall a b, In a l1 -> In b l2 -> R a b.
Proof.
  induction l1 as [| x r IH]; simpl; intro H.
  - split; [constructor | intros a b []].
  - apply StronglySorted_inv in H as [Hs Hall].
    destruct (IH Hs) as [Hr Hcross].
    rewrite Forall_forall in Hall.
    split.
    + constructor; [exact Hr |]. apply Forall_forall.
      intros e He. apply Hall. apply in_or_app. now left.
    + intros a b [<- | Ha] Hb.
      * apply Hall. apply in_or_app. now right.
      * now apply Hcross.
Qed.

(** X24: the "Failure Analysis" section of the report runs over the best
    five entries of the failure-type breakdown: as many rows as there are
    entries, but at most five, in order of non-increasing count, and every
    entry left out has a count no larger than any row shown. *)
Theorem failure_section_shows_the_top_five (failure_types : str_dict Z) :
  let rows := failure_report_rows failure_types in
  List.length rows = Nat.min 5 (List.length failure_types) /\
  StronglySorted (fun a b => snd b <= snd a) rows /\
  exists rest,
    Permutation (rows ++ rest) failure_types /\
    forall r e, In r rows -> In e rest -> snd e <= snd r.
Proof.
  intro rows. unfold rows, failure_report_rows.
  pose proof (sorted_by_count_desc_perm_from failure_types []) as Hp.
  simpl in Hp. fold (sorted_by_count_desc failure_types) in Hp.
  pose proof (sorted_by_count_desc_sorted failure_types) as Hs.
  rewrite <- (firstn_skipn 5 (sorted_by_count_desc failure_types)) in Hs.
  apply strongly_sorted_app in Hs as [Hrows Hcross].
  split.
  { rewrite length_firstn. now rewrite (Permutation_length Hp). }
  split; [exact Hrows |].
  exists (skipn 5 (sorted_by_count_desc failure_types)).
  split; [now rewrite firstn_skipn |].
  intros r e Hr He. exact (Hcross r e Hr He).
Qed.

(** The labels the two sections print for the enum values. *)
Example report_labels :
  map (fun c => py_title (replace_underscores (FailureType_value c)))
    FailureType_members
  = ["Authentication Failed"; "Network Timeout"; "Payment Declined";
     "Program Full"; "Site Maintenance"; "Captcha Challenge";
     "Rate Limited"; "Form Validation Error"]%string.
Proof. vm_compute. reflexivity. Qed.

Lemma string_append_assoc (a b c : string) :
  ((a ++ b) ++ c = a ++ (b ++ c))%string.
Proof. induction a as [| x a IH]; simpl; [reflexivity | now rewrite IH]. Qed.

Lemma string_append_nil_r (a : string) : (a ++ "" = a)%string.
Proof. induction a as [| x a IH]; simpl; [reflexivity | now rewrite IH]. Qed.

Lemma string_concat_cons (x : string) (l : list string) :
  String.concat "" (x :: l) = (x ++ String.concat "" l)%string.
Proof.
  destruct l as [| y r]; simpl; [now rewrite string_append_nil_r | reflexivity].
Qed.

(** A loop of [report += line] appends the lines in order. *)
Lemma fold_left_append_lines {A} (line : A -> string) (items : list A) :
  forall report,
    fold_left (fun report item => (report ++ line item)%string) items report
    = (report ++ String.concat "" (map line items))%string.
Proof.
  induction items as [| x r IH]; intro report.
  - simpl. now rewrite string_append_nil_r.
  - simpl fold_left. simpl map.
    rewrite IH, string_append_assoc, string_concat_cons. reflexivity.
Qed.

(** Both sections leave the report as it is for an empty breakdown and
    otherwise append a heading and one line per row. *)
Lemma append_failure_section_text report (failure_types : str_dict Z) :
  append_failure_section report failure_types =
  match failure_types with
  | [] => report
  | _ :: _ =>
      ((report ++ nl ++ "## Failure Analysis" ++ nl)
       ++ String.concat ""
            (map (fun item =>
                    "- " ++ py_title (replace_underscores (fst item))
                      ++ ": " ++ py_str (snd item) ++ " occurrences" ++ nl)
               (failure_report_rows failure_types)))%string
  end.
Proof.
  unfold append_failure_section. destruct failure_types; [reflexivity |].
  apply (fold_left_append_lines
           (fun item =>
              ("- " ++ py_title (replace_underscores (fst item))
                 ++ ": " ++ py_str (snd item) ++ " occurrences" ++ nl)%string)).
Qed.

Lemma append_intervention_section_text report (intervention_types : str_dict Z) :
  append_intervention_section report intervention_types =
  match intervention_types with
  | [] => report
  | _ :: _ =>
      ((report ++ nl ++ "### Intervention Types:" ++ nl)
       ++ String.concat ""
            (map (fun item =>
                    "- " ++ py_title (replace_underscores (fst item))
                      ++ ": " ++ py_str (snd item) ++ nl)
               (sorted_by_count_desc intervention_types)))%string
  end.
Proof.
  unfold append_intervention_section.
  destruct intervention_types; [reflexivity |].
  apply (fold_left_append_lines
           (fun item =>
              ("- " ++ py_title (replace_underscores (fst item))
                 ++ ": " ++ py_str (snd item) ++ nl)%string)).
Qed.
